(** * instance.js: shims for the [Object.*] static methods

    The source is a JavaScript module whose functions read and write
    objects of the host's heap.  The development has three layers:

    - [JS]: the part of the JavaScript object model the module relies on:
      values, objects with a prototype link and attributed data
      properties, property lookup along the prototype chain, assignment
      as strict code performs it (the module starts with ['use strict']),
      the accessor [__proto__] of [Object.prototype] on the hosts that
      have it, [for-in] enumeration, [typeof], [in], [new];
    - [Native]: the host's built-in [Object.*] functions the module
      delegates to when the host has them, after ECMA-262 (2015);
    - [Instance]: the functions of [src/instance.js], statement by
      statement, over a description of the host: which built-ins exist,
      and what the global scope binds.

    Limits of the model, all made explicit by the [Unmodelled] outcome or
    by the types: the accessor [__proto__] apart, accessor properties
    (getters and setters) and calls of user functions are not modelled;
    numbers are integers; property keys are strings; a [for-in] loop
    enumerates a snapshot taken when the loop starts, own keys in
    insertion order and then the prototype's.  The accessor is seen by the
    reads and the assignments that reach it through a prototype chain; the
    property lists, and so the own-property reflection on
    [Object.prototype] itself, do not hold it.
    The array that [getOwnPropertyNames] returns is the list of its
    elements.  The module-loader lines at the end of the file are not
    modelled. *)

From Stdlib Require Import ZArith Lia.
From stdpp Require Import base list strings pretty.

Local Open Scope string_scope.
Local Open Scope list_scope.

(** ** The object model *)

Module JS.

Abbreviation loc := nat.

Inductive value :=
  | VUndefined
  | VNull
  | VBool (b : bool)
  | VNumber (n : Z)
  | VString (s : string)
  | VObject (l : loc).

#[global] Instance value_eq_dec : EqDecision value.
Proof. solve_decision. Defined.

(** A data property with its three attributes. *)
Record data_property := MkProp {
  p_value : value;
  p_writable : bool;
  p_enumerable : bool;
  p_configurable : bool
}.

#[global] Instance prop_eq_dec : EqDecision data_property.
Proof. solve_decision. Defined.

(** The [[Call]] slot of a function object.  The only built-in function
    the module calls through a property lookup is
    [Object.prototype.hasOwnProperty]; every other function is opaque. *)
Inductive code := Builtin_hasOwnProperty | OtherCode.

#[global] Instance code_eq_dec : EqDecision code.
Proof. solve_decision. Defined.

(** An object: prototype link ([None] is [null]), the extensible flag, the
    [[Call]] slot ([None] for a non-function) and the own properties in
    insertion order. *)
Record object := MkObject {
  o_proto : option loc;
  o_extensible : bool;
  o_call : option code;
  o_props : list (string * data_property)
}.

Abbreviation heap := (list object).

Inductive exn := TypeError | ReferenceError.

#[global] Instance exn_eq_dec : EqDecision exn.
Proof. solve_decision. Defined.

(** What a piece of code does: it returns, it throws, or it leaves the
    model (a user function would run, or a reference dangles). *)
Inductive outcome (A : Type) :=
  | Ret (a : A)
  | Throw (e : exn)
  | Unmodelled.
Arguments Ret {A} a.
Arguments Throw {A} e.
Arguments Unmodelled {A}.

(** Computations thread the heap; the heap at the time of a throw is kept,
    so that "no mutation before the error" can be stated. *)
Definition M (A : Type) := heap -> outcome A * heap.

Definition ret {A} (a : A) : M A := fun h => (Ret a, h).
Definition throw {A} (e : exn) : M A := fun h => (Throw e, h).

Definition bind {A B} (m : M A) (k : A -> M B) : M B :=
  fun h =>
    match m h with
    | (Ret a, h') => k a h'
    | (Throw e, h') => (Throw e, h')
    | (Unmodelled, h') => (Unmodelled, h')
    end.

Notation "'let*' x ':=' m 'in' k" := (bind m (fun x => k))
  (at level 10, x pattern, m at level 100, k at level 200).
Notation "m ';;' k" := (bind m (fun _ => k))
  (at level 100, k at level 200, right associativity).

(** A read-only step. *)
Definition lift {A} (f : heap -> outcome A) : M A := fun h => (f h, h).

(** [for (x of l) body(x)]: the body runs on each element in order and the
    loop stops at the first throw. *)
Fixpoint for_each {A} (body : A -> M unit) (l : list A) : M unit :=
  match l with
  | [] => ret tt
  | x :: l' => body x ;; for_each body l'
  end.

(** *** Own properties *)

Fixpoint assoc {A} (k : string) (l : list (string * A)) : option A :=
  match l with
  | [] => None
  | (k', a) :: l' => if bool_decide (k = k') then Some a else assoc k l'
  end.

(** Replaces the entry of [k], keeping its position. *)
Fixpoint update {A} (k : string) (a : A) (l : list (string * A)) : list (string * A) :=
  match l with
  | [] => []
  | (k', a') :: l' =>
      if bool_decide (k = k') then (k', a) :: l' else (k', a') :: update k a l'
  end.

Definition own_prop (h : heap) (l : loc) (k : string) : option data_property :=
  match h !! l with
  | Some o => assoc k (o_props o)
  | None => None
  end.

Definition proto_of (h : heap) (l : loc) : option loc :=
  match h !! l with
  | Some o => o_proto o
  | None => None
  end.

(** Prototype chains of a heap of [n] objects have at most [n] links; the
    walks below carry that much fuel. *)
Definition chain_fuel (h : heap) : nat := length h.

(** The first property named [k] on the chain that starts at [start]. *)
Fixpoint find_prop_from (fuel : nat) (h : heap) (start : option loc) (k : string)
  : option data_property :=
  match fuel, start with
  | S f, Some l =>
      match h !! l with
      | Some o =>
          match assoc k (o_props o) with
          | Some p => Some p
          | None => find_prop_from f h (o_proto o) k
          end
      | None => None
      end
  | _, _ => None
  end.

Definition find_prop (h : heap) (l : loc) (k : string) : option data_property :=
  find_prop_from (chain_fuel h) h (Some l) k.

(** [[Get]] on an object: with data properties only it is a pure read. *)
Definition get (h : heap) (l : loc) (k : string) : value :=
  match find_prop h l k with
  | Some p => p_value p
  | None => VUndefined
  end.

(** [[HasProperty]]. *)
Definition has_property (h : heap) (l : loc) (k : string) : bool :=
  match find_prop h l k with
  | Some _ => true
  | None => false
  end.

(** *** [for-in] enumeration *)

(** The enumerable keys of one object that are not in [visited], the keys
    met earlier on the chain, enumerable or not.  A property list is read
    as a map: the first entry of a key is the property. *)
Fixpoint enumerable_new (props : list (string * data_property)) (visited : list string)
  : list string :=
  match props with
  | [] => []
  | (k, p) :: rest =>
      (if p_enumerable p && bool_decide (k ∉ visited) then [k] else [])
        ++ enumerable_new rest (k :: visited)
  end.

Fixpoint for_in_from (fuel : nat) (h : heap) (start : option loc)
    (visited : list string) : list string :=
  match fuel, start with
  | S f, Some l =>
      match h !! l with
      | Some o =>
          enumerable_new (o_props o) visited
            ++ for_in_from f h (o_proto o) ((o_props o).*1 ++ visited)
      | None => []
      end
  | _, _ => []
  end.

(** *** Primitive values and their wrappers *)

(** The intrinsic objects of the realm the module runs in. *)
Record realm := MkRealm {
  ObjectPrototype : loc;
  FunctionPrototype : loc;
  BooleanPrototype : loc;
  NumberPrototype : loc;
  StringPrototype : loc;
  (** whether [Object.prototype] has the accessor property [__proto__] *)
  proto_accessor : bool
}.

Fixpoint chars (s : string) : list string :=
  match s with
  | EmptyString => []
  | String c s' => String c EmptyString :: chars s'
  end.

(** The own properties of a String object: one read-only enumerable
    property per character, and the read-only hidden [length]. *)
Definition string_props (s : string) : list (string * data_property) :=
  imap (fun i c => (pretty i, MkProp (VString c) false true false)) (chars s)
    ++ [("length", MkProp (VNumber (Z.of_nat (String.length s))) false false false)].

Definition ordinary (proto : option loc) (props : list (string * data_property)) : object :=
  MkObject proto true None props.

(** A property as an object literal or a plain assignment creates it. *)
Definition data (v : value) : data_property := MkProp v true true true.

Definition alloc (o : object) : M loc := fun h => (Ret (length h), h ++ [o]).

Section Realm.
Variable R : realm.

(** ToObject. *)
Definition ToObject (v : value) : M loc :=
  match v with
  | VUndefined | VNull => throw TypeError
  | VBool _ => alloc (ordinary (Some (BooleanPrototype R)) [])
  | VNumber _ => alloc (ordinary (Some (NumberPrototype R)) [])
  | VString s => alloc (ordinary (Some (StringPrototype R)) (string_props s))
  | VObject l => ret l
  end.

(** The call [Object(v)]. *)
Definition Object_call (v : value) : M value :=
  match v with
  | VUndefined | VNull =>
      let* l := alloc (ordinary (Some (ObjectPrototype R)) []) in ret (VObject l)
  | _ => let* l := ToObject v in ret (VObject l)
  end.

(** An object literal [{k1: v1, ...}]. *)
Definition literal (fields : list (string * value)) : M value :=
  let* l := alloc (ordinary (Some (ObjectPrototype R))
                     (map (fun kv => (kv.1, data kv.2)) fields)) in
  ret (VObject l).

(** *** The accessor [__proto__] *)

(** On a realm with [proto_accessor], [Object.prototype] has the accessor
    property [__proto__] (ECMA-262 2015, B.2.2.1), the one accessor of the
    model.  The lookup of that name along a chain ends at the accessor
    when no object before [Object.prototype], nor [Object.prototype]
    itself, has a data property of the name. *)
Fixpoint inherits_accessor (fuel : nat) (h : heap) (start : option loc) : bool :=
  match fuel, start with
  | S f, Some l =>
      match h !! l with
      | Some o =>
          match assoc "__proto__" (o_props o) with
          | Some _ => false
          | None =>
              if bool_decide (l = ObjectPrototype R) then true
              else inherits_accessor f h (o_proto o)
          end
      | None => false
      end
  | _, _ => false
  end.

(** The lookup of [k] from the object [start] finds the accessor. *)
Definition finds_accessor (h : heap) (start : loc) (k : string) : bool :=
  bool_decide (k = "__proto__") && proto_accessor R
  && inherits_accessor (chain_fuel h) h (Some start).

Definition value_of_proto (p : option loc) : value :=
  match p with
  | Some l => VObject l
  | None => VNull
  end.

(** [[Get]] of [k] along the chain from [start]: the getter of the
    accessor returns [link], the prototype of the receiver. *)
Definition get_through (h : heap) (start : loc) (link : value) (k : string) : value :=
  if finds_accessor h start k then link else get h start k.

(** [v[k]] read as a value (GetV): a primitive is looked up through the
    prototype of its wrapper, a string has its characters and length. *)
Definition getv (v : value) (k : string) : M value :=
  fun h =>
    match v with
    | VUndefined | VNull => (Throw TypeError, h)
    | VBool _ =>
        (Ret (get_through h (BooleanPrototype R) (VObject (BooleanPrototype R)) k), h)
    | VNumber _ =>
        (Ret (get_through h (NumberPrototype R) (VObject (NumberPrototype R)) k), h)
    | VString s =>
        match assoc k (string_props s) with
        | Some p => (Ret (p_value p), h)
        | None =>
            (Ret (get_through h (StringPrototype R) (VObject (StringPrototype R)) k), h)
        end
    | VObject l => (Ret (get_through h l (value_of_proto (proto_of h l)) k), h)
    end.

(** *** Operators and statements *)

Definition typeof (h : heap) (v : value) : string :=
  match v with
  | VUndefined => "undefined"
  | VNull => "object"
  | VBool _ => "boolean"
  | VNumber _ => "number"
  | VString _ => "string"
  | VObject l =>
      match h !! l with
      | Some o => match o_call o with Some _ => "function" | None => "object" end
      | None => "object"
      end
  end.

Definition ToBoolean (v : value) : bool :=
  match v with
  | VUndefined | VNull => false
  | VBool b => b
  | VNumber n => negb (n =? 0)%Z
  | VString s => negb (bool_decide (s = EmptyString))
  | VObject _ => true
  end.

(** [v == null]. *)
Definition is_nullish (v : value) : bool :=
  match v with
  | VUndefined | VNull => true
  | _ => false
  end.

(** [v === w]. *)
Definition strict_equal (v w : value) : bool := bool_decide (v = w).

(** [k in v]: a TypeError unless [v] is an object. *)
Definition in_operator (k : string) (v : value) : M bool :=
  fun h =>
    match v with
    | VObject l => (Ret (has_property h l k), h)
    | _ => (Throw TypeError, h)
    end.

Definition with_props (o : object) (props : list (string * data_property)) : object :=
  MkObject (o_proto o) (o_extensible o) (o_call o) props.

(** Whether [l] lies on the chain that starts at [start]. *)
Fixpoint on_chain (fuel : nat) (h : heap) (start : option loc) (l : loc) : bool :=
  match fuel, start with
  | S f, Some p =>
      if bool_decide (p = l) then true
      else match h !! p with
           | Some o => on_chain f h (o_proto o) l
           | None => false
           end
  | _, _ => false
  end.

(** [[SetPrototypeOf]] of an ordinary object, a TypeError when it
    reports failure: the object is not extensible, the new chain would be
    circular, or the object is [Object.prototype], whose prototype cannot
    be changed (ECMA-262 2017, 9.4.7). *)
Definition set_proto (l : loc) (p : option loc) : M unit :=
  fun h =>
    match h !! l with
    | None => (Unmodelled, h)
    | Some o =>
        if bool_decide (o_proto o = p) then (Ret tt, h)
        else if negb (o_extensible o) then (Throw TypeError, h)
        else if bool_decide (l = ObjectPrototype R) then (Throw TypeError, h)
        else if on_chain (chain_fuel h) h p l then (Throw TypeError, h)
        else (Ret tt, <[l := MkObject p (o_extensible o) (o_call o) (o_props o)]> h)
    end.

(** The setter of the accessor, called on the object [l]: a value that is
    neither an object nor [null] is ignored. *)
Definition set_link (l : loc) (x : value) : M unit :=
  match x with
  | VObject q => set_proto l (Some q)
  | VNull => set_proto l None
  | _ => ret tt
  end.

(** [[Set]] of a data property on an object that is its own receiver, as
    strict code runs it: an own property is overwritten when it is
    writable; otherwise a new own property is created, unless the chain
    holds a read-only property of that name or the object is not
    extensible.  Every failure is a TypeError and leaves the heap as it
    was. *)
Definition set_data (l : loc) (k : string) (x : value) : M unit :=
  fun h =>
    match h !! l with
    | None => (Unmodelled, h)
    | Some o =>
        match assoc k (o_props o) with
        | Some q =>
            if p_writable q
            then (Ret tt,
                  <[l := with_props o
                           (update k (MkProp x true (p_enumerable q) (p_configurable q))
                              (o_props o))]> h)
            else (Throw TypeError, h)
        | None =>
            let create :=
              if o_extensible o
              then (Ret tt, <[l := with_props o (o_props o ++ [(k, data x)])]> h)
              else (Throw TypeError, h) in
            match find_prop_from (chain_fuel h) h (o_proto o) k with
            | Some p => if p_writable p then create else (Throw TypeError, h)
            | None => create
            end
        end
    end.

(** [[Set]] on an object that is its own receiver: where the lookup of the
    key finds the accessor, its setter runs and no property is created. *)
Definition set_own (l : loc) (k : string) (x : value) : M unit :=
  fun h => if finds_accessor h l k then set_link l x h else set_data l k x h.

(** The assignment on a primitive whose wrapper inherits from [start]: the
    setter of the accessor ignores a receiver that is not an object; any
    other assignment fails, which is a TypeError in strict code. *)
Definition put_primitive (start : loc) (k : string) : M unit :=
  fun h => if finds_accessor h start k then (Ret tt, h) else (Throw TypeError, h).

(** The statement [v[k] = x] of strict code. *)
Definition putv (v : value) (k : string) (x : value) : M unit :=
  match v with
  | VObject l => set_own l k x
  | VUndefined | VNull => throw TypeError
  | VBool _ => put_primitive (BooleanPrototype R) k
  | VNumber _ => put_primitive (NumberPrototype R) k
  | VString _ => put_primitive (StringPrototype R) k
  end.

(** HasOwnProperty of ToObject(v), without keeping the wrapper. *)
Definition has_own (h : heap) (v : value) (k : string) : bool :=
  match v with
  | VObject l => bool_decide (is_Some (own_prop h l k))
  | VString s => bool_decide (is_Some (assoc k (string_props s)))
  | _ => false
  end.

(** The method call [v.hasOwnProperty(k)]: the property is looked up on
    [v] and whatever it holds is called. *)
Definition call_hasOwnProperty (v : value) (k : string) : M value :=
  let* f := getv v "hasOwnProperty" in
  fun h =>
    match f with
    | VObject fl =>
        match h !! fl with
        | Some fo =>
            match o_call fo with
            | Some Builtin_hasOwnProperty => (Ret (VBool (has_own h v k)), h)
            | Some OtherCode => (Unmodelled, h)
            | None => (Throw TypeError, h)
            end
        | None => (Unmodelled, h)
        end
    | _ => (Throw TypeError, h)
    end.

(** [new F()] for a function [F] with an empty body: the new object's
    prototype is [F.prototype] when that is an object, and the realm's
    [Object.prototype] otherwise. *)
Definition construct_empty (F : loc) : M value :=
  let* p := getv (VObject F) "prototype" in
  let proto := match p with VObject pl => pl | _ => ObjectPrototype R end in
  let* l := alloc (ordinary (Some proto) []) in
  ret (VObject l).

(** The keys a [for (k in v)] loop visits. *)
Definition for_in_keys (h : heap) (v : value) : list string :=
  match v with
  | VUndefined | VNull => []
  | VBool _ => for_in_from (chain_fuel h) h (Some (BooleanPrototype R)) []
  | VNumber _ => for_in_from (chain_fuel h) h (Some (NumberPrototype R)) []
  | VString s =>
      enumerable_new (string_props s) []
        ++ for_in_from (chain_fuel h) h (Some (StringPrototype R)) (string_props s).*1
  | VObject l => for_in_from (chain_fuel h) h (Some l) []
  end.

End Realm.

End JS.

(** ** The host's built-in functions *)

Module Native.
Import JS.

(** A property descriptor as ToPropertyDescriptor reads it: every field is
    optional.  Descriptors with [get] or [set] are accessor descriptors,
    which the model does not apply. *)
Record descriptor := MkDescriptor {
  d_value : option value;
  d_writable : option bool;
  d_enumerable : option bool;
  d_configurable : option bool
}.

Definition field (h : heap) (l : loc) (k : string) : option value :=
  if has_property h l k then Some (get h l k) else None.

Definition is_callable (h : heap) (v : value) : bool :=
  bool_decide (typeof h v = "function").

Definition accessor_ok (h : heap) (f : option value) : bool :=
  match f with
  | Some v => is_callable h v || bool_decide (v = VUndefined)
  | None => true
  end.

Definition ToPropertyDescriptor (v : value) : M descriptor :=
  fun h =>
    match v with
    | VObject l =>
        let g := field h l "get" in
        let s := field h l "set" in
        let val := field h l "value" in
        let w := field h l "writable" in
        if negb (accessor_ok h g && accessor_ok h s) then (Throw TypeError, h)
        else if bool_decide (is_Some g \/ is_Some s) then
          if bool_decide (is_Some val \/ is_Some w) then (Throw TypeError, h)
          else (Unmodelled, h)
        else
          (Ret (MkDescriptor val (ToBoolean <$> w)
                  (ToBoolean <$> field h l "enumerable")
                  (ToBoolean <$> field h l "configurable")), h)
    | _ => (Throw TypeError, h)
    end.

(** The property a descriptor creates on an object that lacks it. *)
Definition fresh_prop (d : descriptor) : data_property :=
  MkProp (default VUndefined (d_value d)) (default false (d_writable d))
         (default false (d_enumerable d)) (default false (d_configurable d)).

(** The property a descriptor leaves when it is applied to [c]. *)
Definition apply_desc (d : descriptor) (c : data_property) : data_property :=
  MkProp (default (p_value c) (d_value d)) (default (p_writable c) (d_writable d))
         (default (p_enumerable c) (d_enumerable d))
         (default (p_configurable c) (d_configurable d)).

(** The validation half of ValidateAndApplyPropertyDescriptor for an
    existing data property [c]. *)
Definition desc_allowed (d : descriptor) (c : data_property) : bool :=
  if p_configurable c then true
  else
    negb (bool_decide (d_configurable d = Some true))
    && bool_decide (d_enumerable d = None \/ d_enumerable d = Some (p_enumerable c))
    && (p_writable c
        || (negb (bool_decide (d_writable d = Some true))
            && bool_decide (d_value d = None \/ d_value d = Some (p_value c)))).

(** DefinePropertyOrThrow on an ordinary object. *)
Definition define_own (l : loc) (k : string) (d : descriptor) : M unit :=
  fun h =>
    match h !! l with
    | None => (Unmodelled, h)
    | Some o =>
        match assoc k (o_props o) with
        | None =>
            if o_extensible o
            then (Ret tt, <[l := with_props o (o_props o ++ [(k, fresh_prop d)])]> h)
            else (Throw TypeError, h)
        | Some c =>
            if desc_allowed d c
            then (Ret tt, <[l := with_props o (update k (apply_desc d c) (o_props o))]> h)
            else (Throw TypeError, h)
        end
    end.

Section Realm.
Variable R : realm.

(** [Object.defineProperty(O, P, Attributes)]. *)
Definition Object_defineProperty (O : value) (P : string) (Attributes : value)
  : M value :=
  match O with
  | VObject l =>
      let* d := ToPropertyDescriptor Attributes in
      define_own l P d ;;
      ret O
  | _ => throw TypeError
  end.

(** FromPropertyDescriptor. *)
Definition FromPropertyDescriptor (p : option data_property) : M value :=
  match p with
  | None => ret VUndefined
  | Some c =>
      literal R [("value", p_value c); ("writable", VBool (p_writable c));
                 ("enumerable", VBool (p_enumerable c));
                 ("configurable", VBool (p_configurable c))]
  end.

(** [Object.getOwnPropertyDescriptor(O, P)]. *)
Definition Object_getOwnPropertyDescriptor (O : value) (P : string) : M value :=
  let* l := ToObject R O in
  let* p := lift (fun h => Ret (own_prop h l P)) in
  FromPropertyDescriptor p.

(** [Object.getPrototypeOf(O)]. *)
Definition Object_getPrototypeOf (O : value) : M value :=
  let* l := ToObject R O in
  lift (fun h => Ret (value_of_proto (proto_of h l))).

(** [Object.create(O)], the one-argument call the module makes. *)
Definition Object_create (O : value) : M value :=
  match O with
  | VObject p => let* l := alloc (ordinary (Some p) []) in ret (VObject l)
  | VNull => let* l := alloc (ordinary None []) in ret (VObject l)
  | _ => throw TypeError
  end.

(** [Object.setPrototypeOf(O, proto)]. *)
Definition Object_setPrototypeOf (O proto : value) : M value :=
  if is_nullish O then throw TypeError
  else
    match proto with
    | VObject _ | VNull =>
        match O with
        | VObject l =>
            set_proto R l (match proto with VObject p => Some p | _ => None end) ;;
            ret O
        | _ => ret O
        end
    | _ => throw TypeError
    end.

(** One source of [Object.assign]: its own enumerable properties, in key
    order, are read and assigned to [to]. *)
Definition assign_from (to : loc) (nextSource : value) : M unit :=
  if is_nullish nextSource then ret tt
  else
    let* from := ToObject R nextSource in
    let* keys := lift (fun h => Ret (default [] (o_props <$> h !! from)).*1) in
    for_each
      (fun nextKey =>
         let* desc := lift (fun h => Ret (own_prop h from nextKey)) in
         match desc with
         | Some p =>
             if p_enumerable p
             then let* propValue := getv R (VObject from) nextKey in
                  set_own R to nextKey propValue
             else ret tt
         | None => ret tt
         end)
      keys.

(** [Object.assign(target, ...sources)]. *)
Definition Object_assign (target : value) (sources : list value) : M value :=
  let* to := ToObject R target in
  for_each (assign_from to) sources ;;
  ret (VObject to).

End Realm.

End Native.

(** ** The module [instance] *)

Module Instance.
Import JS Native.

(** What the host offers.  [Object.defineProperty] may be missing, present
    but throwing on ordinary objects, or working. *)
Inductive support := Absent | Broken | Working.

#[global] Instance support_eq_dec : EqDecision support.
Proof. solve_decision. Defined.

Record host := MkHost {
  host_realm : realm;
  Object_assign_defined : bool;
  Object_create_defined : bool;
  Object_defineProperty_support : support;
  Object_getOwnPropertyDescriptor_defined : bool;
  Object_getPrototypeOf_defined : bool;
  Object_setPrototypeOf_defined : bool;
  (** the bindings of the global scope, where free identifiers resolve *)
  globals : list (string * value)
}.

(** [typeof ''.__proto__ === 'object']: the string's wrapper inherits the
    accessor from [Object.prototype] on the hosts that have it, and reads
    [undefined] on the others. *)
Definition proto_link (H : host) : bool := proto_accessor (host_realm H).

(** The variables [factory] closes over. *)
Record env := MkEnv {
  DP_IS_OKAY : bool;
  PROTO : bool;
  PrototypalIntermediate : loc
}.

Section Host.
Variable H : host.
Let R := host_realm H.

(** A free identifier read in strict code. *)
Definition resolve (x : string) : M value :=
  match assoc x (globals H) with
  | Some v => ret v
  | None => throw ReferenceError
  end.

(** The call [Object.defineProperty(o, name, d)] on the host. *)
Definition host_defineProperty (o : value) (name : string) (d : value) : M value :=
  match Object_defineProperty_support H with
  | Working => Object_defineProperty o name d
  | Broken | Absent => throw TypeError
  end.

(** [try { m } catch (error) { handler }] *)
Definition try_catch {A} (m : M A) (handler : M A) : M A :=
  fun h =>
    match m h with
    | (Throw _, h') => handler h'
    | r => r
    end.

(** The declaration [function PrototypalIntermediate() {}]: a function
    object and its initial [prototype] object. *)
Definition declare_function : M loc :=
  fun h =>
    let F := length h in
    let P := S F in
    (Ret F,
     h ++ [MkObject (Some (FunctionPrototype R)) true (Some OtherCode)
             [("prototype", MkProp (VObject P) true false false)];
           MkObject (Some (ObjectPrototype R)) true None
             [("constructor", MkProp (VObject F) true false true)]]).

(** The body of [factory] up to the definitions of the functions. *)
Definition factory : M env :=
  let* PI := declare_function in
  let* ok :=
    try_catch
      (let* o := literal R [] in
       let* d := literal R [("value", VNumber 0)] in
       host_defineProperty o "0" d ;;
       ret true)
      (ret false) in
  ret (MkEnv ok (proto_link H) PI).

Variable E : env.

(** *** assign *)

(** The function on the right of [Object.assign ||].  [sources] are the
    arguments after the first. *)
Definition assign_shim (object : value) (sources : list value) : M value :=
  if is_nullish object then throw TypeError
  else
    let* output := Object_call R object in
    for_each
      (fun argument =>
         let* source := Object_call R argument in
         let* keys := lift (fun h => Ret (for_in_keys R h source)) in
         for_each
           (fun property =>
              let* own := call_hasOwnProperty R source property in
              if ToBoolean own
              then let* v := getv R source property in
                   putv R object property v
              else ret tt)
           keys)
      sources ;;
    ret output.

Definition assign (object : value) (sources : list value) : M value :=
  if Object_assign_defined H then Object_assign R object sources
  else assign_shim object sources.

(** *** defaults *)

(** The loop body reads and writes the free identifier [target]. *)
Definition defaults (object : value) (sources : list value) : M value :=
  if is_nullish object then throw TypeError
  else
    let* output := Object_call R object in
    for_each
      (fun source =>
         let* keys := lift (fun h => Ret (for_in_keys R h source)) in
         for_each
           (fun key =>
              let* target := resolve "target" in
              let* current := getv R target key in
              if strict_equal current VUndefined
              then let* target := resolve "target" in
                   let* v := getv R source key in
                   putv R target key v
              else ret tt)
           keys)
      sources ;;
    ret output.

(** *** property, defineProperty, defineProperties *)

(** The function on the right of [DP_IS_OKAY && Object.defineProperty ||]. *)
Definition property_fallback (object : value) (name : string) (descriptor : value)
  : M value :=
  if negb (ToBoolean object) then throw TypeError
  else
    let* ty := lift (fun h => Ret (typeof h object)) in
    if negb (bool_decide (ty = "object")) then throw TypeError
    else
      let* v := getv R descriptor "value" in
      putv R object name v ;;
      ret object.

Definition property (object : value) (name : string) (descriptor : value) : M value :=
  if DP_IS_OKAY E
     && negb (bool_decide (Object_defineProperty_support H = Absent))
  then host_defineProperty object name descriptor
  else property_fallback object name descriptor.

(** [v != null && 'value' in v || 'get' in v || 'set' in v ||
     'writable' in v || 'configurable' in v || 'enumerable' in v]:
    [&&] binds tighter than [||], so the null test guards the first
    [in] only. *)
Definition isDescriptor (v : value) : M bool :=
  let* b := (if negb (is_nullish v) then in_operator "value" v else ret false) in
  if b then ret true else
  let* b := in_operator "get" v in
  if b then ret true else
  let* b := in_operator "set" v in
  if b then ret true else
  let* b := in_operator "writable" v in
  if b then ret true else
  let* b := in_operator "configurable" v in
  if b then ret true else
  in_operator "enumerable" v.

Definition defineProperty (object : value) (name : string) (descriptor : value)
  : M value :=
  let* ty := lift (fun h => Ret (typeof h descriptor)) in
  let* full :=
    (if bool_decide (ty = "object") then isDescriptor descriptor else ret false) in
  if full then property object name descriptor
  else
    let* d := literal R [("value", descriptor)] in
    property object name d.

Definition defineProperties (object descriptors : value) : M value :=
  let* names := lift (fun h => Ret (for_in_keys R h descriptors)) in
  for_each
    (fun name =>
       let* d := getv R descriptors name in
       defineProperty object name d ;;
       ret tt)
    names ;;
  ret object.

(** *** create *)

Definition create (prototype descriptors : value) : M value :=
  let* object :=
    (if Object_create_defined H then Object_create prototype
     else
       putv R (VObject (PrototypalIntermediate E)) "prototype" prototype ;;
       construct_empty R (PrototypalIntermediate E)) in
  if ToBoolean descriptors then defineProperties object descriptors
  else ret object.

(** *** getOwnPropertyDescriptor *)

Definition getOwnPropertyDescriptor_fallback (object : value) (name : string)
  : M value :=
  let* own := call_hasOwnProperty R object name in
  if ToBoolean own
  then let* v := getv R object name in
       literal R [("value", v)]
  else ret VUndefined.

Definition getOwnPropertyDescriptor (object : value) (name : string) : M value :=
  if DP_IS_OKAY E && Object_getOwnPropertyDescriptor_defined H
  then Object_getOwnPropertyDescriptor R object name
  else getOwnPropertyDescriptor_fallback object name.

(** *** getPrototypeOf, setPrototypeOf *)

Definition getPrototypeOf (object : value) : M value :=
  if Object_getPrototypeOf_defined H then Object_getPrototypeOf R object
  else if PROTO E then getv R object "__proto__"
  else
    let* c := getv R object "constructor" in
    getv R c "prototype".

(** In the last function the parameter is spelled [prototypt]; the
    [prototype] that is assigned is a free identifier. *)
Definition setPrototypeOf (object prototype : value) : M value :=
  if Object_setPrototypeOf_defined H then Object_setPrototypeOf R object prototype
  else if PROTO E then
    putv R object "__proto__" prototype ;;
    ret prototype
  else
    let prototypt := prototype in
    let* c := getv R object "constructor" in
    (if is_nullish c then throw TypeError else ret tt) ;;
    let* prototype := resolve "prototype" in
    putv R c "prototype" prototype ;;
    ret prototype.

(** *** The terse alias [proto] *)

(** [proto] looks at the free identifier [agruments]. *)
Definition proto (arguments : list value) : M value :=
  let object := nth 0 arguments VUndefined in
  let prototype := nth 1 arguments VUndefined in
  let* agruments := resolve "agruments" in
  let* n := getv R agruments "length" in
  if strict_equal n (VNumber 2) then setPrototypeOf object prototype
  else getPrototypeOf object.

End Host.

End Instance.

(** ** The rest of the module: own property names and the aliases *)

Module Rest.
Import JS Native Instance.

(** The own keys of an object, each once, in the order of the property
    list. *)
Definition own_keys (o : object) : list string := remove_dups (o_props o).*1.

(** The own enumerable keys of an object. *)
Definition own_enumerable_keys (o : object) : list string :=
  enumerable_new (o_props o) [].

Definition keys_of (select : object -> list string) (l : loc) : M (list string) :=
  fun h =>
    match h !! l with
    | Some o => (Ret (select o), h)
    | None => (Unmodelled, h)
    end.

(** The two built-ins [getOwnPropertyNames] may call, and whether the
    host has them. *)
Record keys_support := MkKeys {
  Object_getOwnPropertyNames_defined : bool;
  Object_keys_defined : bool
}.

Section Host.
Variable H : host.
Variable E : env.
Variable K : keys_support.
Let R := host_realm H.

(** [Object.getOwnPropertyNames(O)]. *)
Definition Object_getOwnPropertyNames (O : value) : M (list string) :=
  let* l := ToObject R O in
  keys_of own_keys l.

(** [Object.keys(O)]. *)
Definition Object_keys (O : value) : M (list string) :=
  let* l := ToObject R O in
  keys_of own_enumerable_keys l.

(** The function on the right of
    [DP_IS_OKAY && Object.getOwnPropertyNames ||]: it calls [Object.keys],
    which is a TypeError where the host has none. *)
Definition getOwnPropertyNames_fallback (object : value) : M (list string) :=
  if Object_keys_defined K then Object_keys object else throw TypeError.

Definition getOwnPropertyNames (object : value) : M (list string) :=
  if DP_IS_OKAY E && Object_getOwnPropertyNames_defined K
  then Object_getOwnPropertyNames object
  else getOwnPropertyNames_fallback object.

(** [props: defineProperties] and [names: getOwnPropertyNames]. *)
Definition props : value -> value -> M value := defineProperties H E.

Definition names : value -> M (list string) := getOwnPropertyNames.

(** [prop(object, name, ...rest)]: [arguments.length === 3] holds when
    exactly one argument follows [name]. *)
Definition prop (object : value) (name : string) (rest : list value) : M value :=
  let descriptor := nth 0 rest VUndefined in
  if bool_decide (2 + length rest = 3) then
    defineProperty H E object name descriptor ;;
    ret object
  else getOwnPropertyDescriptor H E object name.

End Host.

End Rest.

(** ** Concrete hosts and heaps *)

Module Examples.
Import JS Native Instance.

(** A realm as a host sets it up: [Object.prototype] at 0 with the
    built-in [hasOwnProperty] (2) and [constructor] (3, the function
    [Object]), [Function.prototype] at 1, and the prototypes of the
    wrappers at 4, 5 and 6; without the accessor [__proto__], and with
    it. *)
Definition R0 : realm := MkRealm 0 1 4 5 6 false.

Definition R0_link : realm := MkRealm 0 1 4 5 6 true.

Definition hidden (v : value) : data_property := MkProp v true false true.

Definition h0 : heap :=
  [ MkObject None true None
      [("constructor", hidden (VObject 3)); ("hasOwnProperty", hidden (VObject 2))];
    MkObject (Some 0) true (Some OtherCode) [];
    MkObject (Some 1) true (Some Builtin_hasOwnProperty) [];
    MkObject (Some 1) true (Some OtherCode)
      [("prototype", MkProp (VObject 0) false false false)];
    MkObject (Some 0) true None [];
    MkObject (Some 0) true None [];
    MkObject (Some 0) true None [] ].

(** A host with none of the built-ins and no [__proto__]. *)
Definition legacy : host := MkHost R0 false false Absent false false false [].

(** A host with none of the built-ins but with [__proto__]. *)
Definition legacy_link : host :=
  MkHost R0_link false false Absent false false false [].

(** A host with all of them. *)
Definition modern : host := MkHost R0_link true true Working true true true [].

(** The heap and the closure variables after [factory] has run. *)
Definition after_factory (H : host) : outcome env * heap := factory H h0.

Definition env_of (H : host) : env :=
  match after_factory H with
  | (Ret E, _) => E
  | _ => MkEnv false false 0
  end.

Definition heap_of (H : host) : heap := (after_factory H).2.

(** [{a: 1}] and [{a: 2, b: 2}] allocated on a heap. *)
Definition with_a1_a2b2 (h : heap) : heap :=
  h ++ [ordinary (Some 0) [("a", data (VNumber 1))];
        ordinary (Some 0) [("a", data (VNumber 2)); ("b", data (VNumber 2))]].

(** [{value: 5, enumerable: false}] allocated on a heap. *)
Definition with_descriptor (h : heap) : heap :=
  h ++ [ordinary (Some 0)
          [("value", data (VNumber 5)); ("enumerable", data (VBool false))]].

(** A function that carries properties named like descriptor fields,
    allocated on a heap. *)
Definition with_function (h : heap) : heap :=
  h ++ [MkObject (Some 1) true (Some OtherCode)
          [("value", data (VNumber 7)); ("get", data VUndefined);
           ("enumerable", data (VBool true))]].

(** A prototype [{inh: 7}], an object [{own: 3}] that inherits from it
    and a target [{own: 0}], allocated on a heap. *)
Definition with_inherited (h : heap) : heap :=
  h ++ [ordinary (Some 0) [("inh", data (VNumber 7))];
        ordinary (Some (length h)) [("own", data (VNumber 3))];
        ordinary (Some 0) [("own", data (VNumber 0))]].

End Examples.

Import JS Native Instance.

(** ** More hosts and heaps *)

Module MoreExamples.
Import JS Native Instance Examples.

(** The host without the built-ins, with a global variable [target] bound
    to the object at 4. *)
Definition legacy_with_target : host :=
  MkHost R0 false false Absent false false false [("target", VObject 4)].

Definition keys_only : Rest.keys_support := Rest.MkKeys false true.


(** An object with a read-only property [x], allocated on a heap. *)
Definition with_readonly (h : heap) : heap :=
  h ++ [ordinary (Some 0) [("x", MkProp (VNumber 0) false true true)]].

(** A host with [Object.create] and [__proto__], without
    [Object.getPrototypeOf]. *)
Definition create_only : host :=
  MkHost R0_link false true Absent false false false [].

(** An object without prototype and without properties, allocated on a
    heap. *)
Definition with_bare (h : heap) : heap := h ++ [ordinary None []].

(** The object [{x: 1}], allocated on a heap. *)
Definition with_x (h : heap) : heap :=
  h ++ [ordinary (Some 0) [("x", data (VNumber 1))]].

(** An object with an own enumerable data property [__proto__] that holds
    the object at 4, as [JSON.parse] makes one, allocated on a heap. *)
Definition with_proto_key (h : heap) : heap :=
  h ++ [ordinary (Some 0) [("__proto__", data (VObject 4))]].

(** A target [{}] and the map [{a: 1, b: 2}], allocated on a heap. *)
Definition with_map (h : heap) : heap :=
  h ++ [ordinary (Some 0) [];
        ordinary (Some 0) [("a", data (VNumber 1)); ("b", data (VNumber 2))]].

End MoreExamples.

(** ** The vocabulary of the statements *)

(** [writes l k h h']: [h'] is [h] with the own properties of [l] changed
    at the key [k] only, where [l] has a property afterwards. *)
Definition writes (l : loc) (k : string) (h h' : heap) : Prop :=
  exists o props',
    h !! l = Some o
    /\ h' = <[l := with_props o props']> h
    /\ (forall k', k' <> k -> assoc k' props' = assoc k' (o_props o))
    /\ is_Some (assoc k props').

(** The keys [isDescriptor] looks for. *)
Definition descriptor_keys : list string :=
  ["value"; "get"; "set"; "writable"; "configurable"; "enumerable"].

(** The values [defineProperty] passes on as they are: objects, not
    functions, on which one of the keys is found, own or inherited. *)
Definition is_full_descriptor (h : heap) (v : value) : bool :=
  match v with
  | VObject l =>
      bool_decide (typeof h v = "object") && existsb (has_property h l) descriptor_keys
  | _ => false
  end.

(** On this realm an assignment to the key is an ordinary one: the key is
    not [__proto__], or [Object.prototype] has no such accessor. *)
Definition ordinary_key (R : realm) (k : string) : bool :=
  negb (bool_decide (k = "__proto__") && proto_accessor R).

(** Which function [property] is. *)
Definition native_property (H : host) (E : env) : bool :=
  DP_IS_OKAY E && negb (bool_decide (Object_defineProperty_support H = Absent)).

(** Defining [name] writes an own property of that name: [property] is
    the native function, or the assignment the module's function makes is
    an ordinary one. *)
Definition defines_own (H : host) (E : env) (name : string) : bool :=
  native_property H E || ordinary_key (host_realm H) name.

(** Which function [getOwnPropertyDescriptor] is. *)
Definition native_descriptor_read (H : host) (E : env) : bool :=
  DP_IS_OKAY E && Object_getOwnPropertyDescriptor_defined H.

(** [l.hasOwnProperty] is the built-in function. *)
Definition calls_builtin_hasOwnProperty (h : heap) (l : loc) : Prop :=
  exists fl fo,
    get h l "hasOwnProperty" = VObject fl
    /\ h !! fl = Some fo
    /\ o_call fo = Some Builtin_hasOwnProperty.

(** The bridging constructor is as [factory] leaves it, or as an earlier
    [create] left it: it has a writable own [prototype]. *)
Definition intermediate_ready (E : env) (h : heap) : Prop :=
  exists q, own_prop h (PrototypalIntermediate E) "prototype" = Some q
            /\ p_writable q = true.

(** [getPrototypeOf(l)] reads the prototype link of [l]: it is the native
    function, or it reads [l.__proto__] and that lookup finds the
    accessor. *)
Definition reads_link (H : host) (E : env) (h : heap) (l : loc) : bool :=
  Object_getPrototypeOf_defined H
  || (PROTO E && finds_accessor (host_realm H) h l "__proto__").

(** [h'] still has the objects of [h], with their prototype links, their
    [[Call]] slots and their properties, those named [k0] apart. *)
Definition keeps_but (k0 : string) (h h' : heap) : Prop :=
  forall l o, h !! l = Some o ->
    exists o', h' !! l = Some o'
      /\ o_proto o' = o_proto o /\ o_call o' = o_call o
      /\ forall k, k <> k0 -> assoc k (o_props o') = assoc k (o_props o).

(** An assignment can create the property [k] on an object whose
    prototype is [start]: the chain from [start] ends, and the first
    property [k] on it, if there is one, is writable. *)
Fixpoint creatable_from (fuel : nat) (h : heap) (start : option loc) (k : string)
  : bool :=
  match start, fuel with
  | None, _ => true
  | Some l, S f =>
      match h !! l with
      | Some o =>
          match assoc k (o_props o) with
          | Some p => p_writable p
          | None => creatable_from f h (o_proto o) k
          end
      | None => false
      end
  | Some _, 0 => false
  end.

(** [Object.prototype] as a host sets it up: it ends the chains, none of
    its properties is enumerable and none has the name of a descriptor
    field. *)
Definition standard_Object_prototype (R : realm) (h : heap) : Prop :=
  exists op,
    h !! ObjectPrototype R = Some op
    /\ o_proto op = None
    /\ Forall (fun kp => p_enumerable kp.2 = false /\ kp.1 ∉ descriptor_keys)
         (o_props op).

(** The prototype link that holds the value [P]. *)
Definition link_of_value (P : value) : option loc :=
  match P with
  | VObject p => Some p
  | _ => None
  end.

(** The first half of [create], up to the test of [descriptors]. *)
Definition create_object (H : host) (E : env) (prototype : value) : M value :=
  if Object_create_defined H then Object_create prototype
  else
    putv (host_realm H) (VObject (PrototypalIntermediate E)) "prototype" prototype ;;
    construct_empty (host_realm H) (PrototypalIntermediate E).

(** [grows_writing l k h h']: some objects are allocated, then the own
    property [k] of [l] is written. *)
Definition grows_writing (l : loc) (k : string) (h h' : heap) : Prop :=
  exists extra, writes l k (h ++ extra) h'.

(** The expression
    [getOwnPropertyDescriptor(create(P, {x: 1}), 'x').value]. *)
Definition create_x_scenario (H : host) (E : env) (P : value) : M value :=
  let* D := literal (host_realm H) [("x", VNumber 1)] in
  let* o := create H E P D in
  let* g := getOwnPropertyDescriptor H E o "x" in
  getv (host_realm H) g "value".

(** A value that refers to an object refers to one of the heap. *)
Definition allocated (h : heap) (v : value) : Prop :=
  match v with
  | VObject l => l < length h
  | _ => True
  end.

(** The own property [k] of [Object(source)]. *)
Definition source_own (h : heap) (source : value) (k : string) : option data_property :=
  match source with
  | VObject l => own_prop h l k
  | VString s => assoc k (string_props s)
  | _ => None
  end.

(** The value of the own enumerable property [k] of [Object(source)]. *)
Definition source_value (h : heap) (source : value) (k : string) : option value :=
  match source_own h source k with
  | Some p => if p_enumerable p then Some (p_value p) else None
  | None => None
  end.

(** The value of [k] in the last source that has it as an own enumerable
    property. *)
Fixpoint last_value (h : heap) (sources : list value) (k : string) : option value :=
  match sources with
  | [] => None
  | source :: rest =>
      match last_value h rest k with
      | Some v => Some v
      | None => source_value h source k
      end
  end.

(** The assignment [l[k] = x] can be made: an own property [k] is
    writable, or there is none, the object is extensible and the property
    [k] it inherits, if any, is writable. *)
Definition assignable (h : heap) (l : loc) (k : string) : bool :=
  match h !! l with
  | Some o =>
      match assoc k (o_props o) with
      | Some q => p_writable q
      | None =>
          o_extensible o
          && match find_prop_from (chain_fuel h) h (o_proto o) k with
             | Some p => p_writable p
             | None => true
             end
      end
  | None => false
  end.

(** One turn of either copy loop: when [from] has the own property [k] and
    the guard accepts it, its value is assigned to [t[k]]. *)
Definition copy_key (R : realm) (guard : data_property -> bool) (t from : loc)
    (k : string) : M unit :=
  fun h =>
    match own_prop h from k with
    | Some p => if guard p then set_own R t k (p_value p) h else (Ret tt, h)
    | None => (Ret tt, h)
    end.

(** What copying one source does to the heap. *)
Definition copied (R : realm) (t : loc) (source : value) (h h' : heap) : Prop :=
  length h <= length h'
  /\ (forall l, l < length h -> l <> t -> h' !! l = h !! l)
  /\ (forall k p, own_prop h t k = Some p ->
        exists p', own_prop h' t k = Some p' /\ p_enumerable p' = p_enumerable p)
  /\ (forall k v, ordinary_key R k = true -> source_value h source k = Some v ->
        exists p', own_prop h' t k = Some p' /\ p_value p' = v)
  /\ (forall k, source_value h source k = None -> own_prop h' t k = own_prop h t k)
  /\ (proto_accessor R = false \/ source_value h source "__proto__" = None ->
      proto_of h' t = proto_of h t).

(** [preserves P m]: whatever [m] does, returning or not, it keeps the
    property [P] of the heap. *)
Definition preserves {A} (P : heap -> Prop) (m : M A) : Prop :=
  forall h r h', m h = (r, h') -> P h -> P h'.

(** A value that is not a reference to an object. *)
Definition is_primitive (v : value) : bool :=
  match v with
  | VObject _ => false
  | _ => true
  end.

(** No source gives a [for-in] loop a key to visit. *)
Definition keyless (R : realm) (h : heap) (sources : list value) : bool :=
  forallb (fun source => bool_decide (for_in_keys R h source = [])) sources.


(** Which function [getOwnPropertyNames] is. *)
Definition native_names (E : env) (K : Rest.keys_support) : bool :=
  DP_IS_OKAY E && Rest.Object_getOwnPropertyNames_defined K.

(** ** Properties *)

(** *** Tactics *)

(** Case analysis on every scrutinee of the goal, outermost first. *)
Ltac case_matches :=
  repeat match goal with
         | |- context [match ?t with _ => _ end] => destruct t
         end.

Ltac case_ifs :=
  repeat match goal with
         | |- context [if ?t then _ else _] => destruct t
         end.

(** *** Steps of a computation *)

Lemma bind_step {A B} (m : M A) (k : A -> M B) h a h' :
  m h = (Ret a, h') -> bind m k h = k a h'.
Proof. intros Hm. unfold bind. by rewrite Hm. Qed.

Lemma bind_Ret_inv {A B} (m : M A) (k : A -> M B) h b h2 :
  bind m k h = (Ret b, h2) ->
  exists a h1, m h = (Ret a, h1) /\ k a h1 = (Ret b, h2).
Proof.
  unfold bind. destruct (m h) as [[a|e|] h1] eqn:Hm; try discriminate.
  intros Hk. by exists a, h1.
Qed.

(** *** assign: the target test comes first *)

(** C3. [assign(null, ...sources)] and [assign(undefined, ...sources)]
    throw a TypeError whatever the sources are, on a host with
    [Object.assign] and on one without, and the heap is the one the call
    started with: no source has been enumerated, nothing was written. *)
Theorem assign_nullish_target_throws (H : host) (sources : list value) (h : heap) :
  assign H VNull sources h = (Throw TypeError, h)
  /\ assign H VUndefined sources h = (Throw TypeError, h).
Proof.
  unfold assign. destruct (Object_assign_defined H); split; reflexivity.
Qed.

(** *** defineProperty: [null] as the third argument *)

(** C4. [defineProperty(object, name, null)] throws a TypeError on every
    host and for every target: [typeof null] is ['object'], and in
    [isDescriptor] the test [v != null] guards ['value' in v] only, so
    ['get' in null] is evaluated.  The property is not defined with the
    descriptor [{value: null}]. *)
Theorem defineProperty_null_throws (H : host) (E : env) (object : value)
    (name : string) (h : heap) :
  defineProperty H E object name VNull h = (Throw TypeError, h).
Proof. reflexivity. Qed.

(** *** proto: the arity test reads a free identifier *)

(** C9. Where the global scope has no binding for [agruments], every call
    of [proto], with one argument or with two, throws a ReferenceError
    before it reads or sets a prototype. *)
Theorem proto_throws_ReferenceError (H : host) (E : env) (arguments : list value)
    (h : heap) :
  assoc "agruments" (globals H) = None ->
  proto H E arguments h = (Throw ReferenceError, h).
Proof.
  intros Hfree. unfold proto, resolve. rewrite Hfree. reflexivity.
Qed.

Lemma proto_throws_ReferenceError_witness :
  proto Examples.modern (Examples.env_of Examples.modern)
        [VObject 4; VNull] (Examples.heap_of Examples.modern)
    = (Throw ReferenceError, Examples.heap_of Examples.modern)
  /\ proto Examples.legacy (Examples.env_of Examples.legacy)
        [VObject 4] (Examples.heap_of Examples.legacy)
    = (Throw ReferenceError, Examples.heap_of Examples.legacy).
Proof.
  split; apply proto_throws_ReferenceError; reflexivity.
Defined.

(** The branch [proto] takes cannot depend on how many arguments the call
    has: a missing second argument and an [undefined] one are the same
    call, on every host. *)
Lemma proto_ignores_arity (H : host) (E : env) (object : value) (h : heap) :
  proto H E [object] h = proto H E [object; VUndefined] h.
Proof. reflexivity. Qed.

(** *** Association lists *)

Lemma assoc_update_eq {A} k (a : A) l :
  is_Some (assoc k l) -> assoc k (update k a l) = Some a.
Proof.
  induction l as [|[k' a'] l IH]; simpl; intros [x Hx]; [discriminate|].
  case_bool_decide; simpl.
  - rewrite bool_decide_true; done.
  - rewrite bool_decide_false by done. apply IH. eauto.
Qed.

Lemma assoc_update_ne {A} k k' (a : A) l :
  k <> k' -> assoc k' (update k a l) = assoc k' l.
Proof.
  intros Hne. induction l as [|[k0 a0] l IH]; simpl; [done|].
  case_bool_decide; simpl.
  - subst k0. rewrite !bool_decide_false; congruence.
  - case_bool_decide; done.
Qed.

Lemma assoc_app_new {A} k (a : A) l :
  assoc k l = None -> assoc k (l ++ [(k, a)]) = Some a.
Proof.
  induction l as [|[k0 a0] l IH]; simpl; intros Hl.
  - rewrite bool_decide_true; done.
  - case_bool_decide; [discriminate|]. by apply IH.
Qed.

Lemma assoc_app_ne {A} k k' (a : A) l :
  k <> k' -> assoc k' (l ++ [(k, a)]) = assoc k' l.
Proof.
  intros Hne. induction l as [|[k0 a0] l IH]; simpl.
  - rewrite bool_decide_false; congruence.
  - case_bool_decide; done.
Qed.

(** *** Reads of own properties *)

Lemma own_prop_lookup h l k p :
  own_prop h l k = Some p ->
  exists o, h !! l = Some o /\ assoc k (o_props o) = Some p.
Proof.
  unfold own_prop. destruct (h !! l) as [o|]; [|discriminate]. eauto.
Qed.

Lemma find_prop_own h l k p :
  own_prop h l k = Some p -> find_prop h l k = Some p.
Proof.
  intros Hown. destruct (own_prop_lookup _ _ _ _ Hown) as (o & Hl & Hk).
  unfold find_prop, chain_fuel.
  destruct h as [|o0 h']; [done|]. simpl length. simpl find_prop_from.
  by rewrite Hl, Hk.
Qed.

Lemma get_own h l k p : own_prop h l k = Some p -> get h l k = p_value p.
Proof. intros Hown. unfold get. by rewrite (find_prop_own _ _ _ _ Hown). Qed.

Lemma has_property_own h l k p : own_prop h l k = Some p -> has_property h l k = true.
Proof. intros Hown. unfold has_property. by rewrite (find_prop_own _ _ _ _ Hown). Qed.

Lemma own_prop_alloc h o l k :
  l < length h -> own_prop (h ++ [o]) l k = own_prop h l k.
Proof. intros Hl. unfold own_prop. by rewrite lookup_app_l. Qed.

Lemma own_prop_alloc_new h o k :
  own_prop (h ++ [o]) (length h) k = assoc k (o_props o).
Proof.
  unfold own_prop. rewrite lookup_app_r by lia.
  by replace (length h - length h) with 0 by lia.
Qed.

(** *** Writes of one own property *)

Lemma writes_length l k h h' : writes l k h h' -> length h' = length h.
Proof. intros (o & ps & _ & -> & _). apply length_insert. Qed.

Lemma writes_other l k h h' l' :
  writes l k h h' -> l' <> l -> h' !! l' = h !! l'.
Proof. intros (o & ps & _ & -> & _) Hne. by apply list_lookup_insert_ne. Qed.

Lemma writes_object l k h h' l' o' :
  writes l k h h' -> h' !! l' = Some o' ->
  exists o, h !! l' = Some o /\ o_proto o' = o_proto o
            /\ o_extensible o' = o_extensible o /\ o_call o' = o_call o
            /\ (l' <> l -> o' = o).
Proof.
  intros (o & ps & Hl & -> & _) Hl'.
  destruct (decide (l' = l)) as [->|Hne].
  - rewrite list_lookup_insert_eq in Hl' by (by eapply lookup_lt_Some).
    injection Hl' as <-. exists o. by repeat split.
  - rewrite list_lookup_insert_ne in Hl' by done. exists o'. by repeat split.
Qed.

Lemma writes_own_prop l k h h' l' k' :
  writes l k h h' -> l' <> l \/ k' <> k -> own_prop h' l' k' = own_prop h l' k'.
Proof.
  intros (o & ps & Hl & -> & Hsame & _) Hne. unfold own_prop.
  destruct (decide (l' = l)) as [->|Hl'].
  - rewrite list_lookup_insert_eq by (by eapply lookup_lt_Some).
    rewrite Hl. simpl. apply Hsame. by destruct Hne.
  - by rewrite list_lookup_insert_ne.
Qed.

Lemma set_data_Ret l k x h u h' :
  set_data l k x h = (Ret u, h') ->
  writes l k h h'
  /\ exists p, own_prop h' l k = Some p /\ p_value p = x
       /\ p_writable p = true
       /\ match own_prop h l k with
          | Some q => p_enumerable p = p_enumerable q
                      /\ p_configurable p = p_configurable q
          | None => p = data x
          end.
Proof.
  unfold set_data, own_prop. destruct (h !! l) as [o|] eqn:Hl; [|discriminate].
  assert (Hlt : l < length h) by (by eapply lookup_lt_Some).
  destruct (assoc k (o_props o)) as [q|] eqn:Hk.
  - destruct (p_writable q); [|discriminate]. intros [= <- <-].
    rewrite list_lookup_insert_eq by done. simpl.
    rewrite assoc_update_eq by eauto. split.
    + exists o, (update k (MkProp x true (p_enumerable q) (p_configurable q)) (o_props o)).
      repeat split; [done| |].
      * intros k' Hne. apply assoc_update_ne. congruence.
      * rewrite assoc_update_eq; eauto.
    + eexists. repeat split.
  - assert (Hcreate :
      (if o_extensible o
       then (Ret tt, <[l:=with_props o (o_props o ++ [(k, data x)])]> h)
       else (Throw TypeError, h)) = (Ret u, h') ->
      writes l k h h' /\
      exists p, match h' !! l with Some o0 => assoc k (o_props o0) | None => None end
                = Some p /\ p_value p = x /\ p_writable p = true /\ p = data x).
    { destruct (o_extensible o); [|discriminate]. intros [= <- <-].
      rewrite list_lookup_insert_eq by done. simpl.
      rewrite assoc_app_new by done. split.
      - exists o, (o_props o ++ [(k, data x)]). repeat split; [done| |].
        + intros k' Hne. apply assoc_app_ne. congruence.
        + rewrite assoc_app_new; eauto.
      - eexists. repeat split. }
    destruct (find_prop_from (chain_fuel h) h (o_proto o) k) as [p|].
    + destruct (p_writable p); [exact Hcreate|discriminate].
    + exact Hcreate.
Qed.

Lemma set_data_Throw l k x h e h' :
  set_data l k x h = (Throw e, h') -> e = TypeError /\ h' = h.
Proof.
  unfold set_data. destruct (h !! l) as [o|]; [|discriminate].
  case_matches; intros [= <- <-]; done.
Qed.

(** An assignment changes the properties of its target at its key, and
    nothing else, however it ends. *)
Lemma set_data_frame l k x h r h' :
  set_data l k x h = (r, h') ->
  length h' = length h
  /\ (forall l', l' <> l -> h' !! l' = h !! l')
  /\ (forall l' k', l' <> l \/ k' <> k -> own_prop h' l' k' = own_prop h l' k')
  /\ (forall l', proto_of h' l' = proto_of h l').
Proof.
  intros Hrun. destruct r as [u|e|].
  - apply set_data_Ret in Hrun as (Hw & _).
    split; [by eapply writes_length|].
    split; [intros l' Hne; by eapply writes_other|].
    split; [intros l' k' Hne; by eapply writes_own_prop|].
    intros l'. unfold proto_of.
    destruct (h' !! l') as [o'|] eqn:Hl'.
    + destruct (writes_object _ _ _ _ _ _ Hw Hl') as (o & -> & -> & _). done.
    + destruct Hw as (o & ps & Hl & -> & _).
      destruct (decide (l' = l)) as [->|Hne].
      * rewrite list_lookup_insert_eq in Hl' by (by eapply lookup_lt_Some).
        discriminate.
      * rewrite list_lookup_insert_ne in Hl' by done. by rewrite Hl'.
  - apply set_data_Throw in Hrun as [_ ->]. done.
  - assert (h' = h) as ->; [|done].
    revert Hrun. unfold set_data. case_matches; by intros [= <-].
Qed.

Lemma assignable_set_data l k x h :
  l < length h ->
  if assignable h l k then exists h', set_data l k x h = (Ret tt, h')
  else set_data l k x h = (Throw TypeError, h).
Proof.
  intros Hl. apply lookup_lt_is_Some in Hl as [o Ho].
  unfold assignable, set_data. rewrite Ho.
  destruct (assoc k (o_props o)) as [q|]; [destruct (p_writable q); eauto|].
  destruct (o_extensible o); simpl.
  - destruct (find_prop_from (chain_fuel h) h (o_proto o) k) as [p|]; [|eauto].
    destruct (p_writable p); eauto.
  - by destruct (find_prop_from (chain_fuel h) h (o_proto o) k) as [[? []]|].
Qed.

(** *** The accessor [__proto__] *)

Lemma finds_accessor_key R h l k : k <> "__proto__" -> finds_accessor R h l k = false.
Proof. intros Hk. unfold finds_accessor. by rewrite bool_decide_false. Qed.

Lemma finds_accessor_ordinary R h l k :
  ordinary_key R k = true -> finds_accessor R h l k = false.
Proof.
  unfold ordinary_key, finds_accessor.
  by destruct (bool_decide (k = "__proto__") && proto_accessor R).
Qed.

Lemma finds_accessor_own R h l k p :
  own_prop h l k = Some p -> finds_accessor R h l k = false.
Proof.
  intros Hown. destruct (own_prop_lookup _ _ _ _ Hown) as (o & Hl & Hk).
  unfold finds_accessor. case_bool_decide as Hkey; [|done]. subst k.
  destruct (proto_accessor R); [|done]. simpl.
  unfold chain_fuel. destruct h as [|o0 h0]; [done|].
  simpl length. simpl inherits_accessor. by rewrite Hl, Hk.
Qed.

Lemma finds_accessor_true R h l k :
  finds_accessor R h l k = true ->
  k = "__proto__" /\ proto_accessor R = true /\ own_prop h l k = None.
Proof.
  intros Hfinds. destruct (own_prop h l k) as [p|] eqn:Hown.
  { by rewrite (finds_accessor_own R _ _ _ _ Hown) in Hfinds. }
  unfold finds_accessor in Hfinds.
  apply andb_true_iff in Hfinds as [[Hk HR]%andb_true_iff _].
  by apply bool_decide_eq_true in Hk.
Qed.

Lemma set_proto_Throw R l p h e h' :
  set_proto R l p h = (Throw e, h') -> e = TypeError /\ h' = h.
Proof.
  unfold set_proto. destruct (h !! l) as [o|]; [|discriminate].
  case_ifs; intros [= <- <-]; done.
Qed.

(** A change of the prototype link changes that link and no property. *)
Lemma set_proto_frame R l p h r h' :
  set_proto R l p h = (r, h') ->
  length h' = length h
  /\ (forall l', l' <> l -> h' !! l' = h !! l')
  /\ (forall l' k', own_prop h' l' k' = own_prop h l' k')
  /\ (forall u, r = Ret u -> proto_of h' l = p).
Proof.
  unfold set_proto, proto_of. destruct (h !! l) as [o|] eqn:Hl;
    [|intros [= <- <-]; by rewrite Hl].
  case_bool_decide as Hsame; [intros [= <- <-]; by rewrite Hl|].
  destruct (o_extensible o); simpl; [|intros [= <- <-]; by rewrite Hl].
  case_bool_decide; [intros [= <- <-]; by rewrite Hl|].
  destruct (on_chain (chain_fuel h) h p l); intros [= <- <-]; [by rewrite Hl|].
  assert (Hlt : l < length h) by (by eapply lookup_lt_Some).
  split; [by rewrite length_insert|].
  split; [intros l' Hne; by rewrite list_lookup_insert_ne|].
  split.
  - intros l' k'. unfold own_prop. destruct (decide (l' = l)) as [->|Hne].
    + by rewrite list_lookup_insert_eq, Hl.
    + by rewrite list_lookup_insert_ne.
  - intros _ _. by rewrite list_lookup_insert_eq.
Qed.

Lemma set_link_Throw R l x h e h' :
  set_link R l x h = (Throw e, h') -> e = TypeError /\ h' = h.
Proof. destruct x; try discriminate; apply set_proto_Throw. Qed.

Lemma set_link_frame R l x h r h' :
  set_link R l x h = (r, h') ->
  length h' = length h
  /\ (forall l', l' <> l -> h' !! l' = h !! l')
  /\ (forall l' k', own_prop h' l' k' = own_prop h l' k').
Proof.
  destruct x; try (intros [= _ <-]; done); intros Hrun;
    by apply set_proto_frame in Hrun as (? & ? & ? & _).
Qed.

Lemma set_link_primitive R l x h :
  is_primitive x = true -> x <> VNull -> set_link R l x h = (Ret tt, h).
Proof. by destruct x. Qed.

Lemma set_own_plain R l k x h :
  finds_accessor R h l k = false -> set_own R l k x h = set_data l k x h.
Proof. intros Hf. unfold set_own. by rewrite Hf. Qed.

Lemma set_own_link R l k x h :
  finds_accessor R h l k = true -> set_own R l k x h = set_link R l x h.
Proof. intros Hf. unfold set_own. by rewrite Hf. Qed.

Lemma set_own_Throw R l k x h e h' :
  set_own R l k x h = (Throw e, h') -> e = TypeError /\ h' = h.
Proof.
  unfold set_own. destruct (finds_accessor R h l k);
    [apply set_link_Throw|apply set_data_Throw].
Qed.

(** However an assignment ends, and whether it writes a property or
    changes the prototype link, it touches its target only, and there no
    property but the one of its key. *)
Lemma set_own_frame R l k x h r h' :
  set_own R l k x h = (r, h') ->
  length h' = length h
  /\ (forall l', l' <> l -> h' !! l' = h !! l')
  /\ (forall l' k', l' <> l \/ k' <> k -> own_prop h' l' k' = own_prop h l' k').
Proof.
  unfold set_own. destruct (finds_accessor R h l k); intros Hrun.
  - apply set_link_frame in Hrun as (? & ? & ?). auto.
  - apply set_data_frame in Hrun as (? & ? & ? & _). auto.
Qed.

Lemma set_own_Ret R l k x h u h' :
  ordinary_key R k = true \/ is_Some (own_prop h l k) ->
  set_own R l k x h = (Ret u, h') ->
  writes l k h h'
  /\ exists p, own_prop h' l k = Some p /\ p_value p = x
       /\ p_writable p = true
       /\ match own_prop h l k with
          | Some q => p_enumerable p = p_enumerable q
                      /\ p_configurable p = p_configurable q
          | None => p = data x
          end.
Proof.
  intros Hplain. rewrite set_own_plain; [apply set_data_Ret|].
  destruct Hplain as [?|[p ?]];
    [by apply finds_accessor_ordinary|by eapply finds_accessor_own].
Qed.

Lemma define_own_Ret l k d h u h' :
  define_own l k d h = (Ret u, h') ->
  writes l k h h'
  /\ exists p, own_prop h' l k = Some p
       /\ p = match own_prop h l k with
              | Some c => apply_desc d c
              | None => fresh_prop d
              end.
Proof.
  unfold define_own, own_prop. destruct (h !! l) as [o|] eqn:Hl; [|discriminate].
  assert (Hlt : l < length h) by (by eapply lookup_lt_Some).
  destruct (assoc k (o_props o)) as [c|] eqn:Hk.
  - destruct (desc_allowed d c); [|discriminate]. intros [= <- <-].
    rewrite list_lookup_insert_eq by done. simpl.
    rewrite assoc_update_eq by eauto. split; [|eauto].
    exists o, (update k (apply_desc d c) (o_props o)). repeat split; [done| |].
    + intros k' Hne. apply assoc_update_ne. congruence.
    + rewrite assoc_update_eq; eauto.
  - destruct (o_extensible o); [|discriminate]. intros [= <- <-].
    rewrite list_lookup_insert_eq by done. simpl.
    rewrite assoc_app_new by done. split; [|eauto].
    exists o, (o_props o ++ [(k, fresh_prop d)]). repeat split; [done| |].
    + intros k' Hne. apply assoc_app_ne. congruence.
    + rewrite assoc_app_new; eauto.
Qed.

Lemma define_own_Throw l k d h e h' :
  define_own l k d h = (Throw e, h') -> e = TypeError /\ h' = h.
Proof.
  unfold define_own. destruct (h !! l) as [o|]; [|discriminate].
  case_matches; intros [= <- <-]; done.
Qed.

(** *** Reads leave the heap alone *)

Lemma getv_heap R v k h r h' : getv R v k h = (r, h') -> h' = h.
Proof.
  unfold getv. destruct v; try (intros [= _ <-]; done).
  destruct (assoc k (string_props s)); intros [= _ <-]; done.
Qed.

Lemma getv_object R l k h :
  finds_accessor R h l k = false -> getv R (VObject l) k h = (Ret (get h l k), h).
Proof. intros Hf. unfold getv, get_through. by rewrite Hf. Qed.

Lemma getv_own R l k p h :
  own_prop h l k = Some p -> getv R (VObject l) k h = (Ret (p_value p), h).
Proof.
  intros Hown. rewrite getv_object by (by eapply finds_accessor_own).
  by rewrite (get_own _ _ _ _ Hown).
Qed.

Lemma put_primitive_run R start k h r h' :
  put_primitive R start k h = (r, h') ->
  h' = h /\ (r = Ret tt \/ r = Throw TypeError)
  /\ (ordinary_key R k = true -> r = Throw TypeError).
Proof.
  unfold put_primitive. intros Hrun.
  destruct (finds_accessor R h start k) eqn:Hf; injection Hrun as <- <-.
  - split; [done|]. split; [by left|]. intros Hk.
    by rewrite (finds_accessor_ordinary _ _ _ _ Hk) in Hf.
  - split; [done|]. split; [by right|done].
Qed.

Lemma putv_Throw R v k x h e h' :
  putv R v k x h = (Throw e, h') -> e = TypeError /\ h' = h.
Proof.
  destruct v; try (intros [= <- <-]; done); simpl;
    try (intros Hrun; apply put_primitive_run in Hrun as (-> & [?|[= ->]] & _); done).
  apply set_own_Throw.
Qed.

(** An assignment [v[k] = x] touches no object but [v], however it ends. *)
Lemma putv_other R v k x t h r h' :
  putv R v k x h = (r, h') -> v <> VObject t ->
  h' !! t = h !! t /\ length h' = length h.
Proof.
  destruct v as [| | | | |l]; simpl;
    try (intros [= _ <-]; done);
    try (intros Hrun _; by apply put_primitive_run in Hrun as (-> & _)).
  intros Hrun Hne. apply set_own_frame in Hrun as (Hlen & Hoth & _).
  split; [|done]. apply Hoth. congruence.
Qed.

(** *** defaults: the loop body reads a free identifier *)

(** C2. Where the global scope has no binding for [target], [defaults]
    on an object throws a ReferenceError as soon as a source has a key to
    visit, and the heap is untouched: nothing is copied.  In particular
    [defaults({a: 1}, {a: 2, b: 2})] does not yield [{a: 1, b: 2}]. *)
Theorem defaults_throws_ReferenceError (H : host) (t : loc) (source : value)
    (rest : list value) (h : heap) :
  assoc "target" (globals H) = None ->
  for_in_keys (host_realm H) h source <> [] ->
  defaults H (VObject t) (source :: rest) h = (Throw ReferenceError, h).
Proof.
  intros Hfree Hkeys. unfold defaults. simpl.
  unfold bind at 1. simpl. unfold bind at 1. simpl.
  unfold bind at 1. unfold bind at 1. simpl.
  destruct (for_in_keys (host_realm H) h source) as [|key keys]; [done|].
  simpl. unfold bind at 1. unfold bind at 1. unfold resolve. by rewrite Hfree.
Qed.

Lemma defaults_throws_ReferenceError_witness :
  let h := Examples.with_a1_a2b2 (Examples.heap_of Examples.legacy) in
  get h 11 "a" = VNumber 1
  /\ for_in_keys Examples.R0 h (VObject 12) = ["a"; "b"]
  /\ defaults Examples.legacy (VObject 11) [VObject 12] h = (Throw ReferenceError, h).
Proof.
  split; [reflexivity|]. split; [reflexivity|].
  apply defaults_throws_ReferenceError; [reflexivity|discriminate].
Defined.

(** *** setPrototypeOf: the last function misspells its parameter *)

(** C8. On a host with neither [Object.setPrototypeOf] nor [__proto__],
    and no global [prototype], [setPrototypeOf] never returns: the right
    side of [object.constructor.prototype = prototype] is a free
    identifier.  For an object with a constructor the outcome is a
    ReferenceError and nothing is assigned. *)
Theorem setPrototypeOf_last_resort_throws (H : host) (E : env)
    (object prototype : value) (h : heap) :
  Object_setPrototypeOf_defined H = false ->
  PROTO E = false ->
  assoc "prototype" (globals H) = None ->
  (forall v h', setPrototypeOf H E object prototype h <> (Ret v, h'))
  /\ (forall c, getv (host_realm H) object "constructor" h = (Ret c, h) ->
                is_nullish c = false ->
                setPrototypeOf H E object prototype h = (Throw ReferenceError, h)).
Proof.
  intros Hnative Hlink Hfree.
  assert (Heq : setPrototypeOf H E object prototype h =
                match getv (host_realm H) object "constructor" h with
                | (Ret c, _) =>
                    if is_nullish c then (Throw TypeError, h)
                    else (Throw ReferenceError, h)
                | (Throw e, _) => (Throw e, h)
                | (Unmodelled, _) => (Unmodelled, h)
                end).
  { unfold setPrototypeOf. rewrite Hnative, Hlink. unfold bind at 1.
    destruct (getv (host_realm H) object "constructor" h) as [[c|e|] h1] eqn:Hc;
      pose proof (getv_heap _ _ _ _ _ _ Hc) as ->; try reflexivity.
    unfold bind at 1. unfold resolve. rewrite Hfree.
    destruct (is_nullish c); reflexivity. }
  rewrite Heq. split.
  - intros v h'.
    destruct (getv (host_realm H) object "constructor" h) as [[c|e|] h1]; try done.
    destruct (is_nullish c); done.
  - intros c -> ->. reflexivity.
Qed.

Lemma setPrototypeOf_last_resort_throws_witness :
  setPrototypeOf Examples.legacy (Examples.env_of Examples.legacy)
      (VObject 4) (VObject 5) (Examples.heap_of Examples.legacy)
    = (Throw ReferenceError, Examples.heap_of Examples.legacy).
Proof.
  apply (setPrototypeOf_last_resort_throws Examples.legacy
           (Examples.env_of Examples.legacy) (VObject 4) (VObject 5)
           (Examples.heap_of Examples.legacy) eq_refl eq_refl eq_refl)
    with (c := VObject 3); reflexivity.
Defined.

(** *** The property setter of a host without [Object.defineProperty] *)

Lemma property_fallback_object (H : host) object name descriptor h :
  ToBoolean object = true -> typeof h object = "object" ->
  property_fallback H object name descriptor h
  = (let* v := getv (host_realm H) descriptor "value" in
     putv (host_realm H) object name v ;; ret object) h.
Proof.
  intros Ht Hty. unfold property_fallback. rewrite Ht. simpl.
  unfold bind at 1. unfold lift. rewrite Hty. reflexivity.
Qed.

Lemma property_fallback_rejects (H : host) object name descriptor h :
  ToBoolean object = false \/ typeof h object <> "object" ->
  property_fallback H object name descriptor h = (Throw TypeError, h).
Proof.
  intros Hbad. unfold property_fallback.
  destruct (ToBoolean object) eqn:Ht; [|reflexivity]. simpl.
  unfold bind at 1. unfold lift.
  destruct Hbad as [Hbad|Hbad]; [discriminate|].
  rewrite bool_decide_false by done. reflexivity.
Qed.

Lemma property_fallback_Throw (H : host) object name descriptor h e h' :
  property_fallback H object name descriptor h = (Throw e, h') ->
  e = TypeError /\ h' = h.
Proof.
  destruct (ToBoolean object) eqn:Ht;
    [|rewrite property_fallback_rejects by auto; intros [= <- <-]; done].
  destruct (decide (typeof h object = "object")) as [Hty|Hty];
    [|rewrite property_fallback_rejects by auto; intros [= <- <-]; done].
  rewrite property_fallback_object by done.
  unfold bind at 1.
  destruct (getv (host_realm H) descriptor "value" h) as [[v|e'|] h1] eqn:Hv;
    pose proof (getv_heap _ _ _ _ _ _ Hv) as ->; [| |discriminate].
  - unfold bind at 1.
    destruct (putv (host_realm H) object name v h) as [[u|e'|] h1] eqn:Hp;
      try discriminate.
    intros [= <- <-]. by eapply putv_Throw.
  - intros [= <- <-]. split; [|done].
    unfold getv in Hv. destruct descriptor; try congruence.
    destruct (assoc "value" (string_props s)); congruence.
Qed.

Lemma property_fallback_Ret (H : host) object name descriptor h r h' :
  property_fallback H object name descriptor h = (Ret r, h') ->
  r = object
  /\ exists l v, object = VObject l
       /\ typeof h object = "object"
       /\ getv (host_realm H) descriptor "value" h = (Ret v, h)
       /\ set_own (host_realm H) l name v h = (Ret tt, h').
Proof.
  destruct (ToBoolean object) eqn:Ht;
    [|rewrite property_fallback_rejects by auto; discriminate].
  destruct (decide (typeof h object = "object")) as [Hty|Hty];
    [|rewrite property_fallback_rejects by auto; discriminate].
  rewrite property_fallback_object by done.
  destruct object as [| | | | |l]; try discriminate.
  intros Hrun. apply bind_Ret_inv in Hrun as (v & h1 & Hv & Hrun).
  pose proof (getv_heap _ _ _ _ _ _ Hv) as ->.
  apply bind_Ret_inv in Hrun as ([] & h2 & Hp & [= <- <-]).
  split; [done|]. by exists l, v.
Qed.

(** The setter on a target that passes its two tests, once the
    descriptor's [value] has been read. *)
Lemma property_fallback_assigns (H : host) l name descriptor v h :
  typeof h (VObject l) = "object" ->
  getv (host_realm H) descriptor "value" h = (Ret v, h) ->
  property_fallback H (VObject l) name descriptor h
  = (set_own (host_realm H) l name v ;; ret (VObject l)) h.
Proof.
  intros Hty Hv. rewrite property_fallback_object by done.
  by rewrite (bind_step _ _ _ _ _ Hv).
Qed.




(** *** The property setter on either path *)

Lemma field_own h l k p : own_prop h l k = Some p -> field h l k = Some (p_value p).
Proof.
  intros Hown. unfold field.
  by rewrite (has_property_own _ _ _ _ Hown), (get_own _ _ _ _ Hown).
Qed.

Lemma ToPropertyDescriptor_heap v h r h' :
  ToPropertyDescriptor v h = (r, h') -> h' = h.
Proof.
  unfold ToPropertyDescriptor. destruct v; try (intros [= _ <-]; done).
  case_ifs; intros [= _ <-]; done.
Qed.

Lemma ToPropertyDescriptor_value h d pv desc h' :
  own_prop h d "value" = Some pv ->
  ToPropertyDescriptor (VObject d) h = (Ret desc, h') ->
  d_value desc = Some (p_value pv).
Proof.
  intros Hown. unfold ToPropertyDescriptor. rewrite (field_own _ _ _ _ Hown).
  case_ifs; intros [= <- _]; done.
Qed.

Lemma host_defineProperty_Ret (H : host) object name d h r h' :
  host_defineProperty H object name d h = (Ret r, h') ->
  r = object
  /\ exists l desc, object = VObject l
       /\ ToPropertyDescriptor d h = (Ret desc, h)
       /\ define_own l name desc h = (Ret tt, h').
Proof.
  unfold host_defineProperty.
  destruct (Object_defineProperty_support H); try discriminate.
  unfold Object_defineProperty. destruct object as [| | | | |l]; try discriminate.
  intros Hrun. apply bind_Ret_inv in Hrun as (desc & h1 & Hd & Hrun).
  pose proof (ToPropertyDescriptor_heap _ _ _ _ Hd) as ->.
  apply bind_Ret_inv in Hrun as ([] & h2 & Hdef & [= <- <-]).
  split; [done|]. by exists l, desc.
Qed.

Lemma host_defineProperty_Throw (H : host) object name d h e h' :
  host_defineProperty H object name d h = (Throw e, h') -> e = TypeError /\ h' = h.
Proof.
  unfold host_defineProperty.
  destruct (Object_defineProperty_support H); try (intros [= <- <-]; done).
  unfold Object_defineProperty.
  destruct object as [| | | | |l]; try (intros [= <- <-]; done).
  unfold bind at 1.
  destruct (ToPropertyDescriptor d h) as [[desc|e'|] h1] eqn:Hd;
    pose proof (ToPropertyDescriptor_heap _ _ _ _ Hd) as ->; [| |discriminate].
  - unfold bind at 1.
    destruct (define_own l name desc h) as [[u|e'|] h1] eqn:Hdef; try discriminate.
    intros [= <- <-]. by eapply define_own_Throw.
  - intros [= <- <-]. split; [|done].
    unfold ToPropertyDescriptor in Hd. destruct d; try congruence.
    repeat match type of Hd with
           | context [if ?t then _ else _] => destruct t
           end; congruence.
Qed.

(** However [property(object, name, d)] returns, it has touched the
    target only, and there no property but [name]. *)
Lemma property_frame (H : host) (E : env) object name d h r h' :
  property H E object name d h = (Ret r, h') ->
  r = object
  /\ exists l, object = VObject l /\ length h' = length h
       /\ (forall l', l' <> l -> h' !! l' = h !! l')
       /\ (forall l' k, l' <> l \/ k <> name -> own_prop h' l' k = own_prop h l' k).
Proof.
  unfold property. destruct (DP_IS_OKAY E && _); intros Hrun.
  - apply host_defineProperty_Ret in Hrun as (-> & l & desc & -> & _ & Hdef).
    apply define_own_Ret in Hdef as (Hw & _).
    split; [done|]. exists l. split; [done|].
    split; [by eapply writes_length|].
    split; [intros l' Hne; by eapply writes_other|].
    intros l' k Hne. by eapply writes_own_prop.
  - apply property_fallback_Ret in Hrun as (-> & l & v & -> & _ & _ & Hset).
    apply set_own_frame in Hset as (Hlen & Hoth & Hown).
    split; [done|]. by exists l.
Qed.

(** Where defining [name] writes an own property, a returning
    [property(object, name, d)] leaves [name] on the target as an own
    property that holds the [value] of the descriptor object [d], and
    changes nothing else. *)
Lemma property_defines (H : host) (E : env) object name d pv h r h' :
  defines_own H E name = true ->
  own_prop h d "value" = Some pv ->
  property H E object name (VObject d) h = (Ret r, h') ->
  r = object
  /\ exists l p, object = VObject l /\ writes l name h h'
       /\ own_prop h' l name = Some p /\ p_value p = p_value pv.
Proof.
  intros Hplain Hown. unfold defines_own, native_property in Hplain. unfold property.
  destruct (DP_IS_OKAY E && _); intros Hrun.
  - apply host_defineProperty_Ret in Hrun as (-> & l & desc & -> & Hd & Hdef).
    split; [done|].
    pose proof (ToPropertyDescriptor_value _ _ _ _ _ Hown Hd) as Hval.
    apply define_own_Ret in Hdef as (Hw & p & Hp & ->).
    exists l, (match own_prop h l name with
               | Some c => apply_desc desc c
               | None => fresh_prop desc
               end).
    repeat split; [done|exact Hp|].
    destruct (own_prop h l name); simpl; by rewrite Hval.
  - apply property_fallback_Ret in Hrun as (-> & l & v & -> & _ & Hv & Hset).
    split; [done|].
    rewrite (getv_own _ _ _ _ _ Hown) in Hv. injection Hv as <-.
    apply set_own_Ret in Hset as (Hw & p & Hp & Hpv & _); [|by left].
    by exists l, p.
Qed.

(** An error of [property], on either path, leaves the heap as it was. *)
Lemma property_Throw (H : host) (E : env) object name d h e h' :
  property H E object name d h = (Throw e, h') -> e = TypeError /\ h' = h.
Proof.
  unfold property. destruct (DP_IS_OKAY E && _).
  - apply host_defineProperty_Throw.
  - apply property_fallback_Throw.
Qed.

(** *** defineProperty: which values are descriptors *)

Lemma defineProperty_shorthand (H : host) (E : env) object name v h :
  typeof h v <> "object" ->
  defineProperty H E object name v h
  = (let* d := literal (host_realm H) [("value", v)] in
     property H E object name d) h.
Proof.
  intros Hty. unfold defineProperty. unfold bind at 1. unfold lift.
  rewrite bool_decide_false by done. reflexivity.
Qed.

Lemma literal_run R fields h :
  literal R fields h
  = (Ret (VObject (length h)),
     h ++ [ordinary (Some (ObjectPrototype R))
             (map (fun kv => (kv.1, data kv.2)) fields)]).
Proof. reflexivity. Qed.

(** C10. A function passed as the third argument of [defineProperty] is
    always the value of the property: the call is
    [property(object, name, {value: f})], whatever properties [f] itself
    carries, because [isDescriptor] is consulted only for values whose
    [typeof] is ['object'].  When the call returns, it returns the target,
    and where defining [name] writes a property (every name with the
    native function; every name but [__proto__] on a host with that
    accessor otherwise), [name] is an own property of the target that
    holds [f]. *)
Theorem defineProperty_function_is_value (H : host) (E : env) (object : value)
    (name : string) (f : value) (h : heap) :
  typeof h f = "function" ->
  defineProperty H E object name f h
  = (let* d := literal (host_realm H) [("value", f)] in
     property H E object name d) h
  /\ forall r h', defineProperty H E object name f h = (Ret r, h') ->
       r = object
       /\ exists l, object = VObject l
            /\ (defines_own H E name = true ->
                exists p, own_prop h' l name = Some p /\ p_value p = f).
Proof.
  intros Hty.
  assert (Heq := defineProperty_shorthand H E object name f h).
  rewrite Heq by (rewrite Hty; discriminate). split; [reflexivity|].
  intros r h' Hrun. unfold bind in Hrun. rewrite literal_run in Hrun.
  destruct (property_frame _ _ _ _ _ _ _ _ Hrun) as (-> & l & -> & _).
  split; [done|]. exists l. split; [done|]. intros Hplain.
  apply (property_defines _ _ _ _ _ (data f)) in Hrun
    as (_ & l' & p & [= <-] & _ & Hp & Hv); [eauto|done|].
  rewrite own_prop_alloc_new. simpl. reflexivity.
Qed.

Lemma defineProperty_function_is_value_witness :
  (let h := Examples.with_function (Examples.heap_of Examples.legacy) in
   get h 11 "value" = VNumber 7
   /\ exists h', defineProperty Examples.legacy (Examples.env_of Examples.legacy)
                  (VObject 4) "k" (VObject 11) h = (Ret (VObject 4), h')
        /\ get h' 4 "k" = VObject 11)
  /\ (let h := Examples.with_function (Examples.heap_of Examples.modern) in
      exists h', defineProperty Examples.modern (Examples.env_of Examples.modern)
                   (VObject 4) "k" (VObject 11) h = (Ret (VObject 4), h')
        /\ get h' 4 "k" = VObject 11).
Proof.
  split.
  - intros h. split; [reflexivity|].
    destruct (defineProperty_function_is_value Examples.legacy
                (Examples.env_of Examples.legacy) (VObject 4) "k" (VObject 11) h
                eq_refl) as (_ & Hret).
    eexists. split; [reflexivity|].
    destruct (Hret _ _ eq_refl) as (_ & l & Hl & Hdef).
    injection Hl as <-. destruct (Hdef eq_refl) as (p & Hp & Hv).
    by rewrite (get_own _ _ _ _ Hp).
  - intros h.
    destruct (defineProperty_function_is_value Examples.modern
                (Examples.env_of Examples.modern) (VObject 4) "k" (VObject 11) h
                eq_refl) as (_ & Hret).
    eexists. split; [reflexivity|].
    destruct (Hret _ _ eq_refl) as (_ & l & Hl & Hdef).
    injection Hl as <-. destruct (Hdef eq_refl) as (p & Hp & Hv).
    by rewrite (get_own _ _ _ _ Hp).
Defined.

Lemma isDescriptor_object l h :
  isDescriptor (VObject l) h = (Ret (existsb (has_property h l) descriptor_keys), h).
Proof.
  unfold isDescriptor, descriptor_keys, in_operator, bind, ret. simpl.
  repeat (match goal with
          | |- context [has_property h l ?k] => destruct (has_property h l k)
          end; simpl; try reflexivity).
Qed.

(** What [defineProperty] does with its third argument: a full descriptor
    goes to [property] as it is, [null] makes [isDescriptor] throw, any
    other value is wrapped as [{value: v}]. *)
Lemma defineProperty_dispatch (H : host) (E : env) object name v h :
  defineProperty H E object name v h
  = if is_full_descriptor h v then property H E object name v h
    else if bool_decide (v = VNull) then (Throw TypeError, h)
    else (let* d := literal (host_realm H) [("value", v)] in
          property H E object name d) h.
Proof.
  destruct (decide (typeof h v = "object")) as [Hty|Hty].
  - destruct v as [| | | | |l]; try discriminate; [reflexivity|].
    unfold defineProperty. unfold bind at 1. unfold lift.
    rewrite bool_decide_true by done. unfold bind at 1.
    rewrite isDescriptor_object.
    unfold is_full_descriptor. rewrite bool_decide_true by done.
    rewrite andb_true_l.
    destruct (existsb (has_property h l) descriptor_keys); reflexivity.
  - rewrite defineProperty_shorthand by done.
    replace (is_full_descriptor h v) with false.
    + destruct v; try reflexivity. by destruct Hty.
    + destruct v; try reflexivity. simpl.
      rewrite bool_decide_false; done.
Qed.

(** The general form of [property_defines]: the descriptor's [value] is
    read through its prototype chain; on the native path a descriptor
    without a [value] keeps the value of an existing property. *)
Lemma property_defines_get (H : host) (E : env) object name d h r h' :
  defines_own H E name = true ->
  property H E object name (VObject d) h = (Ret r, h') ->
  r = object
  /\ exists l p, object = VObject l /\ writes l name h h'
       /\ own_prop h' l name = Some p
       /\ (has_property h d "value" = true \/ own_prop h l name = None
           \/ native_property H E = false ->
           p_value p = get h d "value")
       /\ (forall q, native_property H E = true ->
             has_property h d "value" = false -> own_prop h l name = Some q ->
             p_value p = p_value q).
Proof.
  intros Hplain. unfold defines_own, native_property in *. unfold property.
  destruct (DP_IS_OKAY E && _); intros Hrun.
  - apply host_defineProperty_Ret in Hrun as (-> & l & desc & -> & Hd & Hdef).
    split; [done|].
    assert (Hval : d_value desc = field h d "value").
    { revert Hd. unfold ToPropertyDescriptor.
      case_ifs; intros [= <-]; done. }
    apply define_own_Ret in Hdef as (Hw & p & Hp & ->).
    exists l, (match own_prop h l name with
               | Some c => apply_desc desc c
               | None => fresh_prop desc
               end).
    repeat split; [done|exact Hp| |].
    + unfold field in Hval. unfold get, has_property in *.
      intros [Hhas|[Hnew|Hfb]]; [| |discriminate].
      * destruct (find_prop h d "value") as [pv|]; [|discriminate].
        destruct (own_prop h l name); simpl; by rewrite Hval.
      * rewrite Hnew. simpl. rewrite Hval.
        destruct (find_prop h d "value"); reflexivity.
    + intros q _ Hno Hq. rewrite Hq. simpl. rewrite Hval.
      unfold field. by rewrite Hno.
  - apply property_fallback_Ret in Hrun as (-> & l & v & -> & _ & Hv & Hset).
    split; [done|].
    rewrite getv_object in Hv by (by apply finds_accessor_key). injection Hv as <-.
    apply set_own_Ret in Hset as (Hw & p & Hp & Hpv & _); [|by left].
    exists l, p. repeat split; [done|done|done|discriminate].
Qed.

(** *** getOwnPropertyDescriptor after defineProperty *)

Lemma call_hasOwnProperty_builtin R h l k :
  calls_builtin_hasOwnProperty h l ->
  call_hasOwnProperty R (VObject l) k h
  = (Ret (VBool (bool_decide (is_Some (own_prop h l k)))), h).
Proof.
  intros (fl & fo & Hget & Hfl & Hcall).
  unfold call_hasOwnProperty, bind.
  rewrite getv_object by (by apply finds_accessor_key).
  rewrite Hget, Hfl, Hcall. reflexivity.
Qed.

Lemma native_descriptor_of_own R l name p h :
  own_prop h l name = Some p ->
  Object_getOwnPropertyDescriptor R (VObject l) name h
  = (Ret (VObject (length h)),
     h ++ [ordinary (Some (ObjectPrototype R))
             [("value", data (p_value p));
              ("writable", data (VBool (p_writable p)));
              ("enumerable", data (VBool (p_enumerable p)));
              ("configurable", data (VBool (p_configurable p)))]]).
Proof.
  intros Hown. unfold Object_getOwnPropertyDescriptor, bind, lift. simpl.
  rewrite Hown. reflexivity.
Qed.

Lemma fallback_descriptor_of_own (H : host) l name p h :
  calls_builtin_hasOwnProperty h l ->
  own_prop h l name = Some p ->
  getOwnPropertyDescriptor_fallback H (VObject l) name h
  = (Ret (VObject (length h)),
     h ++ [ordinary (Some (ObjectPrototype (host_realm H)))
             [("value", data (p_value p))]]).
Proof.
  intros Hb Hown. unfold getOwnPropertyDescriptor_fallback.
  rewrite (bind_step _ _ _ _ _ (call_hasOwnProperty_builtin _ _ _ name Hb)).
  rewrite Hown. rewrite bool_decide_true by eauto. cbn [ToBoolean].
  unfold bind. rewrite (getv_own _ _ _ _ _ Hown). reflexivity.
Qed.

Lemma get_alloc_new h o k v :
  assoc k (o_props o) = Some (data v) -> get (h ++ [o]) (length h) k = v.
Proof.
  intros Hk. apply (get_own _ _ _ (data v)). by rewrite own_prop_alloc_new.
Qed.

(** C5, as the code has it.  Where defining [name] writes a property
    (every name with the native function; every name but [__proto__] on a
    host with that accessor otherwise): when
    [defineProperty(target, name, v)] returns, [name] is an own property
    of the target, and [getOwnPropertyDescriptor(target, name)] returns a
    fresh object whose [value] is the value of that property (provided,
    where the function is the one written in the module, that
    [target.hasOwnProperty] is still the built-in); the native function
    reports the three attributes as well.  The value is [v] when [v] is
    not a full descriptor, and [v.value] when it is one; on the native
    path a descriptor without a [value] field leaves the value of an
    existing property. *)
Theorem defineProperty_getOwnPropertyDescriptor_roundtrip (H : host) (E : env)
    (target : value) (name : string) (v : value) (h h1 : heap) (r : value) :
  defines_own H E name = true ->
  defineProperty H E target name v h = (Ret r, h1) ->
  (native_descriptor_read H E = false ->
   forall l, target = VObject l -> calls_builtin_hasOwnProperty h1 l) ->
  exists l p d h2,
    target = VObject l
    /\ own_prop h1 l name = Some p
    /\ getOwnPropertyDescriptor H E target name h1 = (Ret (VObject d), h2)
    /\ get h2 d "value" = p_value p
    /\ (native_descriptor_read H E = true ->
        get h2 d "writable" = VBool (p_writable p)
        /\ get h2 d "enumerable" = VBool (p_enumerable p)
        /\ get h2 d "configurable" = VBool (p_configurable p))
    /\ (is_full_descriptor h v = false -> p_value p = v)
    /\ (forall dl, v = VObject dl -> is_full_descriptor h v = true ->
          has_property h dl "value" = true \/ own_prop h l name = None
          \/ native_property H E = false ->
          p_value p = get h dl "value")
    /\ (forall dl q, v = VObject dl -> is_full_descriptor h v = true ->
          native_property H E = true -> has_property h dl "value" = false ->
          own_prop h l name = Some q ->
          p_value p = p_value q).
Proof.
  intros Hplain Hrun Hbuiltin.
  assert (Hdef : exists l p,
    target = VObject l /\ own_prop h1 l name = Some p
    /\ (is_full_descriptor h v = false -> p_value p = v)
    /\ (forall dl, v = VObject dl -> is_full_descriptor h v = true ->
          has_property h dl "value" = true \/ own_prop h l name = None
          \/ native_property H E = false ->
          p_value p = get h dl "value")
    /\ (forall dl q, v = VObject dl -> is_full_descriptor h v = true ->
          native_property H E = true -> has_property h dl "value" = false ->
          own_prop h l name = Some q ->
          p_value p = p_value q)).
  { rewrite defineProperty_dispatch in Hrun.
    destruct (is_full_descriptor h v) eqn:Hfull.
    - destruct v as [| | | | |dl]; try discriminate.
      apply property_defines_get in Hrun as (_ & l & p & -> & _ & Hp & Hval & Hkeep);
        [|done].
      exists l, p. repeat split; [exact Hp|discriminate| |].
      + intros dl' [= <-] _. exact Hval.
      + intros dl' q [= <-] _. apply Hkeep.
    - case_bool_decide; [discriminate|].
      unfold bind in Hrun. rewrite literal_run in Hrun.
      apply (property_defines _ _ _ _ _ (data v)) in Hrun
        as (_ & l & p & -> & _ & Hp & Hval);
        [|done|by rewrite own_prop_alloc_new].
      exists l, p.
      repeat split; [exact Hp|intros _; exact Hval|discriminate|discriminate]. }
  destruct Hdef as (l & p & -> & Hp & Hshort & Hfull & Hkeep).
  unfold getOwnPropertyDescriptor. fold (native_descriptor_read H E).
  destruct (native_descriptor_read H E) eqn:Hnative.
  - eexists l, p, _, _. split; [done|]. split; [done|].
    split; [by apply native_descriptor_of_own|].
    split; [by apply get_alloc_new|].
    split; [|done].
    intros _. repeat split; by apply get_alloc_new.
  - eexists l, p, _, _. split; [done|]. split; [done|].
    split; [apply fallback_descriptor_of_own; [by apply Hbuiltin|done]|].
    split; [by apply get_alloc_new|].
    split; [discriminate|done].
Qed.

Lemma defineProperty_getOwnPropertyDescriptor_roundtrip_witness :
  (exists h1 d h2,
     defineProperty Examples.modern (Examples.env_of Examples.modern)
       (VObject 4) "k" (VNumber 5) (Examples.heap_of Examples.modern)
     = (Ret (VObject 4), h1)
     /\ getOwnPropertyDescriptor Examples.modern (Examples.env_of Examples.modern)
          (VObject 4) "k" h1 = (Ret (VObject d), h2)
     /\ get h2 d "value" = VNumber 5)
  /\ (exists h1 d h2,
        defineProperty Examples.legacy (Examples.env_of Examples.legacy)
          (VObject 4) "k" (VNumber 5) (Examples.heap_of Examples.legacy)
        = (Ret (VObject 4), h1)
        /\ getOwnPropertyDescriptor Examples.legacy (Examples.env_of Examples.legacy)
             (VObject 4) "k" h1 = (Ret (VObject d), h2)
        /\ get h2 d "value" = VNumber 5).
Proof.
  split.
  - destruct (defineProperty_getOwnPropertyDescriptor_roundtrip
                Examples.modern (Examples.env_of Examples.modern)
                (VObject 4) "k" (VNumber 5) (Examples.heap_of Examples.modern)
                (defineProperty Examples.modern (Examples.env_of Examples.modern)
                   (VObject 4) "k" (VNumber 5) (Examples.heap_of Examples.modern)).2
                (VObject 4) eq_refl eq_refl)
      as (l & p & d & h2 & _ & _ & Hread & Hvalue & _ & Hshort & _).
    { intros Hn. vm_compute in Hn. discriminate. }
    eexists _, d, h2. split; [reflexivity|]. split; [exact Hread|].
    rewrite Hvalue. apply Hshort. reflexivity.
  - destruct (defineProperty_getOwnPropertyDescriptor_roundtrip
                Examples.legacy (Examples.env_of Examples.legacy)
                (VObject 4) "k" (VNumber 5) (Examples.heap_of Examples.legacy)
                (defineProperty Examples.legacy (Examples.env_of Examples.legacy)
                   (VObject 4) "k" (VNumber 5) (Examples.heap_of Examples.legacy)).2
                (VObject 4) eq_refl eq_refl)
      as (l & p & d & h2 & _ & _ & Hread & Hvalue & _ & Hshort & _).
    { intros _ l [= <-]. eexists 2, _. repeat split; reflexivity. }
    eexists _, d, h2. split; [reflexivity|]. split; [exact Hread|].
    rewrite Hvalue. apply Hshort. reflexivity.
Defined.

(** C5 as stated fails on the hosts without the built-ins.  Where [v] is
    itself a full descriptor: after
    [defineProperty(target, 'k', {value: 5, enumerable: false})] the
    descriptor read back has [value] 5, not the object [v].  Where the
    name is [hasOwnProperty]: after
    [defineProperty(target, 'hasOwnProperty', 5)] the call
    [getOwnPropertyDescriptor(target, 'hasOwnProperty')] throws, because
    it calls [target.hasOwnProperty], which is now 5.  And where the name
    is [__proto__] on the host that has this accessor:
    [defineProperty(target, '__proto__', 5)] returns and defines nothing,
    and [getOwnPropertyDescriptor(target, '__proto__')] is [undefined]. *)
Lemma roundtrip_counterexample :
  (exists h1 d h2,
     defineProperty Examples.legacy (Examples.env_of Examples.legacy)
       (VObject 4) "k" (VObject 11)
       (Examples.with_descriptor (Examples.heap_of Examples.legacy))
     = (Ret (VObject 4), h1)
     /\ getOwnPropertyDescriptor Examples.legacy (Examples.env_of Examples.legacy)
          (VObject 4) "k" h1 = (Ret (VObject d), h2)
     /\ get h2 d "value" = VNumber 5
     /\ get h2 d "value" <> VObject 11)
  /\ (exists h1,
        defineProperty Examples.legacy (Examples.env_of Examples.legacy)
          (VObject 4) "hasOwnProperty" (VNumber 5)
          (Examples.heap_of Examples.legacy)
        = (Ret (VObject 4), h1)
        /\ getOwnPropertyDescriptor Examples.legacy (Examples.env_of Examples.legacy)
             (VObject 4) "hasOwnProperty" h1 = (Throw TypeError, h1))
  /\ (exists h1,
        defineProperty Examples.legacy_link (Examples.env_of Examples.legacy_link)
          (VObject 5) "__proto__" (VNumber 5)
          (Examples.heap_of Examples.legacy_link)
        = (Ret (VObject 5), h1)
        /\ own_prop h1 5 "__proto__" = None
        /\ getOwnPropertyDescriptor Examples.legacy_link
             (Examples.env_of Examples.legacy_link)
             (VObject 5) "__proto__" h1 = (Ret VUndefined, h1)).
Proof.
  split; [|split].
  - do 3 eexists. split; [reflexivity|]. split; [reflexivity|].
    split; [reflexivity|discriminate].
  - eexists. split; reflexivity.
  - eexists. split; [reflexivity|]. split; reflexivity.
Qed.

(** *** Lookups in a heap that has grown *)

Lemma keeps_but_refl k0 h : keeps_but k0 h h.
Proof. intros l o Hl. by exists o. Qed.

Lemma keeps_but_trans k0 h1 h2 h3 :
  keeps_but k0 h1 h2 -> keeps_but k0 h2 h3 -> keeps_but k0 h1 h3.
Proof.
  intros H12 H23 l o Hl.
  destruct (H12 _ _ Hl) as (o2 & Hl2 & Hp2 & Hc2 & Hk2).
  destruct (H23 _ _ Hl2) as (o3 & Hl3 & Hp3 & Hc3 & Hk3).
  exists o3. split; [done|]. split; [congruence|]. split; [congruence|].
  intros k Hk. rewrite Hk3, Hk2; done.
Qed.

Lemma keeps_but_app k0 h extra : keeps_but k0 h (h ++ extra).
Proof. intros l o Hl. exists o. split; [by apply lookup_app_l_Some|done]. Qed.

Lemma keeps_but_writes k0 l h h' : writes l k0 h h' -> keeps_but k0 h h'.
Proof.
  intros Hw l' o Hl'.
  destruct Hw as (o0 & ps & Hl & -> & Hsame & _).
  destruct (decide (l' = l)) as [->|Hne].
  - exists (with_props o0 ps).
    rewrite list_lookup_insert_eq by (by eapply lookup_lt_Some).
    assert (o = o0) as -> by congruence. done.
  - exists o. by rewrite list_lookup_insert_ne.
Qed.

(** A write to an object that [h] does not have. *)
Lemma keeps_but_write_new k0 l k h h1 h2 :
  keeps_but k0 h h1 -> writes l k h1 h2 -> length h <= l -> keeps_but k0 h h2.
Proof.
  intros Hkeep Hw Hl l' o Hl'.
  destruct (Hkeep _ _ Hl') as (o' & Hl1 & Hrest). exists o'. split; [|done].
  rewrite (writes_other _ _ _ _ _ Hw); [done|].
  apply lookup_lt_Some in Hl'. lia.
Qed.

Lemma find_prop_from_keeps k0 h h' fuel n start k p :
  keeps_but k0 h h' -> k <> k0 ->
  find_prop_from fuel h start k = Some p ->
  find_prop_from (fuel + n) h' start k = Some p.
Proof.
  intros Hkeep Hk. revert start.
  induction fuel as [|f IH]; intros start; simpl; [done|].
  destruct start as [l|]; [|done].
  destruct (h !! l) as [o|] eqn:Hl; [|done].
  destruct (Hkeep _ _ Hl) as (o' & -> & -> & _ & ->); [|done].
  destruct (assoc k (o_props o)); [done|]. apply IH.
Qed.

Lemma creatable_from_keeps k0 h h' fuel n start k :
  keeps_but k0 h h' -> k <> k0 ->
  creatable_from fuel h start k = true ->
  match find_prop_from (fuel + n) h' start k with
  | Some q => p_writable q = true
  | None => True
  end.
Proof.
  intros Hkeep Hk. revert start.
  induction fuel as [|f IH]; intros start; simpl.
  - destruct start; [discriminate|]. by destruct n.
  - destruct start as [l|]; [|done].
    destruct (h !! l) as [o|] eqn:Hl; [|discriminate].
    destruct (Hkeep _ _ Hl) as (o' & -> & -> & _ & ->); [|done].
    destruct (assoc k (o_props o)); [done|]. apply IH.
Qed.

Lemma inherits_accessor_keeps R k0 h h' fuel n start :
  keeps_but k0 h h' -> k0 <> "__proto__" ->
  inherits_accessor R fuel h start = true ->
  inherits_accessor R (fuel + n) h' start = true.
Proof.
  intros Hkeep Hk. revert start.
  induction fuel as [|f IH]; intros start; simpl; [done|].
  destruct start as [l|]; [|done].
  destruct (h !! l) as [o|] eqn:Hl; [|done].
  destruct (Hkeep _ _ Hl) as (o' & -> & -> & _ & ->); [|done].
  destruct (assoc "__proto__" (o_props o)); [done|].
  case_bool_decide; [done|]. apply IH.
Qed.

Lemma find_prop_from_None fuel h k : find_prop_from fuel h None k = None.
Proof. by destruct fuel. Qed.

Lemma for_in_from_None fuel h visited : for_in_from fuel h None visited = [].
Proof. by destruct fuel. Qed.

(** *** create *)

Lemma set_own_writable R l k x q h :
  own_prop h l k = Some q -> p_writable q = true ->
  exists h', set_own R l k x h = (Ret tt, h')
             /\ writes l k h h'
             /\ exists p, own_prop h' l k = Some p /\ p_value p = x
                          /\ p_writable p = true.
Proof.
  intros Hown Hw.
  rewrite set_own_plain by (by eapply finds_accessor_own).
  assert (Hrun : exists h', set_data l k x h = (Ret tt, h')).
  { unfold set_data. unfold own_prop in Hown.
    destruct (h !! l) as [o|]; [|discriminate]. rewrite Hown, Hw. eauto. }
  destruct Hrun as (h' & Hrun). exists h'. split; [done|].
  apply set_data_Ret in Hrun as (Hwr & p & Hp & Hv & Hpw & _). eauto 6.
Qed.

Lemma bind_ret_r {A} (m : M A) h : bind m ret h = m h.
Proof. unfold bind. by destruct (m h) as [[a|e|] h']. Qed.

Lemma create_without_descriptors (H : host) (E : env) P h :
  create H E P VUndefined h = create_object H E P h.
Proof. unfold create. simpl. apply bind_ret_r. Qed.

Lemma create_with_descriptors (H : host) (E : env) P D h :
  ToBoolean D = true ->
  create H E P D h
  = (let* o := create_object H E P in defineProperties H E o D) h.
Proof. intros HD. unfold create. rewrite HD. reflexivity. Qed.

(** The object [new PrototypalIntermediate()] makes, after [prototype]
    has been assigned. *)
Lemma create_object_fallback (H : host) (E : env) P h :
  Object_create_defined H = false -> intermediate_ready E h ->
  exists h0,
    create_object H E P h
    = (Ret (VObject (length h)),
       h0 ++ [ordinary (Some (match P with
                             | VObject p => p
                             | _ => ObjectPrototype (host_realm H)
                             end)) []])
    /\ writes (PrototypalIntermediate E) "prototype" h h0.
Proof.
  intros Hnative (q & Hq & Hw). unfold create_object. rewrite Hnative.
  destruct (set_own_writable (host_realm H) _ _ P _ _ Hq Hw)
    as (h0 & Hset & Hwr & p & Hp & Hv & _).
  exists h0. split; [|done].
  unfold putv. rewrite (bind_step _ _ _ _ _ Hset).
  unfold construct_empty, bind. rewrite (getv_own _ _ _ _ _ Hp), Hv.
  unfold alloc. by rewrite (writes_length _ _ _ _ Hwr).
Qed.

Lemma create_object_spec (H : host) (E : env) P h :
  (exists p, P = VObject p) \/ (P = VNull /\ Object_create_defined H = true) ->
  (Object_create_defined H = false -> intermediate_ready E h) ->
  exists h1,
    create_object H E P h = (Ret (VObject (length h)), h1)
    /\ h1 !! length h = Some (ordinary (link_of_value P) [])
    /\ length h1 = S (length h)
    /\ (forall l, l < length h -> l <> PrototypalIntermediate E -> h1 !! l = h !! l)
    /\ keeps_but "prototype" h h1
    /\ (Object_create_defined H = true -> h1 = h ++ [ordinary (link_of_value P) []]).
Proof.
  intros HP Hready.
  destruct (Object_create_defined H) eqn:Hnative.
  - exists (h ++ [ordinary (link_of_value P) []]).
    assert (HP' : (exists p, P = VObject p) \/ P = VNull)
      by (destruct HP as [?|[? _]]; auto).
    split; [unfold create_object; rewrite Hnative;
            destruct HP' as [[p ->]| ->]; reflexivity|].
    split; [rewrite lookup_app_r by lia; by replace (length h - length h) with 0 by lia|].
    split; [rewrite length_app; simpl; lia|].
    split; [intros l Hl _; by rewrite lookup_app_l|].
    split; [apply keeps_but_app|done].
  - destruct HP as [[p ->]|[_ ?]]; [|discriminate].
    destruct (create_object_fallback H E (VObject p) h Hnative (Hready eq_refl))
      as (h0 & Hrun & Hwr).
    pose proof (writes_length _ _ _ _ Hwr) as Hlen.
    eexists. split; [exact Hrun|].
    split; [rewrite lookup_app_r by lia; by replace (length h - length h0) with 0 by lia|].
    split; [rewrite length_app; simpl; lia|].
    split; [|split; [|discriminate]].
    + intros l Hl Hne. rewrite lookup_app_l by lia. by eapply writes_other.
    + eapply keeps_but_trans; [by eapply keeps_but_writes|apply keeps_but_app].
Qed.

Lemma getPrototypeOf_exact (H : host) (E : env) l o h :
  reads_link H E h l = true ->
  h !! l = Some o ->
  getPrototypeOf H E (VObject l) h = (Ret (value_of_proto (o_proto o)), h).
Proof.
  intros Hexact Hl. unfold getPrototypeOf.
  destruct (Object_getPrototypeOf_defined H) eqn:Hnative.
  - unfold Object_getPrototypeOf, bind, lift, proto_of. simpl. by rewrite Hl.
  - unfold reads_link in Hexact. rewrite Hnative in Hexact. simpl in Hexact.
    apply andb_true_iff in Hexact as [-> Hfinds].
    unfold getv, get_through, proto_of. by rewrite Hfinds, Hl.
Qed.

(** The lookup of [__proto__] from an object without properties whose
    prototype inherits the accessor. *)
Lemma finds_accessor_new R k0 h h1 p :
  keeps_but k0 h h1 -> k0 <> "__proto__" -> length h1 = S (length h) ->
  h1 !! length h = Some (ordinary (Some p) []) ->
  finds_accessor R h p "__proto__" = true ->
  finds_accessor R h1 (length h) "__proto__" = true.
Proof.
  intros Hkeep Hk Hlen Hnew. unfold finds_accessor.
  intros [-> Hin]%andb_true_iff. rewrite andb_true_l.
  unfold chain_fuel in *. rewrite Hlen. simpl. rewrite Hnew. simpl.
  case_bool_decide; [done|].
  rewrite <- (Nat.add_0_r (length h)).
  by eapply inherits_accessor_keeps.
Qed.

(** A property that the prototype of a new object without properties
    has, or inherits, is found from the new object. *)
Lemma find_prop_new k0 h h1 p k q :
  keeps_but k0 h h1 -> k <> k0 -> length h1 = S (length h) ->
  h1 !! length h = Some (ordinary (Some p) []) ->
  find_prop h p k = Some q ->
  find_prop h1 (length h) k = Some q.
Proof.
  intros Hkeep Hk Hlen Hnew Hfind. unfold find_prop, chain_fuel in *.
  rewrite Hlen. simpl. rewrite Hnew. simpl.
  rewrite <- (Nat.add_0_r (length h)).
  by eapply find_prop_from_keeps.
Qed.

(** *** Enumeration *)

Lemma enumerable_new_spec props visited k :
  k ∈ enumerable_new props visited
  <-> (k ∉ visited) /\ exists p, assoc k props = Some p /\ p_enumerable p = true.
Proof.
  revert visited. induction props as [|[k0 p0] rest IH]; intros visited; simpl.
  - split; [intros Hin; by apply not_elem_of_nil in Hin|].
    intros (_ & p & Hp & _). discriminate.
  - rewrite elem_of_app, IH. destruct (decide (k = k0)) as [<-|Hk].
    + rewrite (bool_decide_true (k = k)) by done. split.
      * intros [Hin|(Hin & _)].
        -- destruct (p_enumerable p0) eqn:He; simpl in Hin;
             [|by apply not_elem_of_nil in Hin].
           case_bool_decide; [|by apply not_elem_of_nil in Hin]. eauto.
        -- destruct Hin. apply elem_of_cons. by left.
      * intros (Hv & p & [= <-] & He). left. rewrite He. simpl.
        rewrite bool_decide_true by done. apply elem_of_cons. by left.
    + rewrite (bool_decide_false (k = k0)) by done. split.
      * intros [Hin|(Hin & Hp)].
        -- destruct (p_enumerable p0 && bool_decide (k0 ∉ visited));
             [|by apply not_elem_of_nil in Hin].
           apply list_elem_of_singleton in Hin. congruence.
        -- split; [|done]. intros Hv. apply Hin. apply elem_of_cons. by right.
      * intros (Hv & Hp). right. split; [|done].
        intros [?|?]%elem_of_cons; congruence.
Qed.

Lemma for_in_from_fresh fuel h start visited k :
  k ∈ for_in_from fuel h start visited -> k ∉ visited.
Proof.
  revert start visited. induction fuel as [|f IH]; intros start visited; simpl.
  - intros Hin. by apply not_elem_of_nil in Hin.
  - destruct start as [l|]; [|intros Hin; by apply not_elem_of_nil in Hin].
    destruct (h !! l) as [o|]; [|intros Hin; by apply not_elem_of_nil in Hin].
    intros [Hin|Hin]%elem_of_app.
    + by apply enumerable_new_spec in Hin as [? _].
    + apply IH in Hin. intros Hv. apply Hin. apply elem_of_app. by right.
Qed.

Lemma assoc_Some_key {A} k (a : A) l : assoc k l = Some a -> k ∈ l.*1.
Proof.
  induction l as [|[k0 a0] l IH]; simpl; [discriminate|].
  case_bool_decide.
  - intros _. subst. apply elem_of_cons. by left.
  - intros Hl. apply elem_of_cons. right. by apply IH.
Qed.

(** A [for-in] loop over an object visits an own key exactly when the own
    property is enumerable. *)
Lemma for_in_own R h l k p :
  own_prop h l k = Some p ->
  k ∈ for_in_keys R h (VObject l) <-> p_enumerable p = true.
Proof.
  intros Hown. destruct (own_prop_lookup _ _ _ _ Hown) as (o & Hl & Hk).
  unfold for_in_keys, chain_fuel. destruct h as [|o0 h']; [done|].
  simpl length. simpl for_in_from. rewrite Hl. rewrite elem_of_app. split.
  - intros [Hin|Hin].
    + apply enumerable_new_spec in Hin as (_ & p' & Hp' & He). congruence.
    + apply for_in_from_fresh in Hin. destruct Hin.
      apply elem_of_app. left. by eapply assoc_Some_key.
  - intros He. left. apply enumerable_new_spec. split; [apply not_elem_of_nil|eauto].
Qed.

(** A call of [hasOwnProperty] that returns ran the built-in. *)
Lemma call_hasOwnProperty_Ret R v k h b h' :
  call_hasOwnProperty R v k h = (Ret b, h') ->
  h' = h /\ b = VBool (has_own h v k).
Proof.
  unfold call_hasOwnProperty. intros Hrun.
  apply bind_Ret_inv in Hrun as (f & h1 & Hf & Hrun).
  pose proof (getv_heap _ _ _ _ _ _ Hf) as ->.
  destruct f as [| | | | |fl]; try discriminate.
  destruct (h !! fl) as [fo|]; [|discriminate].
  destruct (o_call fo) as [[|]|]; try discriminate.
  injection Hrun as <- <-. done.
Qed.

(** *** defineProperties *)

Lemma grows_writing_length l k h h' : grows_writing l k h h' -> length h <= length h'.
Proof.
  intros (extra & Hw). rewrite (writes_length _ _ _ _ Hw), length_app. lia.
Qed.

Lemma grows_writing_own_prop l k h h' l' k' :
  grows_writing l k h h' -> l' < length h -> l' <> l \/ k' <> k ->
  own_prop h' l' k' = own_prop h l' k'.
Proof.
  intros (extra & Hw) Hl Hne.
  rewrite (writes_own_prop _ _ _ _ _ _ Hw Hne).
  unfold own_prop. by rewrite lookup_app_l.
Qed.

Lemma defines_own_key (H : host) (E : env) name :
  name <> "__proto__" -> defines_own H E name = true.
Proof.
  intros Hk. unfold defines_own, ordinary_key.
  rewrite bool_decide_false by done. apply orb_true_r.
Qed.

Lemma defineProperty_Ret (H : host) (E : env) object name d h r h' :
  defines_own H E name = true ->
  defineProperty H E object name d h = (Ret r, h') ->
  r = object
  /\ exists l p, object = VObject l /\ grows_writing l name h h'
       /\ own_prop h' l name = Some p
       /\ (is_full_descriptor h d = false -> p_value p = d).
Proof.
  intros Hplain. rewrite defineProperty_dispatch.
  destruct (is_full_descriptor h d) eqn:Hfull.
  - destruct d as [| | | | |dl]; try discriminate. intros Hrun.
    apply property_defines_get in Hrun as (-> & l & p & -> & Hw & Hp & _); [|done].
    split; [done|]. exists l, p. repeat split; [|done|discriminate].
    exists []. by rewrite app_nil_r.
  - case_bool_decide; [discriminate|]. intros Hrun.
    unfold bind in Hrun. rewrite literal_run in Hrun.
    apply (property_defines _ _ _ _ _ (data d)) in Hrun
      as (-> & l & p & -> & Hw & Hp & Hval);
      [|done|by rewrite own_prop_alloc_new].
    split; [done|]. exists l, p. repeat split; [|done|done].
    by eexists.
Qed.

(** However [defineProperty(object, name, d)] returns, the objects the
    heap had are as they were, the target apart, and there no property
    but [name] has changed. *)
Lemma defineProperty_frame (H : host) (E : env) object name d h r h' :
  defineProperty H E object name d h = (Ret r, h') ->
  r = object
  /\ exists l, object = VObject l /\ length h <= length h'
       /\ (forall l', l' < length h -> l' <> l -> h' !! l' = h !! l')
       /\ (forall l' k, l' < length h -> l' <> l \/ k <> name ->
             own_prop h' l' k = own_prop h l' k).
Proof.
  rewrite defineProperty_dispatch.
  destruct (is_full_descriptor h d) eqn:Hfull.
  - intros Hrun.
    apply property_frame in Hrun as (-> & l & -> & Hlen & Hoth & Hown).
    split; [done|]. exists l. split; [done|]. split; [lia|].
    split; [intros l' _; apply Hoth|intros l' k _; apply Hown].
  - case_bool_decide; [discriminate|]. intros Hrun.
    unfold bind in Hrun. rewrite literal_run in Hrun.
    apply property_frame in Hrun as (-> & l & -> & Hlen & Hoth & Hown).
    rewrite length_app in Hlen. simpl in Hlen.
    split; [done|]. exists l. split; [done|]. split; [lia|]. split.
    + intros l' Hl' Hne. rewrite Hoth by done. by rewrite lookup_app_l.
    + intros l' k Hl' Hne. rewrite Hown by done. by apply own_prop_alloc.
Qed.

(** The loop of [defineProperties] for a map [D] that holds a plain value
    [v] at [k]: once [k] has been visited, [k] is an own property of the
    target with that value. *)
Lemma defineProperties_loop (H : host) (E : env) o D k v names :
  defines_own H E k = true ->
  (forall h, is_full_descriptor h v = false) ->
  D <> o ->
  forall h u h',
    for_each
      (fun name =>
         let* d := getv (host_realm H) (VObject D) name in
         defineProperty H E (VObject o) name d ;; ret tt)
      names h = (Ret u, h') ->
    D < length h -> o < length h ->
    own_prop h D k = Some (data v) ->
    length h <= length h'
    /\ (k ∈ names \/ (exists p, own_prop h o k = Some p /\ p_value p = v) ->
        exists p, own_prop h' o k = Some p /\ p_value p = v).
Proof.
  intros Hplain Hv Hne.
  induction names as [|name names IH]; intros h u h' Hrun HD Ho HDk.
  - injection Hrun as _ <-. split; [done|].
    intros [Hin|Hp]; [by apply not_elem_of_nil in Hin|done].
  - simpl in Hrun. apply bind_Ret_inv in Hrun as ([] & h1 & Hbody & Hrest).
    apply bind_Ret_inv in Hbody as (d & h0 & Hd & Hbody).
    pose proof (getv_heap _ _ _ _ _ _ Hd) as ->.
    apply bind_Ret_inv in Hbody as (r & h2 & Hdef & Hret).
    assert (h2 = h1) as -> by (by injection Hret).
    destruct (defineProperty_frame _ _ _ _ _ _ _ _ Hdef)
      as (_ & l & [= <-] & Hlen & _ & Hframe).
    assert (HDk1 : own_prop h1 D k = Some (data v)).
    { rewrite Hframe; auto. }
    destruct (IH h1 u h' Hrest) as (Hlen' & Hpost); [lia|lia|done|].
    split; [lia|]. intros Hpre. apply Hpost.
    destruct (decide (name = k)) as [->|Hname].
    + right. rewrite (getv_own _ _ _ _ _ HDk) in Hd. injection Hd as <-.
      apply defineProperty_Ret in Hdef as (_ & l & p & [= <-] & _ & Hp & Hshort);
        [|done].
      exists p. split; [done|]. apply Hshort, Hv.
    + destruct Hpre as [[?|Hin]%elem_of_cons|(p0 & Hp0 & Hv0)];
        [congruence|by left|].
      right. exists p0. split; [|done]. rewrite Hframe; auto.
Qed.

Lemma create_object_Ret (H : host) (E : env) P h ov h1 :
  create_object H E P h = (Ret ov, h1) ->
  ov = VObject (length h)
  /\ length h1 = S (length h)
  /\ (forall l k, l < length h ->
        l <> PrototypalIntermediate E \/ k <> "prototype" ->
        own_prop h1 l k = own_prop h l k).
Proof.
  unfold create_object. destruct (Object_create_defined H).
  - unfold Object_create.
    destruct P as [| | | | |p]; try discriminate; intros [= <- <-];
      (split; [done|]); (split; [rewrite length_app; simpl; lia|]);
      intros l k Hl _; by apply own_prop_alloc.
  - intros Hrun. apply bind_Ret_inv in Hrun as ([] & h0 & Hput & Hnew).
    apply set_own_frame in Hput as (Hlen & _ & Hown).
    unfold construct_empty in Hnew.
    apply bind_Ret_inv in Hnew as (pv & h0' & Hpv & Hnew).
    pose proof (getv_heap _ _ _ _ _ _ Hpv) as ->.
    injection Hnew as <- <-. rewrite Hlen.
    split; [done|]. split; [rewrite length_app; simpl; lia|].
    intros l k Hl Hne. rewrite own_prop_alloc by lia. by apply Hown.
Qed.

Lemma getOwnPropertyDescriptor_of_own (H : host) (E : env) l k p h g h' :
  own_prop h l k = Some p ->
  getOwnPropertyDescriptor H E (VObject l) k h = (Ret g, h') ->
  exists d, g = VObject d /\ get h' d "value" = p_value p.
Proof.
  intros Hown. unfold getOwnPropertyDescriptor.
  destruct (DP_IS_OKAY E && Object_getOwnPropertyDescriptor_defined H).
  - rewrite (native_descriptor_of_own _ _ _ _ _ Hown). intros [= <- <-].
    eexists. split; [done|]. by apply get_alloc_new.
  - unfold getOwnPropertyDescriptor_fallback. intros Hrun.
    apply bind_Ret_inv in Hrun as (b & h0 & Hb & Hrun).
    apply call_hasOwnProperty_Ret in Hb as (-> & ->).
    simpl in Hrun. rewrite Hown, bool_decide_true in Hrun by eauto.
    unfold bind in Hrun. rewrite (getv_own _ _ _ _ _ Hown) in Hrun.
    rewrite literal_run in Hrun. injection Hrun as <- <-.
    eexists. split; [done|]. by apply get_alloc_new.
Qed.

Lemma create_x_scenario_value (H : host) (E : env) P h v h' :
  create_x_scenario H E P h = (Ret v, h') -> v = VNumber 1.
Proof.
  unfold create_x_scenario. intros Hrun. unfold bind at 1 in Hrun.
  rewrite literal_run in Hrun.
  set (ha := h ++ _) in Hrun.
  assert (Hlen_a : length ha = S (length h))
    by (unfold ha; rewrite length_app; simpl; lia).
  assert (HDx : own_prop ha (length h) "x" = Some (data (VNumber 1)))
    by (unfold ha; by rewrite own_prop_alloc_new).
  apply bind_Ret_inv in Hrun as (o & hc & Hcreate & Hrun).
  rewrite create_with_descriptors in Hcreate by done.
  apply bind_Ret_inv in Hcreate as (ov & hb & Hnew & Hprops).
  apply create_object_Ret in Hnew as (-> & Hlen_b & Hsame).
  unfold defineProperties in Hprops.
  apply bind_Ret_inv in Hprops as (names & hb' & Hnames & Hprops).
  injection Hnames as <- <-.
  apply bind_Ret_inv in Hprops as ([] & hc' & Hloop & [= <- <-]).
  assert (HDx_b : own_prop hb (length h) "x" = Some (data (VNumber 1))).
  { rewrite Hsame; [done|lia|]. right. discriminate. }
  eapply (defineProperties_loop H E (length ha) (length h) "x" (VNumber 1)) in Hloop
    as (_ & Hpost); [|by apply defines_own_key|done|lia|lia|lia|done].
  destruct Hpost as (p & Hp & Hpv).
  { left. by apply (for_in_own (host_realm H) _ _ _ _ HDx_b). }
  apply bind_Ret_inv in Hrun as (g & hd & Hg & Hrun).
  apply (getOwnPropertyDescriptor_of_own _ _ _ _ _ _ _ _ Hp) in Hg as (d & -> & Hd).
  rewrite getv_object in Hrun by (by apply finds_accessor_key).
  injection Hrun as <- _. congruence.
Qed.

(** *** A value defined on a new object *)

Lemma enumerable_new_hidden props visited :
  Forall (fun kp : string * data_property =>
            p_enumerable kp.2 = false /\ kp.1 ∉ descriptor_keys) props ->
  enumerable_new props visited = [].
Proof.
  intros Hall. revert visited.
  induction Hall as [|[k p] rest [He _] _ IH]; intros visited; simpl; [done|].
  simpl in He. rewrite He. simpl. apply IH.
Qed.

Lemma assoc_descriptor_key props k :
  Forall (fun kp : string * data_property =>
            p_enumerable kp.2 = false /\ kp.1 ∉ descriptor_keys) props ->
  k ∈ descriptor_keys -> assoc k props = None.
Proof.
  intros Hall Hk. induction Hall as [|[k0 p] rest [_ Hk0] _ IH]; simpl; [done|].
  case_bool_decide; [by subst|exact IH].
Qed.

Lemma standard_Object_prototype_same R h h' :
  standard_Object_prototype R h ->
  h' !! ObjectPrototype R = h !! ObjectPrototype R ->
  standard_Object_prototype R h'.
Proof. intros (op & Hop & Hrest) Heq. exists op. by rewrite Heq. Qed.

(** The keys of a [for-in] loop over an object literal with one field. *)
Lemma for_in_keys_literal R h dl k v n :
  standard_Object_prototype R h -> length h = S (S n) ->
  h !! dl = Some (ordinary (Some (ObjectPrototype R)) [(k, data v)]) ->
  for_in_keys R h (VObject dl) = [k].
Proof.
  intros (op & Hop & Hend & Hall) Hlen Hdl.
  unfold for_in_keys, chain_fuel. rewrite Hlen. simpl. rewrite Hdl. simpl.
  rewrite Hop, Hend, (enumerable_new_hidden _ _ Hall), for_in_from_None.
  done.
Qed.

(** The fields [ToPropertyDescriptor] finds on the literal [{value: v}]. *)
Lemma field_literal R h wl v n k :
  standard_Object_prototype R h -> length h = S (S n) ->
  h !! wl = Some (ordinary (Some (ObjectPrototype R)) [("value", data v)]) ->
  k ∈ descriptor_keys ->
  field h wl k = if bool_decide (k = "value") then Some v else None.
Proof.
  intros (op & Hop & Hend & Hall) Hlen Hwl Hk.
  unfold field, has_property, get, find_prop, chain_fuel. rewrite Hlen.
  simpl. rewrite Hwl. simpl. case_bool_decide; [done|].
  rewrite Hop, (assoc_descriptor_key _ _ Hall Hk), Hend.
  by rewrite find_prop_from_None.
Qed.

Lemma ToPropertyDescriptor_literal R h wl v n :
  standard_Object_prototype R h -> length h = S (S n) ->
  h !! wl = Some (ordinary (Some (ObjectPrototype R)) [("value", data v)]) ->
  ToPropertyDescriptor (VObject wl) h
  = (Ret (MkDescriptor (Some v) None None None), h).
Proof.
  intros Hstd Hlen Hwl. unfold ToPropertyDescriptor.
  rewrite !(field_literal R h wl v n _ Hstd Hlen Hwl)
    by (apply list_elem_of_In; simpl; tauto).
  reflexivity.
Qed.

(** [defineProperty(o, name, v)] for a value [v] that is not an object, on
    an object [o] that has no property [name] yet. *)
Lemma defineProperty_new (H : host) (E : env) o oo name v h n :
  standard_Object_prototype (host_realm H) h -> length h = S n ->
  h !! o = Some oo -> assoc name (o_props oo) = None ->
  o_extensible oo = true -> o_call oo = None ->
  is_primitive v = true -> v <> VNull -> name <> "__proto__" ->
  (native_property H E = true -> Object_defineProperty_support H = Working) ->
  (native_property H E = false ->
   match find_prop_from (S (length h))
           (h ++ [ordinary (Some (ObjectPrototype (host_realm H))) [("value", data v)]])
           (o_proto oo) name with
   | Some q => p_writable q = true
   | None => True
   end) ->
  exists h' p,
    defineProperty H E (VObject o) name v h = (Ret (VObject o), h')
    /\ own_prop h' o name = Some p /\ p_value p = v
    /\ writes o name
         (h ++ [ordinary (Some (ObjectPrototype (host_realm H))) [("value", data v)]])
         h'.
Proof.
  intros Hstd Hlen Ho Hnew Hext Hcall Hprim Hnull Hname Hworking Hchain.
  assert (Hfull : is_full_descriptor h v = false) by (by destruct v).
  rewrite defineProperty_dispatch, Hfull.
  rewrite bool_decide_false by done. unfold bind. rewrite literal_run.
  set (w := ordinary _ [("value", data v)]). set (hw := h ++ [w]).
  assert (Hlenw : length hw = S (S n))
    by (unfold hw; rewrite length_app; simpl; lia).
  assert (Hwl : hw !! length h = Some w).
  { unfold hw. rewrite lookup_app_r by lia.
    by replace (length h - length h) with 0 by lia. }
  assert (How : hw !! o = Some oo) by (unfold hw; by apply lookup_app_l_Some).
  assert (Hstdw : standard_Object_prototype (host_realm H) hw).
  { eapply standard_Object_prototype_same; [exact Hstd|].
    destruct Hstd as (op & Hop & _). unfold hw. rewrite Hop.
    by apply lookup_app_l_Some. }
  unfold property. fold (native_property H E).
  destruct (native_property H E) eqn:Hnative.
  - unfold host_defineProperty. rewrite (Hworking eq_refl).
    unfold Object_defineProperty.
    rewrite (bind_step _ _ _ _ _
               (ToPropertyDescriptor_literal _ _ _ _ _ Hstdw Hlenw Hwl)).
    assert (Hdef : exists h', define_own o name (MkDescriptor (Some v) None None None) hw
                              = (Ret tt, h')).
    { unfold define_own. rewrite How, Hnew, Hext. eauto. }
    destruct Hdef as (h' & Hdef). rewrite (bind_step _ _ _ _ _ Hdef).
    apply define_own_Ret in Hdef as (Hw & p & Hp & ->).
    exists h'. eexists. split; [done|]. split; [exact Hp|]. split; [|done].
    unfold own_prop. by rewrite How, Hnew.
  - assert (Hty : typeof hw (VObject o) = "object")
      by (unfold typeof; by rewrite How, Hcall).
    assert (Hv : getv (host_realm H) (VObject (length h)) "value" hw = (Ret v, hw)).
    { apply (getv_own _ _ _ (data v)). unfold own_prop. by rewrite Hwl. }
    rewrite (property_fallback_assigns _ _ _ _ _ _ Hty Hv).
    assert (Hset : exists h', set_own (host_realm H) o name v hw = (Ret tt, h')).
    { rewrite set_own_plain by (by apply finds_accessor_key).
      unfold set_data. rewrite How, Hnew, Hext.
      specialize (Hchain eq_refl). fold w hw in Hchain.
      unfold chain_fuel. rewrite Hlenw, <- Hlen.
      destruct (find_prop_from (S (length h)) hw (o_proto oo) name) as [q|];
        [rewrite Hchain|]; eauto. }
    destruct Hset as (h' & Hset). rewrite (bind_step _ _ _ _ _ Hset).
    apply set_own_Ret in Hset as (Hw & p & Hp & Hpv & _);
      [|left; unfold ordinary_key; by rewrite bool_decide_false].
    by exists h', p.
Qed.

(** The property [x] of the object that a returning
    [create(P, {x: 1})] gives has the value 1: on a realm as the host sets
    it up, with a working [Object.defineProperty] where the module uses
    it, and where it does not, a prototype under which [x] can be
    created and whose [hasOwnProperty] is the built-in. *)
Lemma create_x_scenario_returns (H : host) (E : env) p h :
  standard_Object_prototype (host_realm H) h ->
  (Object_create_defined H = false ->
   intermediate_ready E h
   /\ PrototypalIntermediate E <> ObjectPrototype (host_realm H)) ->
  (native_property H E = true -> Object_defineProperty_support H = Working) ->
  (native_property H E = false ->
   creatable_from (chain_fuel h) h (Some p) "x" = true) ->
  (native_descriptor_read H E = false -> calls_builtin_hasOwnProperty h p) ->
  exists h', create_x_scenario H E (VObject p) h = (Ret (VNumber 1), h').
Proof.
  intros Hstd Hready Hworking Hchain Hbuiltin.
  unfold create_x_scenario. unfold bind at 1. rewrite literal_run.
  pose (D := ordinary (Some (ObjectPrototype (host_realm H))) [("x", data (VNumber 1))]).
  change (h ++ [_]) with (h ++ [D]). set (ha := h ++ [D]).
  assert (Hlena : length ha = S (length h))
    by (unfold ha; rewrite length_app; simpl; lia).
  destruct (Hstd) as (op & Hop & Hend & Hall).
  assert (HOP : ObjectPrototype (host_realm H) < length h)
    by (by eapply lookup_lt_Some).
  (* the new object *)
  destruct (create_object_spec H E (VObject p) ha) as
    (hb & Hnew & Ho & Hlenb & Hsame & Hkeep & Happ); [by eauto| |].
  { intros Hc. destruct (Hready Hc) as ((q & Hq & Hw) & _).
    exists q. split; [|done]. unfold ha. rewrite own_prop_alloc; [done|].
    apply own_prop_lookup in Hq as (? & ? & _). by eapply lookup_lt_Some. }
  rewrite Hlena in Ho, Hnew. simpl in Ho.
  assert (Holdb : forall l, l = length h \/ l = ObjectPrototype (host_realm H) ->
                            hb !! l = ha !! l).
  { intros l Hl. destruct (Object_create_defined H) eqn:Hc.
    - rewrite (Happ eq_refl). apply lookup_app_l. destruct Hl; subst; lia.
    - destruct (Hready eq_refl) as ((q & Hq & _) & HPI).
      assert (PrototypalIntermediate E < length h).
      { apply own_prop_lookup in Hq as (? & ? & _). by eapply lookup_lt_Some. }
      apply Hsame; destruct Hl; subst; (lia || done). }
  assert (HDb : hb !! length h = Some D).
  { rewrite Holdb by auto. unfold ha. rewrite lookup_app_r by lia.
    by replace (length h - length h) with 0 by lia. }
  assert (Hstdb : standard_Object_prototype (host_realm H) hb).
  { eapply standard_Object_prototype_same; [exact Hstd|].
    rewrite Holdb by auto. unfold ha. by rewrite lookup_app_l. }
  assert (Hkeepb : keeps_but "prototype" h hb).
  { eapply keeps_but_trans; [apply keeps_but_app|exact Hkeep]. }
  (* the property *)
  destruct (defineProperty_new H E (S (length h)) (ordinary (Some p) []) "x"
              (VNumber 1) hb (S (length h)))
    as (hd & px & Hdef & Hpx & Hvx & Hwx); try done; [lia| |].
  { intros Hfb. cbn [o_proto ordinary].
    replace (S (length hb)) with (chain_fuel h + 3) by (unfold chain_fuel; lia).
    apply (creatable_from_keeps "prototype" h); [|done|by apply Hchain].
    eapply keeps_but_trans; [exact Hkeepb|apply keeps_but_app]. }
  set (hw := hb ++ _) in Hwx.
  assert (Hkeepd : keeps_but "prototype" h hd).
  { apply (keeps_but_write_new _ (S (length h)) "x" _ hw);
      [|done|lia].
    eapply keeps_but_trans; [exact Hkeepb|apply keeps_but_app]. }
  assert (Hlend : length hd = length h + 3).
  { rewrite (writes_length _ _ _ _ Hwx). unfold hw. rewrite length_app. simpl. lia. }
  assert (Hcreate : create H E (VObject p) (VObject (length h)) ha
                    = (Ret (VObject (S (length h))), hd)).
  { rewrite create_with_descriptors by done.
    rewrite (bind_step _ _ _ _ _ Hnew).
    unfold defineProperties. unfold bind at 1. unfold lift.
    rewrite (for_in_keys_literal _ _ _ _ _ (length h) Hstdb) by (done || lia).
    cbn [for_each]. unfold bind.
    rewrite (getv_own _ _ _ (data (VNumber 1))) by (unfold own_prop; by rewrite HDb).
    cbn [p_value data]. by rewrite Hdef. }
  rewrite (bind_step _ _ _ _ _ Hcreate).
  (* the descriptor read back *)
  assert (Hread : exists d he,
    getOwnPropertyDescriptor H E (VObject (S (length h))) "x" hd
    = (Ret (VObject d), he)
    /\ own_prop he d "value" = Some (data (VNumber 1))).
  { unfold getOwnPropertyDescriptor. fold (native_descriptor_read H E).
    destruct (native_descriptor_read H E) eqn:Hnative.
    - rewrite (native_descriptor_of_own _ _ _ _ _ Hpx).
      eexists _, _. split; [done|]. by rewrite own_prop_alloc_new, Hvx.
    - assert (Hb : calls_builtin_hasOwnProperty hd (S (length h))).
      { destruct (Hbuiltin eq_refl) as (fl & fo & Hget & Hfl & Hcall).
        destruct (Hkeepd _ _ Hfl) as (fo' & Hfl' & _ & Hcall' & _).
        exists fl, fo'. split; [|split; [done|congruence]].
        unfold get in *.
        destruct (find_prop h p "hasOwnProperty") as [q|] eqn:Hq; [|discriminate].
        replace (find_prop hd (S (length h)) "hasOwnProperty") with (Some q); [done|].
        symmetry. unfold find_prop, chain_fuel in *. rewrite Hlend.
        replace (length h + 3) with (S (length h + 2)) by lia.
        destruct Hwx as (o0 & ps & Ho0 & -> & Hps & _).
        assert (o0 = ordinary (Some p) []) as ->.
        { unfold hw in Ho0. rewrite lookup_app_l in Ho0 by lia. congruence. }
        simpl. rewrite list_lookup_insert_eq by (by eapply lookup_lt_Some).
        simpl. rewrite Hps by done. simpl.
        by apply (find_prop_from_keeps "prototype" h). }
      rewrite (fallback_descriptor_of_own H _ _ _ _ Hb Hpx).
      eexists _, _. split; [done|]. by rewrite own_prop_alloc_new, Hvx. }
  destruct Hread as (d & he & Hread & Hd).
  rewrite (bind_step _ _ _ _ _ Hread). rewrite (getv_own _ _ _ _ _ Hd). eauto.
Qed.

(** C6, as the code has it.  For an object [P], and for [null] on a host
    with [Object.create], [create(P)] returns a new object, allocated by
    the call, whose prototype link is [P] and which has no own property;
    no other object changes, the bridging constructor apart.
    [getPrototypeOf] of the new object is [P] where it is the native
    function, and where it reads [__proto__] when [P] inherits that
    accessor; the function that reads [constructor.prototype] returns
    [P.constructor.prototype].  On a host without [Object.create],
    [create(null)] returns an object whose prototype is
    [Object.prototype].  With a truthy descriptor map, [create] is
    [defineProperties] applied to that new object.  When
    [getOwnPropertyDescriptor(create(P, {x: 1}), 'x').value] has a value,
    the value is 1, for every [P] and on every host; and it has a value
    for an object [P] on a realm as the host sets it up, with a working
    [Object.defineProperty] where the module uses it, and where the
    module's own functions are used, a [P] under which [x] can be created
    by assignment and whose [hasOwnProperty] is the built-in. *)
Theorem create_spec (H : host) (E : env) (P : value) (h : heap) :
  ((exists p, P = VObject p) \/ (P = VNull /\ Object_create_defined H = true) ->
   (Object_create_defined H = false -> intermediate_ready E h) ->
   exists h1,
     create H E P VUndefined h = (Ret (VObject (length h)), h1)
     /\ h1 !! length h = Some (ordinary (link_of_value P) [])
     /\ (forall l, l < length h -> l <> PrototypalIntermediate E ->
                   h1 !! l = h !! l)
     /\ (Object_getPrototypeOf_defined H = true ->
         getPrototypeOf H E (VObject (length h)) h1 = (Ret P, h1))
     /\ (forall p,
           Object_getPrototypeOf_defined H = false -> PROTO E = true ->
           P = VObject p ->
           finds_accessor (host_realm H) h p "__proto__" = true ->
           getPrototypeOf H E (VObject (length h)) h1 = (Ret P, h1))
     /\ (forall p qc c,
           Object_getPrototypeOf_defined H = false -> PROTO E = false ->
           P = VObject p ->
           find_prop h p "constructor" = Some qc -> p_value qc = VObject c ->
           getPrototypeOf H E (VObject (length h)) h1
           = (Ret (get h1 c "prototype"), h1)))
  /\ (P = VNull -> Object_create_defined H = false -> intermediate_ready E h ->
      exists h1,
        create H E P VUndefined h = (Ret (VObject (length h)), h1)
        /\ h1 !! length h
           = Some (ordinary (Some (ObjectPrototype (host_realm H))) []))
  /\ (forall D, ToBoolean D = true ->
        create H E P D h
        = (let* o := create H E P VUndefined in defineProperties H E o D) h)
  /\ (forall v h', create_x_scenario H E P h = (Ret v, h') -> v = VNumber 1)
  /\ (forall p,
        P = VObject p ->
        standard_Object_prototype (host_realm H) h ->
        (Object_create_defined H = false ->
         intermediate_ready E h
         /\ PrototypalIntermediate E <> ObjectPrototype (host_realm H)) ->
        (native_property H E = true -> Object_defineProperty_support H = Working) ->
        (native_property H E = false ->
         creatable_from (chain_fuel h) h (Some p) "x" = true) ->
        (native_descriptor_read H E = false -> calls_builtin_hasOwnProperty h p) ->
        exists h', create_x_scenario H E P h = (Ret (VNumber 1), h')).
Proof.
  split; [|split; [|split; [|split]]].
  - intros HP Hready.
    destruct (create_object_spec H E P h HP Hready)
      as (h1 & Hrun & Hnew & Hlen & Hsame & Hkeep & _).
    exists h1. rewrite create_without_descriptors.
    split; [done|]. split; [done|]. split; [done|]. split; [|split].
    + intros Hnative.
      assert (Hreads : reads_link H E h1 (length h) = true)
        by (unfold reads_link; by rewrite Hnative).
      rewrite (getPrototypeOf_exact _ _ _ _ _ Hreads Hnew).
      destruct HP as [[p ->]|[-> _]]; reflexivity.
    + intros p Hnative Hlink -> Hfinds.
      assert (Hreads : reads_link H E h1 (length h) = true).
      { unfold reads_link. rewrite Hnative, Hlink. simpl.
        by apply (finds_accessor_new _ "prototype" h _ p). }
      by rewrite (getPrototypeOf_exact _ _ _ _ _ Hreads Hnew).
    + intros p qc c Hnative Hlink -> Hqc Hc.
      unfold getPrototypeOf. rewrite Hnative, Hlink.
      pose proof (find_prop_new "prototype" h h1 p "constructor" qc Hkeep) as Hfind.
      unfold bind. rewrite getv_object by (by apply finds_accessor_key).
      unfold get at 1. rewrite Hfind by done. rewrite Hc.
      by rewrite getv_object by (by apply finds_accessor_key).
  - intros -> Hnative Hready. rewrite create_without_descriptors.
    destruct (create_object_fallback H E VNull h Hnative Hready)
      as (h0 & Hrun & Hwr).
    eexists. split; [exact Hrun|].
    rewrite lookup_app_r by (rewrite (writes_length _ _ _ _ Hwr); lia).
    by rewrite (writes_length _ _ _ _ Hwr), Nat.sub_diag.
  - intros D HD. rewrite create_with_descriptors by done.
    unfold bind. rewrite create_without_descriptors. reflexivity.
  - apply create_x_scenario_value.
  - intros p ->. apply create_x_scenario_returns.
Qed.

Lemma create_spec_witness :
  (exists h1,
     create Examples.legacy_link (Examples.env_of Examples.legacy_link)
       (VObject 4) VUndefined (Examples.heap_of Examples.legacy_link)
     = (Ret (VObject 11), h1)
     /\ h1 !! 11 = Some (ordinary (Some 4) [])
     /\ getPrototypeOf Examples.legacy_link (Examples.env_of Examples.legacy_link)
          (VObject 11) h1 = (Ret (VObject 4), h1))
  /\ (exists h',
        create_x_scenario Examples.modern (Examples.env_of Examples.modern)
          (VObject 4) (Examples.heap_of Examples.modern) = (Ret (VNumber 1), h'))
  /\ (exists h',
        create_x_scenario Examples.legacy (Examples.env_of Examples.legacy)
          (VObject 4) (Examples.heap_of Examples.legacy) = (Ret (VNumber 1), h')).
Proof.
  split; [|split].
  - destruct (create_spec Examples.legacy_link (Examples.env_of Examples.legacy_link)
                (VObject 4) (Examples.heap_of Examples.legacy_link))
      as (Hnew & _).
    destruct Hnew as (h1 & Hrun & Hobj & _ & _ & Hproto & _).
    + left. by exists 4.
    + intros _. eexists. split; reflexivity.
    + exists h1. split; [exact Hrun|]. split; [exact Hobj|].
      by apply (Hproto 4).
  - destruct (create_spec Examples.modern (Examples.env_of Examples.modern)
                (VObject 4) (Examples.heap_of Examples.modern))
      as (_ & _ & _ & _ & Hreturns).
    apply (Hreturns 4); try done.
    eexists. split; [reflexivity|]. split; [reflexivity|].
    simpl.
      repeat (apply List.Forall_cons;
              [split; [reflexivity|];
               intros Hin; apply list_elem_of_In in Hin; simpl in Hin;
               intuition discriminate|]).
      apply List.Forall_nil.
  - destruct (create_spec Examples.legacy (Examples.env_of Examples.legacy)
                (VObject 4) (Examples.heap_of Examples.legacy))
      as (_ & _ & _ & _ & Hreturns).
    apply (Hreturns 4); try done.
    + eexists. split; [reflexivity|]. split; [reflexivity|].
      simpl.
      repeat (apply List.Forall_cons;
              [split; [reflexivity|];
               intros Hin; apply list_elem_of_In in Hin; simpl in Hin;
               intuition discriminate|]).
      apply List.Forall_nil.
    + intros _. split; [|discriminate]. eexists. split; reflexivity.
    + intros _. eexists 2, _. repeat split; reflexivity.
Defined.

(** C6 as stated fails in four ways.  On the host without the built-ins
    but with [__proto__], for [P = null]:
    [new PrototypalIntermediate()] with a [prototype] that is not an
    object gives an object whose prototype is [Object.prototype].  On the
    host without the built-ins, for a plain object [P], [getPrototypeOf]
    reads [object.constructor.prototype]: the answer is
    [Object.prototype], not [P].  On a host with [Object.create] and
    [__proto__] but without [Object.getPrototypeOf], for [P = null]: the
    new object inherits no accessor and [getPrototypeOf] is [undefined].
    And on the host without the built-ins, for a [P] with a read-only
    property [x]: [create(P, {x: 1})] throws, the assignment of [x] being
    refused. *)
Lemma create_prototype_counterexample :
  (exists o h1,
     create Examples.legacy_link (Examples.env_of Examples.legacy_link)
       VNull VUndefined (Examples.heap_of Examples.legacy_link) = (Ret o, h1)
     /\ getPrototypeOf Examples.legacy_link (Examples.env_of Examples.legacy_link)
          o h1 = (Ret (VObject 0), h1)
     /\ VObject 0 <> VNull)
  /\ (exists o h1,
        create Examples.legacy (Examples.env_of Examples.legacy)
          (VObject 4) VUndefined (Examples.heap_of Examples.legacy) = (Ret o, h1)
        /\ getPrototypeOf Examples.legacy (Examples.env_of Examples.legacy)
             o h1 = (Ret (VObject 0), h1)
        /\ VObject 0 <> VObject 4)
  /\ (exists o h1,
        create MoreExamples.create_only (Examples.env_of MoreExamples.create_only)
          VNull VUndefined (Examples.heap_of MoreExamples.create_only) = (Ret o, h1)
        /\ getPrototypeOf MoreExamples.create_only
             (Examples.env_of MoreExamples.create_only) o h1 = (Ret VUndefined, h1)
        /\ VUndefined <> VNull)
  /\ (exists h',
        get (MoreExamples.with_readonly (Examples.heap_of Examples.legacy)) 11 "x"
        = VNumber 0
        /\ create_x_scenario Examples.legacy (Examples.env_of Examples.legacy)
             (VObject 11)
             (MoreExamples.with_readonly (Examples.heap_of Examples.legacy))
           = (Throw TypeError, h')).
Proof.
  split; [|split; [|split]];
    try (do 2 eexists; (split; [reflexivity|]); (split; [reflexivity|discriminate])).
  eexists. split; reflexivity.
Qed.

(** *** assign: what is copied *)

Lemma set_data_Ret_old l k x h u h' q :
  set_data l k x h = (Ret u, h') -> own_prop h l k = Some q -> p_writable q = true.
Proof.
  unfold set_data, own_prop. destruct (h !! l) as [o|]; [|discriminate].
  intros Hrun Hq. rewrite Hq in Hrun. by destruct (p_writable q).
Qed.

Lemma copy_key_spec R guard t from k0 h u h' :
  copy_key R guard t from k0 h = (Ret u, h') ->
  length h' = length h
  /\ (forall l, l <> t -> h' !! l = h !! l)
  /\ (forall k, own_prop h' from k = own_prop h from k)
  /\ (forall p, ordinary_key R k0 = true ->
        own_prop h from k0 = Some p -> guard p = true ->
        exists p', own_prop h' t k0 = Some p' /\ p_value p' = p_value p)
  /\ (forall k, k <> k0 \/ (forall p, own_prop h from k0 = Some p -> guard p = false) ->
        own_prop h' t k = own_prop h t k)
  /\ (forall k p, own_prop h t k = Some p ->
        exists p', own_prop h' t k = Some p' /\ p_enumerable p' = p_enumerable p)
  /\ (proto_accessor R = false \/ k0 <> "__proto__"
      \/ (forall p, own_prop h from k0 = Some p -> guard p = false) ->
      proto_of h' t = proto_of h t).
Proof.
  unfold copy_key.
  match goal with
  | |- _ -> ?G =>
      assert (Hskip : (Ret tt, h) = (Ret u, h') ->
                (forall p, own_prop h from k0 = Some p -> guard p = false) -> G)
  end.
  { intros Heq Hno. assert (h' = h) as -> by congruence.
    repeat split; try done; eauto.
    intros p _ Hp Hg. rewrite (Hno _ Hp) in Hg. discriminate. }
  destruct (own_prop h from k0) as [p|] eqn:Hfrom; [|intros Hrun; by apply Hskip].
  destruct (guard p) eqn:Hguard;
    [|intros Hrun; apply Hskip; [done|by intros p' [= <-]]].
  clear Hskip. intros Hrun.
  destruct (finds_accessor R h t k0) eqn:Hfinds.
  - (* the setter of the accessor runs *)
    rewrite (set_own_link _ _ _ _ _ Hfinds) in Hrun.
    apply finds_accessor_true in Hfinds as (-> & HR & Hnone).
    apply set_link_frame in Hrun as (Hlen & Hoth & Hown).
    split; [done|]. split; [done|]. split; [done|].
    split; [intros p0 Hk; unfold ordinary_key in Hk; by rewrite HR in Hk|].
    split; [done|]. split; [intros k q Hq; rewrite Hown; eauto|].
    intros [?|[?|Hno]]; [congruence|done|].
    rewrite (Hno _ eq_refl) in Hguard. discriminate.
  - rewrite set_own_plain in Hrun by done.
    pose proof (fun q => set_data_Ret_old _ _ _ _ _ _ q Hrun) as Hold.
    pose proof (set_data_frame _ _ _ _ _ _ Hrun) as (_ & _ & _ & Hproto).
    apply set_data_Ret in Hrun as (Hw & p' & Hp' & Hv' & Hw' & Hattrs).
    split; [by eapply writes_length|].
    split; [intros l Hl; by eapply writes_other|].
    split; [|split; [|split; [|split]]].
    + intros k. destruct (decide (from = t /\ k = k0)) as [[-> ->]|Hne].
      * rewrite Hfrom in Hattrs, Hold. destruct Hattrs as [He Hc].
        specialize (Hold _ eq_refl). rewrite Hp'. f_equal.
        destruct p, p'; simpl in *; congruence.
      * apply (writes_own_prop _ _ _ _ _ _ Hw).
        destruct (decide (from = t)); destruct (decide (k = k0)); tauto.
    + intros p0 _ [= <-] _. eauto.
    + intros k [Hk|Hno]; [|rewrite (Hno _ eq_refl) in Hguard; discriminate].
      apply (writes_own_prop _ _ _ _ _ _ Hw). by right.
    + intros k q Hq. destruct (decide (k = k0)) as [->|Hk].
      * rewrite Hq in Hattrs. destruct Hattrs as [He _]. eauto.
      * exists q. split; [|done].
        rewrite (writes_own_prop _ _ _ _ _ _ Hw); [done|by right].
    + intros _. apply Hproto.
Qed.

Lemma copy_keys_spec R guard t from keys :
  forall h u h',
    for_each (copy_key R guard t from) keys h = (Ret u, h') ->
    length h' = length h
    /\ (forall l, l <> t -> h' !! l = h !! l)
    /\ (forall k, own_prop h' from k = own_prop h from k)
    /\ (forall k p, ordinary_key R k = true -> k ∈ keys ->
          own_prop h from k = Some p -> guard p = true ->
          exists p', own_prop h' t k = Some p' /\ p_value p' = p_value p)
    /\ (forall k, k ∉ keys \/ (forall p, own_prop h from k = Some p -> guard p = false) ->
          own_prop h' t k = own_prop h t k)
    /\ (forall k p, own_prop h t k = Some p ->
          exists p', own_prop h' t k = Some p' /\ p_enumerable p' = p_enumerable p)
    /\ (proto_accessor R = false \/ "__proto__" ∉ keys
        \/ (forall p, own_prop h from "__proto__" = Some p -> guard p = false) ->
        proto_of h' t = proto_of h t).
Proof.
  induction keys as [|k0 keys IH]; intros h u h' Hrun.
  - injection Hrun as _ <-. repeat split; try done; eauto.
    intros k p _ Hin. by apply not_elem_of_nil in Hin.
  - simpl in Hrun. apply bind_Ret_inv in Hrun as ([] & h1 & Hstep & Hrest).
    apply copy_key_spec in Hstep
      as (Hlen1 & Hoth1 & Hfrom1 & Hcopy1 & Hframe1 & Hkeep1 & Hlink1).
    apply IH in Hrest as (Hlen2 & Hoth2 & Hfrom2 & Hcopy2 & Hframe2 & Hkeep2 & Hlink2).
    split; [congruence|].
    split; [intros l Hl; rewrite Hoth2, Hoth1; done|].
    split; [intros k; rewrite Hfrom2, Hfrom1; done|].
    split; [|split; [|split]].
    + intros k p Hk Hin Hp Hg. destruct (decide (k ∈ keys)) as [Hin'|Hin'].
      * apply (Hcopy2 k p Hk Hin'); [by rewrite Hfrom1|done].
      * apply elem_of_cons in Hin as [->|?]; [|done].
        rewrite Hframe2 by (by left). by apply Hcopy1.
    + intros k Hk. rewrite Hframe2, Hframe1; [done| |].
      * destruct (decide (k = k0)) as [->|Hne]; [|by left].
        right. destruct Hk as [Hk|Hk]; [|done].
        destruct Hk. apply elem_of_cons. by left.
      * destruct Hk as [Hk|Hk].
        -- left. intros Hin. apply Hk. apply elem_of_cons. by right.
        -- right. intros p. rewrite Hfrom1. apply Hk.
    + intros k p Hp. destruct (Hkeep1 _ _ Hp) as (p1 & Hp1 & He1).
      destruct (Hkeep2 _ _ Hp1) as (p2 & Hp2 & He2).
      exists p2. split; [done|congruence].
    + intros Hcase. rewrite Hlink2, Hlink1; [done| |].
      * destruct Hcase as [?|[Hnotin|Hno]]; [by left| |].
        -- right. left. intros ->. apply Hnotin, elem_of_cons. by left.
        -- destruct (decide (k0 = "__proto__")) as [->|?]; [|by right; left].
           right. right. exact Hno.
      * destruct Hcase as [?|[Hnotin|Hno]]; [by left| |].
        -- right. left. intros Hin. apply Hnotin, elem_of_cons. by right.
        -- right. right. intros p. rewrite Hfrom1. apply Hno.
Qed.

Lemma for_each_Ret_mono {A} (body1 body2 : A -> M unit) l :
  (forall x h u h', body1 x h = (Ret u, h') -> body2 x h = (Ret u, h')) ->
  forall h u h', for_each body1 l h = (Ret u, h') -> for_each body2 l h = (Ret u, h').
Proof.
  intros Hbody. induction l as [|x l IH]; intros h u h' Hrun; [done|].
  simpl in *. apply bind_Ret_inv in Hrun as (u1 & h1 & Hx & Hl).
  rewrite (bind_step _ _ _ _ _ (Hbody _ _ _ _ Hx)). by apply IH.
Qed.

(** The loop body of the function written in the module, when it returns,
    is a turn of the copy loop that accepts every own property. *)
Lemma shim_body_copy_key R t from k h u h' :
  (let* own := call_hasOwnProperty R (VObject from) k in
   if ToBoolean own
   then let* v := getv R (VObject from) k in putv R (VObject t) k v
   else ret tt) h = (Ret u, h') ->
  copy_key R (fun _ => true) t from k h = (Ret u, h').
Proof.
  intros Hrun. apply bind_Ret_inv in Hrun as (b & h0 & Hb & Hrun).
  apply call_hasOwnProperty_Ret in Hb as (-> & ->).
  unfold copy_key. simpl in Hrun.
  destruct (own_prop h from k) as [p|] eqn:Hown.
  - rewrite bool_decide_true in Hrun by eauto.
    unfold bind in Hrun. rewrite (getv_own _ _ _ _ _ Hown) in Hrun.
    exact Hrun.
  - rewrite bool_decide_false in Hrun by (by intros [? ?]). exact Hrun.
Qed.

(** The loop body of [Object.assign] is a turn of the copy loop that
    accepts the enumerable properties. *)
Lemma native_body_copy_key R t from k h :
  (let* desc := lift (fun h => Ret (own_prop h from k)) in
   match desc with
   | Some p =>
       if p_enumerable p
       then let* propValue := getv R (VObject from) k in set_own R t k propValue
       else ret tt
   | None => ret tt
   end) h
  = copy_key R p_enumerable t from k h.
Proof.
  unfold copy_key, bind, lift.
  destruct (own_prop h from k) as [p|] eqn:Hown; [|done].
  destruct (p_enumerable p); [|done].
  by rewrite (getv_own _ _ _ _ _ Hown).
Qed.

Lemma ToObject_source R v h :
  is_nullish v = false -> allocated h v ->
  exists from h1,
    ToObject R v h = (Ret from, h1)
    /\ from < length h1
    /\ length h <= length h1
    /\ (forall l, l < length h -> h1 !! l = h !! l)
    /\ (forall k, own_prop h1 from k = source_own h v k).
Proof.
  intros Hv Hlive.
  destruct v as [| |b|n|s|l]; try discriminate;
    try (eexists (length h), _; split; [reflexivity|];
         split; [rewrite length_app; simpl; lia|];
         split; [rewrite length_app; simpl; lia|];
         split; [intros l Hl; by rewrite lookup_app_l|];
         intros k; by rewrite own_prop_alloc_new).
  exists l, h. simpl in Hlive. repeat split; (done || lia).
Qed.

Lemma Object_call_source R v h :
  allocated h v ->
  exists from h1,
    Object_call R v h = (Ret (VObject from), h1)
    /\ from < length h1
    /\ length h <= length h1
    /\ (forall l, l < length h -> h1 !! l = h !! l)
    /\ (forall k, own_prop h1 from k = source_own h v k).
Proof.
  intros Hlive. destruct (is_nullish v) eqn:Hv.
  - exists (length h), (h ++ [ordinary (Some (ObjectPrototype R)) []]).
    split; [by destruct v|].
    split; [rewrite length_app; simpl; lia|].
    split; [rewrite length_app; simpl; lia|].
    split; [intros l Hl; by rewrite lookup_app_l|].
    intros k. rewrite own_prop_alloc_new. by destruct v.
  - destruct (ToObject_source R v h Hv Hlive) as (from & h1 & Hrun & Hrest).
    exists from, h1. split; [|done].
    destruct v; try discriminate; unfold Object_call;
      by rewrite (bind_step _ _ _ _ _ Hrun).
Qed.

Lemma copied_of_copy_keys R guard t v from keys h h1 u h' :
  t < length h ->
  length h <= length h1 ->
  (forall l, l < length h -> h1 !! l = h !! l) ->
  (forall k, own_prop h1 from k = source_own h v k) ->
  (forall k p, own_prop h1 from k = Some p ->
     if p_enumerable p then k ∈ keys /\ guard p = true
     else k ∉ keys \/ guard p = false) ->
  for_each (copy_key R guard t from) keys h1 = (Ret u, h') ->
  copied R t v h h'.
Proof.
  intros Ht Hlen Hold Hsrc Hkeys Hrun.
  apply copy_keys_spec in Hrun as (Hlen' & Hoth & _ & Hcopy & Hframe & Hkeep & Hlink).
  assert (Htarget : forall k, own_prop h1 t k = own_prop h t k)
    by (intros k; unfold own_prop; by rewrite Hold).
  split; [lia|].
  split; [intros l Hl Hne; by rewrite Hoth, Hold|].
  split; [intros k p Hp; apply Hkeep; by rewrite Htarget|].
  split; [|split].
  - intros k x Hk. unfold source_value. rewrite <- Hsrc.
    destruct (own_prop h1 from k) as [p|] eqn:Hp; [|discriminate].
    specialize (Hkeys _ _ Hp).
    destruct (p_enumerable p); [|discriminate]. intros [= <-].
    destruct Hkeys as [Hin Hg]. by apply (Hcopy k p).
  - intros k. unfold source_value. rewrite <- Hsrc, <- Htarget.
    destruct (own_prop h1 from k) as [p|] eqn:Hp.
    + specialize (Hkeys _ _ Hp).
      destruct (p_enumerable p); [discriminate|]. intros _. apply Hframe.
      destruct Hkeys as [Hk|Hg]; [by left|].
      right. intros p' Hp'. congruence.
    + intros _. apply Hframe. right. intros p' Hp'. congruence.
  - intros Hcase.
    assert (Hproto1 : proto_of h1 t = proto_of h t)
      by (unfold proto_of; by rewrite Hold).
    rewrite <- Hproto1. apply Hlink.
    destruct Hcase as [?|Hnone]; [by left|]. right.
    unfold source_value in Hnone. rewrite <- Hsrc in Hnone.
    destruct (own_prop h1 from "__proto__") as [p|] eqn:Hp;
      [|right; intros p' Hp'; congruence].
    specialize (Hkeys _ _ Hp).
    destruct (p_enumerable p); [discriminate|].
    destruct Hkeys as [?|Hg]; [by left|].
    right. intros p' Hp'. congruence.
Qed.

(** One source of the function written in the module. *)
Lemma assign_shim_step (H : host) t argument h u h' :
  t < length h -> allocated h argument ->
  (let* source := Object_call (host_realm H) argument in
   let* keys := lift (fun h => Ret (for_in_keys (host_realm H) h source)) in
   for_each
     (fun property =>
        let* own := call_hasOwnProperty (host_realm H) source property in
        if ToBoolean own
        then let* v := getv (host_realm H) source property in
             putv (host_realm H) (VObject t) property v
        else ret tt)
     keys) h = (Ret u, h') ->
  copied (host_realm H) t argument h h'.
Proof.
  intros Ht Hlive Hrun.
  destruct (Object_call_source (host_realm H) argument h Hlive)
    as (from & h1 & Hcall & Hfrom & Hlen & Hold & Hsrc).
  rewrite (bind_step _ _ _ _ _ Hcall) in Hrun.
  unfold bind at 1 in Hrun. unfold lift in Hrun.
  apply (for_each_Ret_mono _ (copy_key (host_realm H) (fun _ => true) t from)) in Hrun;
    [|intros; by apply (shim_body_copy_key (host_realm H))].
  eapply copied_of_copy_keys; try eassumption.
  intros k p Hp. pose proof (for_in_own (host_realm H) _ _ _ _ Hp) as Hiff.
  destruct (p_enumerable p).
  - split; [by apply Hiff|done].
  - left. intros Hin. apply Hiff in Hin. discriminate.
Qed.

(** One source of [Object.assign]. *)
Lemma assign_native_step R t nextSource h u h' :
  t < length h -> allocated h nextSource ->
  assign_from R t nextSource h = (Ret u, h') ->
  copied R t nextSource h h'.
Proof.
  intros Ht Hlive. unfold assign_from.
  destruct (is_nullish nextSource) eqn:Hnull.
  - intros Hrun. assert (h' = h) as -> by (by injection Hrun).
    repeat split; try done; eauto.
    intros k v _. unfold source_value. by destruct nextSource.
  - intros Hrun.
    destruct (ToObject_source R nextSource h Hnull Hlive)
      as (from & h1 & Hcall & Hfrom & Hlen & Hold & Hsrc).
    rewrite (bind_step _ _ _ _ _ Hcall) in Hrun.
    unfold bind at 1 in Hrun. unfold lift at 1 in Hrun.
    apply (for_each_Ret_mono _ (copy_key R p_enumerable t from)) in Hrun;
      [|intros x h2 u2 h2'; by rewrite native_body_copy_key].
    eapply copied_of_copy_keys; try eassumption.
    intros k p Hp. destruct (p_enumerable p) eqn:He; [|by right].
    split; [|done].
    destruct (own_prop_lookup _ _ _ _ Hp) as (o & -> & Hk). simpl.
    by eapply assoc_Some_key.
Qed.

Lemma allocated_mono h h1 v : length h <= length h1 -> allocated h v -> allocated h1 v.
Proof. intros Hlen. destruct v; simpl; try done. lia. Qed.

Lemma source_value_stable t v h h' :
  allocated h v -> v <> VObject t ->
  (forall l, l < length h -> l <> t -> h' !! l = h !! l) ->
  forall k, source_value h' v k = source_value h v k.
Proof.
  intros Hlive Hne Hold k. destruct v as [| | | | |l]; try done.
  unfold source_value, source_own, own_prop. simpl in Hlive.
  rewrite Hold; [done|done|congruence].
Qed.

(** The loop over the sources, for any body that copies one source. *)
Lemma assign_loop_spec R t (step : value -> M unit) :
  (forall source h u h', t < length h -> allocated h source ->
     step source h = (Ret u, h') -> copied R t source h h') ->
  forall sources h u h',
    t < length h -> Forall (allocated h) sources ->
    for_each step sources h = (Ret u, h') ->
    length h <= length h'
    /\ (forall l, l < length h -> l <> t -> h' !! l = h !! l)
    /\ (forall k p, own_prop h t k = Some p ->
          exists p', own_prop h' t k = Some p' /\ p_enumerable p' = p_enumerable p)
    /\ (forall k v, ordinary_key R k = true -> last_value h' sources k = Some v ->
          exists p, own_prop h' t k = Some p /\ p_value p = v)
    /\ (forall k, last_value h' sources k = None -> own_prop h' t k = own_prop h t k)
    /\ (proto_accessor R = false \/ last_value h' sources "__proto__" = None ->
        proto_of h' t = proto_of h t).
Proof.
  intros Hstep. induction sources as [|source rest IH]; intros h u h' Ht Hlive Hrun.
  - assert (h' = h) as -> by (by injection Hrun).
    repeat split; try done; eauto.
  - simpl in Hrun. apply bind_Ret_inv in Hrun as ([] & h1 & Hone & Hrest).
    apply Forall_cons in Hlive as [Hsrc Hlive].
    apply Hstep in Hone as (Hlen1 & Hoth1 & Hkeep1 & Hcopy1 & Hframe1 & Hlink1);
      [|done|done].
    apply IH in Hrest as (Hlen2 & Hoth2 & Hkeep2 & Hlast2 & Hnone2 & Hlink2);
      [|lia|by eapply Forall_impl; [|intros v; apply allocated_mono]].
    assert (Hoth : forall l, l < length h -> l <> t -> h' !! l = h !! l).
    { intros l Hl Hne. rewrite Hoth2 by (done || lia). by apply Hoth1. }
    assert (Hkeep : forall k p, own_prop h t k = Some p ->
      exists p', own_prop h' t k = Some p' /\ p_enumerable p' = p_enumerable p).
    { intros k p Hp. destruct (Hkeep1 _ _ Hp) as (p1 & Hp1 & He1).
      destruct (Hkeep2 _ _ Hp1) as (p2 & Hp2 & He2).
      exists p2. split; [done|congruence]. }
    assert (Hsource : forall k, source_value h' source k = None ->
                                source_value h source k = None).
    { intros k Hv. destruct (decide (source = VObject t)) as [->|Hne].
      - unfold source_value, source_own in *.
        destruct (own_prop h t k) as [p|] eqn:Hp; [|done].
        destruct (Hkeep _ _ Hp) as (p' & Hp' & He'). rewrite Hp' in Hv.
        rewrite He' in Hv. by destruct (p_enumerable p).
      - by rewrite (source_value_stable t _ h h') in Hv. }
    split; [lia|]. split; [done|]. split; [done|].
    split; [|split].
    + intros k v Hk. simpl.
      destruct (last_value h' rest k) as [v'|] eqn:Hrestk.
      * intros [= <-]. by apply Hlast2.
      * intros Hv. destruct (decide (source = VObject t)) as [->|Hne].
        -- unfold source_value, source_own in Hv.
           destruct (own_prop h' t k) as [p|]; [|discriminate].
           destruct (p_enumerable p); [|discriminate].
           injection Hv as <-. eauto.
        -- rewrite (source_value_stable t _ h h') in Hv by done.
           rewrite (Hnone2 _ Hrestk). by apply Hcopy1.
    + intros k. simpl.
      destruct (last_value h' rest k) as [v'|] eqn:Hrestk; [discriminate|].
      intros Hv. rewrite (Hnone2 _ Hrestk). by apply Hframe1, Hsource.
    + simpl. intros Hcase. rewrite Hlink2, Hlink1; [done| |].
      * destruct Hcase as [?|Hnone]; [by left|]. right. apply Hsource.
        by destruct (last_value h' rest "__proto__").
      * destruct Hcase as [?|Hnone]; [by left|]. right.
        by destruct (last_value h' rest "__proto__").
Qed.

(** C1, as the code has it.  For a target that is an object, when
    [assign(target, ...sources)] returns it returns the target itself;
    every key that is an own enumerable property of some source (of its
    wrapper, for a primitive one) is then an own property of the target,
    with the value of that key in the last source that has it, the key
    [__proto__] apart on a host with that accessor; a key that no source
    has as an own enumerable property is left as it was on the target, so
    inherited properties are not copied; no object other than the target
    is changed; and the prototype of the target is the one it had, unless
    a source has [__proto__] as an own enumerable property on a host with
    the accessor.  Where the target is not among the sources, the values
    are those the sources had before the call.  A source on which
    [hasOwnProperty] is not the built-in function is not covered: the
    call of such a function is not modelled. *)
Theorem assign_copies_own_enumerable (H : host) (t : loc) (sources : list value)
    (h h' : heap) (r : value) :
  t < length h ->
  Forall (allocated h) sources ->
  assign H (VObject t) sources h = (Ret r, h') ->
  r = VObject t
  /\ (forall k v, ordinary_key (host_realm H) k = true ->
        last_value h' sources k = Some v ->
        exists p, own_prop h' t k = Some p /\ p_value p = v /\ get h' t k = v)
  /\ (forall k, last_value h' sources k = None -> own_prop h' t k = own_prop h t k)
  /\ (forall l, l < length h -> l <> t -> h' !! l = h !! l)
  /\ (proto_accessor (host_realm H) = false
      \/ last_value h' sources "__proto__" = None ->
      proto_of h' t = proto_of h t)
  /\ (VObject t ∉ sources ->
      forall k, last_value h' sources k = last_value h sources k).
Proof.
  intros Ht Hlive Hrun.
  assert (Hloop : r = VObject t /\ exists step u,
    (forall source h u h', t < length h -> allocated h source ->
       step source h = (Ret u, h') -> copied (host_realm H) t source h h')
    /\ for_each step sources h = (Ret u, h')).
  { unfold assign in Hrun. destruct (Object_assign_defined H).
    - unfold Object_assign in Hrun.
      apply bind_Ret_inv in Hrun as (to & h0 & Hto & Hrun).
      assert (to = t /\ h0 = h) as [-> ->] by (by injection Hto).
      apply bind_Ret_inv in Hrun as (u & h1 & Hfor & Hret).
      assert (r = VObject t /\ h1 = h') as [-> ->] by (by injection Hret).
      split; [done|]. eexists _, u. split; [|exact Hfor].
      intros. by eapply assign_native_step.
    - unfold assign_shim in Hrun. cbn [is_nullish] in Hrun.
      apply bind_Ret_inv in Hrun as (output & h0 & Hout & Hrun).
      assert (output = VObject t /\ h0 = h) as [-> ->] by (by injection Hout).
      apply bind_Ret_inv in Hrun as (u & h1 & Hfor & Hret).
      assert (r = VObject t /\ h1 = h') as [-> ->] by (by injection Hret).
      split; [done|]. eexists _, u. split; [|exact Hfor].
      intros source h0 u0 h0' Ht0 Hl0 Hs0.
      exact (assign_shim_step H t source h0 u0 h0' Ht0 Hl0 Hs0). }
  destruct Hloop as (-> & step & u & Hstep & Hfor).
  destruct (assign_loop_spec _ t step Hstep sources h u h' Ht Hlive Hfor)
    as (_ & Hoth & _ & Hlast & Hnone & Hlink).
  split; [done|]. split; [|split; [done|split; [done|split; [done|]]]].
  - intros k v Hk Hv. destruct (Hlast _ _ Hk Hv) as (p & Hp & Hpv).
    exists p. repeat split; [done|done|]. by rewrite (get_own _ _ _ _ Hp).
  - intros Hnot k. clear Hrun Hfor Hlast Hnone Hlink.
    induction sources as [|source rest IH]; [done|].
    apply Forall_cons in Hlive as [Hsrc Hlive]. simpl.
    rewrite IH; [|done|intros Hin; apply Hnot, elem_of_cons; by right].
    rewrite (source_value_stable t source h h'); [done|done| |done].
    intros ->. apply Hnot, elem_of_cons. by left.
Qed.

Lemma assign_copies_own_enumerable_witness :
  exists h',
    assign Examples.legacy (VObject 13) [VObject 12; VString "ab"]
      (Examples.with_inherited (Examples.heap_of Examples.legacy))
    = (Ret (VObject 13), h')
    /\ get h' 13 "own" = VNumber 3
    /\ get h' 13 "1" = VString "b".
Proof.
  exists (assign Examples.legacy (VObject 13) [VObject 12; VString "ab"]
            (Examples.with_inherited (Examples.heap_of Examples.legacy))).2.
  split; [reflexivity|].
  destruct (assign_copies_own_enumerable Examples.legacy 13
              [VObject 12; VString "ab"]
              (Examples.with_inherited (Examples.heap_of Examples.legacy))
              (assign Examples.legacy (VObject 13) [VObject 12; VString "ab"]
                 (Examples.with_inherited (Examples.heap_of Examples.legacy))).2
              (VObject 13))
    as (_ & Hcopied & _).
  - vm_compute. lia.
  - repeat constructor; vm_compute; lia.
  - reflexivity.
  - split.
    + by destruct (Hcopied "own" (VNumber 3) eq_refl eq_refl) as (p & _ & _ & Hget).
    + by destruct (Hcopied "1" (VString "b") eq_refl eq_refl) as (p & _ & _ & Hget).
Defined.

(** C1 as stated fails for an inherited property: the source at 12 has
    the enumerable key [inh] through its prototype, a [for-in] loop visits
    it, and after [assign] the target has no [inh], on the host without
    [Object.assign] and on the host with it.  A call need not return: the
    target at 11 has a read-only [x], the source at 12 an [x] of its own,
    and [assign] throws a TypeError on either host.  And what a source
    has under the key [__proto__] is not copied on a host with the
    accessor: the source at 11 has an own enumerable [__proto__] that
    holds the object at 4; after [assign] the target has no such property
    and its prototype is the object at 4. *)
Lemma assign_inherited_counterexample :
  for_in_keys Examples.R0 (Examples.with_inherited (Examples.heap_of Examples.legacy))
    (VObject 12) = ["own"; "inh"]
  /\ get (Examples.with_inherited (Examples.heap_of Examples.legacy)) 12 "inh"
     = VNumber 7
  /\ (exists h',
        assign Examples.legacy (VObject 13) [VObject 12]
          (Examples.with_inherited (Examples.heap_of Examples.legacy))
        = (Ret (VObject 13), h')
        /\ get h' 13 "own" = VNumber 3
        /\ has_property h' 13 "inh" = false)
  /\ (exists h',
        assign Examples.modern (VObject 13) [VObject 12]
          (Examples.with_inherited (Examples.heap_of Examples.modern))
        = (Ret (VObject 13), h')
        /\ get h' 13 "own" = VNumber 3
        /\ has_property h' 13 "inh" = false)
  /\ (exists h1 h2,
        assign Examples.legacy (VObject 11) [VObject 12]
          (MoreExamples.with_x
             (MoreExamples.with_readonly (Examples.heap_of Examples.legacy)))
        = (Throw TypeError, h1)
        /\ assign Examples.modern (VObject 11) [VObject 12]
             (MoreExamples.with_x
                (MoreExamples.with_readonly (Examples.heap_of Examples.modern)))
           = (Throw TypeError, h2))
  /\ (let h := MoreExamples.with_proto_key (Examples.heap_of Examples.modern) in
      source_value h (VObject 11) "__proto__" = Some (VObject 4)
      /\ proto_of h 5 = Some 0
      /\ exists h',
           assign Examples.modern (VObject 5) [VObject 11] h = (Ret (VObject 5), h')
           /\ own_prop h' 5 "__proto__" = None
           /\ proto_of h' 5 = Some 4).
Proof.
  split; [reflexivity|]. split; [reflexivity|].
  split; [eexists; (split; [reflexivity|]); split; reflexivity|].
  split; [eexists; (split; [reflexivity|]); split; reflexivity|].
  split; [do 2 eexists; split; reflexivity|].
  split; [reflexivity|]. split; [reflexivity|].
  eexists. split; [reflexivity|]. split; reflexivity.
Qed.

(** [assign] on a primitive target returns the wrapper that [Object(...)]
    allocates, not the target. *)
Lemma assign_primitive_target_returns_wrapper :
  (assign Examples.legacy (VNumber 5) [] (Examples.heap_of Examples.legacy)).1
    = Ret (VObject 11)
  /\ (assign Examples.modern (VNumber 5) [] (Examples.heap_of Examples.modern)).1
    = Ret (VObject 11).
Proof. split; reflexivity. Qed.

(** *** setPrototypeOf on the two working branches *)

Lemma set_proto_Ret R l p h u h' :
  set_proto R l p h = (Ret u, h') ->
  (exists o', h' !! l = Some o' /\ o_proto o' = p)
  /\ set_proto R l p h' = (Ret tt, h').
Proof.
  unfold set_proto. destruct (h !! l) as [o|] eqn:Hl; [|discriminate].
  case_bool_decide as Hsame.
  - intros Heq. assert (h' = h) as -> by congruence.
    split; [eauto|]. by rewrite Hl, bool_decide_true.
  - destruct (o_extensible o); [|discriminate]. simpl.
    case_bool_decide; [discriminate|].
    destruct (on_chain (chain_fuel h) h p l); [discriminate|].
    intros Heq. injection Heq as Heq. subst h'.
    assert (Hnew : <[l:=MkObject p true (o_call o) (o_props o)]> h !! l
                   = Some (MkObject p true (o_call o) (o_props o)))
      by (apply list_lookup_insert_eq; by eapply lookup_lt_Some).
    split; [eauto|]. rewrite Hnew. simpl. by rewrite bool_decide_true.
Qed.

(** X14. A call of [setPrototypeOf(o, P)] that returns can be repeated
    with no effect, and [getPrototypeOf(o)] is then [P] where it reads the
    prototype link: on a host with [Object.setPrototypeOf], and on a host
    with [__proto__] when the assignment [o.__proto__ = P] finds the
    accessor before the call and after it. *)
Lemma setPrototypeOf_idempotent (H : host) (E : env) l P h r h1 :
  Object_setPrototypeOf_defined H = true
  \/ (PROTO E = true
      /\ finds_accessor (host_realm H) h l "__proto__" = true
      /\ finds_accessor (host_realm H) h1 l "__proto__" = true) ->
  P = VNull \/ (exists p, P = VObject p) ->
  setPrototypeOf H E (VObject l) P h = (Ret r, h1) ->
  setPrototypeOf H E (VObject l) P h1 = (Ret r, h1)
  /\ (reads_link H E h1 l = true ->
      getPrototypeOf H E (VObject l) h1 = (Ret P, h1)).
Proof.
  intros Hbranch HP. unfold setPrototypeOf.
  assert (Hcore : forall (k : M value) link,
    value_of_proto link = P ->
    (set_proto (host_realm H) l link ;; k) h = (Ret r, h1) ->
    exists h0, k h0 = (Ret r, h1)
    /\ ((forall h2, k h2 = (Ret r, h2)) ->
        (set_proto (host_realm H) l link ;; k) h1 = (Ret r, h1)
        /\ (reads_link H E h1 l = true ->
            getPrototypeOf H E (VObject l) h1 = (Ret P, h1)))).
  { intros k link Hlink Hrun.
    apply bind_Ret_inv in Hrun as ([] & h0 & Hset & Hk).
    exists h0. split; [done|]. intros Hpure.
    assert (h0 = h1) as -> by (rewrite Hpure in Hk; by injection Hk).
    apply set_proto_Ret in Hset as ((o' & Ho' & Hproto) & Hagain).
    split; [by rewrite (bind_step _ _ _ _ _ Hagain)|].
    intros Hexact. rewrite (getPrototypeOf_exact _ _ _ _ _ Hexact Ho').
    by rewrite Hproto, Hlink. }
  destruct (Object_setPrototypeOf_defined H) eqn:Hnative.
  - unfold Object_setPrototypeOf. simpl.
    destruct HP as [->|[p ->]]; intros Hrun.
    + destruct (Hcore (ret (VObject l)) None eq_refl Hrun) as (h0 & Hk & Hrest).
      injection Hk as <- <-. by apply Hrest.
    + destruct (Hcore (ret (VObject l)) (Some p) eq_refl Hrun) as (h0 & Hk & Hrest).
      injection Hk as <- <-. by apply Hrest.
  - destruct Hbranch as [? | (Hlink & Hbefore & Hafter)]; [discriminate|].
    rewrite Hlink.
    assert (Hput : forall (k : M value) h0,
      finds_accessor (host_realm H) h0 l "__proto__" = true ->
      (putv (host_realm H) (VObject l) "__proto__" P ;; k) h0
      = (set_link (host_realm H) l P ;; k) h0).
    { intros k h0 Hf. unfold bind, putv. by rewrite (set_own_link _ _ _ _ _ Hf). }
    rewrite (Hput _ _ Hbefore), (Hput _ _ Hafter).
    destruct HP as [->|[p ->]]; intros Hrun.
    + destruct (Hcore (ret VNull) None eq_refl Hrun) as (h0 & Hk & Hrest).
      injection Hk as <- <-. by apply Hrest.
    + destruct (Hcore (ret (VObject p)) (Some p) eq_refl Hrun) as (h0 & Hk & Hrest).
      injection Hk as <- <-. by apply Hrest.
Qed.

Lemma setPrototypeOf_idempotent_witness :
  exists h1,
    setPrototypeOf Examples.legacy_link (Examples.env_of Examples.legacy_link)
      (VObject 5) (VObject 4) (Examples.heap_of Examples.legacy_link)
    = (Ret (VObject 4), h1)
    /\ setPrototypeOf Examples.legacy_link (Examples.env_of Examples.legacy_link)
         (VObject 5) (VObject 4) h1 = (Ret (VObject 4), h1)
    /\ getPrototypeOf Examples.legacy_link (Examples.env_of Examples.legacy_link)
         (VObject 5) h1 = (Ret (VObject 4), h1).
Proof.
  exists (setPrototypeOf Examples.legacy_link (Examples.env_of Examples.legacy_link)
            (VObject 5) (VObject 4) (Examples.heap_of Examples.legacy_link)).2.
  split; [reflexivity|].
  destruct (setPrototypeOf_idempotent Examples.legacy_link
              (Examples.env_of Examples.legacy_link) 5 (VObject 4)
              (Examples.heap_of Examples.legacy_link) (VObject 4)
              (setPrototypeOf Examples.legacy_link
                 (Examples.env_of Examples.legacy_link)
                 (VObject 5) (VObject 4) (Examples.heap_of Examples.legacy_link)).2)
    as [Hagain Hread].
  - right. split; [reflexivity|]. split; reflexivity.
  - right. by exists 4.
  - reflexivity.
  - split; [exact Hagain|]. by apply Hread.
Defined.

(** Through [__proto__] the repetition is not idempotent for [null]: the
    first [setPrototypeOf(o, null)] cuts the object at 5 off the accessor,
    the second one makes [__proto__] an own property of it, and
    [getPrototypeOf(o)] then returns that property. *)
Lemma setPrototypeOf_null_twice :
  let H := Examples.legacy_link in
  let E := Examples.env_of H in
  exists h1 h2,
    setPrototypeOf H E (VObject 5) VNull (Examples.heap_of H) = (Ret VNull, h1)
    /\ proto_of h1 5 = None
    /\ own_prop h1 5 "__proto__" = None
    /\ getPrototypeOf H E (VObject 5) h1 = (Ret VUndefined, h1)
    /\ setPrototypeOf H E (VObject 5) VNull h1 = (Ret VNull, h2)
    /\ own_prop h2 5 "__proto__" = Some (data VNull).
Proof. do 2 eexists. repeat split; reflexivity. Qed.

(** *** What [factory] sets up *)



(** ** More properties of the module *)

(** *** Runs that may throw *)

Lemma preserves_bind {A B} P (m : M A) (k : A -> M B) :
  preserves P m -> (forall a, preserves P (k a)) -> preserves P (bind m k).
Proof.
  intros Hm Hk h r h'. unfold bind.
  destruct (m h) as [[a|e|] h1] eqn:Hrun; intros Hr HP.
  - eapply Hk; [exact Hr|]. by eapply Hm.
  - injection Hr as <- <-. by eapply Hm.
  - injection Hr as <- <-. by eapply Hm.
Qed.

Lemma preserves_pure {A} P (m : M A) :
  (forall h r h', m h = (r, h') -> h' = h) -> preserves P m.
Proof. intros Hpure h r h' Hrun HP. by rewrite (Hpure _ _ _ Hrun). Qed.

Lemma preserves_for_each {A} P (body : A -> M unit) l :
  (forall x, preserves P (body x)) -> preserves P (for_each body l).
Proof.
  intros Hbody. induction l as [|x l IH]; simpl.
  - apply preserves_pure. by intros h r h' [= _ <-].
  - apply preserves_bind; [apply Hbody|]. intros _. exact IH.
Qed.

(** *** defaults *)

(** X1. [defaults(null, ...)] and [defaults(undefined, ...)] throw a
    TypeError before any source is looked at; the heap is unchanged. *)
Theorem defaults_nullish_target_throws (H : host) (sources : list value) (h : heap) :
  defaults H VNull sources h = (Throw TypeError, h)
  /\ defaults H VUndefined sources h = (Throw TypeError, h).
Proof. split; reflexivity. Qed.

(** The loop of [defaults] over the keys of one source, with a target that
    is [g], the value of the global [target]. *)
Lemma defaults_keys_preserve (H : host) t source keys :
  assoc "target" (globals H) <> Some (VObject t) ->
  forall o n,
    preserves (fun h => h !! t = o /\ length h = n)
      (for_each
         (fun key =>
            let* target := resolve H "target" in
            let* current := getv (host_realm H) target key in
            if strict_equal current VUndefined
            then let* target := resolve H "target" in
                 let* v := getv (host_realm H) source key in
                 putv (host_realm H) target key v
            else ret tt)
         keys).
Proof.
  intros Hglobal o n. apply preserves_for_each. intros key.
  assert (Hresolve : forall h r h', resolve H "target" h = (r, h') -> h' = h).
  { unfold resolve. intros h r h'. by case_matches; intros [= _ <-]. }
  apply preserves_bind; [by apply preserves_pure|]. intros g.
  apply preserves_bind; [apply preserves_pure, getv_heap|]. intros current.
  destruct (strict_equal current VUndefined);
    [|apply preserves_pure; by intros h r h' [= _ <-]].
  intros h r h' Hrun HP. unfold bind at 1 in Hrun. unfold resolve in Hrun.
  destruct (assoc "target" (globals H)) as [g'|] eqn:Hg;
    [|injection Hrun as <- <-; done].
  simpl in Hrun. unfold bind in Hrun.
  destruct (getv (host_realm H) source key h) as [[v|e|] h1] eqn:Hv;
    pose proof (getv_heap _ _ _ _ _ _ Hv) as ->;
    try (injection Hrun as <- <-; done).
  destruct HP as [<- <-].
  apply (putv_other _ _ _ _ t) in Hrun; [done|congruence].
Qed.

(** X2. Unless the global variable [target] happens to be bound to the
    very object that is passed as the first argument, [defaults] never
    changes that object, whatever the sources are and however the call
    ends; it allocates nothing either. *)
Theorem defaults_leaves_argument (H : host) (t : loc) (sources : list value)
    (h h' : heap) (r : outcome value) :
  assoc "target" (globals H) <> Some (VObject t) ->
  defaults H (VObject t) sources h = (r, h') ->
  h' !! t = h !! t /\ length h' = length h.
Proof.
  intros Hglobal Hrun.
  assert (Hkeep : preserves (fun h0 => h0 !! t = h !! t /\ length h0 = length h)
                    (defaults H (VObject t) sources)).
  { unfold defaults. cbn [is_nullish].
    apply preserves_bind; [apply preserves_pure; by intros h0 r0 h0' [= _ <-]|].
    intros output.
    apply preserves_bind; [|intros _; apply preserves_pure; by intros h0 r0 h0' [= _ <-]].
    apply preserves_for_each. intros source.
    apply preserves_bind; [apply preserves_pure; by intros h0 r0 h0' [= _ <-]|].
    intros keys. by apply defaults_keys_preserve. }
  by apply (Hkeep h r h' Hrun).
Qed.

Lemma defaults_leaves_argument_witness :
  let h := Examples.with_a1_a2b2 (Examples.heap_of Examples.legacy) in
  exists h',
    defaults MoreExamples.legacy_with_target (VObject 11) [VObject 12] h
    = (Ret (VObject 11), h')
    /\ h' !! 11 = h !! 11
    /\ get h' 4 "b" = VNumber 2.
Proof.
  intros h.
  exists (defaults MoreExamples.legacy_with_target (VObject 11) [VObject 12] h).2.
  split; [reflexivity|]. split; [|reflexivity].
  apply (defaults_leaves_argument MoreExamples.legacy_with_target 11 [VObject 12] h
           _ (Ret (VObject 11))); [discriminate|reflexivity].
Defined.

(** X3. Where the global scope has no binding for [target], the outcome
    of [defaults] on an object is decided by the sources alone: if none of
    them has a key for a [for-in] loop to visit the call returns its first
    argument, otherwise it throws a ReferenceError; either way the heap is
    the one the call started with. *)
Theorem defaults_without_global_target (H : host) (t : loc) (sources : list value)
    (h : heap) :
  assoc "target" (globals H) = None ->
  defaults H (VObject t) sources h
  = (if keyless (host_realm H) h sources then Ret (VObject t)
     else Throw ReferenceError, h).
Proof.
  intros Hfree.
  assert (Hloop :
    for_each
      (fun source =>
         let* keys := lift (fun h => Ret (for_in_keys (host_realm H) h source)) in
         for_each
           (fun key =>
              let* target := resolve H "target" in
              let* current := getv (host_realm H) target key in
              if strict_equal current VUndefined
              then let* target := resolve H "target" in
                   let* v := getv (host_realm H) source key in
                   putv (host_realm H) target key v
              else ret tt)
           keys)
      sources h
    = (if keyless (host_realm H) h sources then Ret tt else Throw ReferenceError, h)).
  { induction sources as [|source rest IH]; [reflexivity|].
    cbn [for_each]. unfold bind at 1. unfold bind at 1. unfold lift at 1.
    unfold keyless. cbn [forallb]. fold (keyless (host_realm H) h rest).
    destruct (for_in_keys (host_realm H) h source) as [|key keys] eqn:Hkeys.
    - cbn [for_each]. unfold ret at 1. rewrite IH.
      by rewrite bool_decide_true.
    - cbn [for_each]. unfold bind at 1. unfold bind at 1. unfold resolve.
      rewrite Hfree. by rewrite bool_decide_false. }
  unfold defaults. cbn [is_nullish].
  rewrite (bind_step _ _ h (VObject t) h) by reflexivity.
  unfold bind at 1. rewrite Hloop.
  by destruct (keyless (host_realm H) h sources).
Qed.

Lemma defaults_without_global_target_witness :
  defaults Examples.legacy (VObject 4) [VNull; VObject 5; VNumber 3]
    (Examples.heap_of Examples.legacy)
  = (Ret (VObject 4), Examples.heap_of Examples.legacy)
  /\ defaults Examples.legacy (VObject 4) [VNull; VString "a"]
       (Examples.heap_of Examples.legacy)
     = (Throw ReferenceError, Examples.heap_of Examples.legacy).
Proof.
  split.
  - by rewrite (defaults_without_global_target Examples.legacy 4
                  [VNull; VObject 5; VNumber 3] _ eq_refl).
  - by rewrite (defaults_without_global_target Examples.legacy 4
                  [VNull; VString "a"] _ eq_refl).
Defined.

(** *** isDescriptor and defineProperty *)

(** X4. [isDescriptor] returns for objects only, functions included: it
    then tells whether one of the six keys is found on the object or on
    its prototype chain.  For [null], [undefined] and every other
    primitive it throws a TypeError: the test [v != null] guards the first
    [in] only. *)
Theorem isDescriptor_spec (v : value) (h : heap) :
  isDescriptor v h
  = match v with
    | VObject l => (Ret (existsb (has_property h l) descriptor_keys), h)
    | _ => (Throw TypeError, h)
    end.
Proof. destruct v; try reflexivity. apply isDescriptor_object. Qed.

(** X6. A call of [defineProperty] that throws throws a TypeError and has
    changed no object: the heap is the old one, possibly followed by the
    wrapper [{value: v}] the call allocated. *)
Theorem defineProperty_throw_keeps_objects (H : host) (E : env) (object : value)
    (name : string) (v : value) (h h' : heap) (e : exn) :
  defineProperty H E object name v h = (Throw e, h') ->
  e = TypeError
  /\ (h' = h
      \/ h' = h ++ [ordinary (Some (ObjectPrototype (host_realm H)))
                     [("value", data v)]]).
Proof.
  rewrite defineProperty_dispatch.
  destruct (is_full_descriptor h v).
  - intros Hrun. apply property_Throw in Hrun as [-> ->]. auto.
  - case_bool_decide; [intros [= <- <-]; auto|].
    unfold bind. rewrite literal_run. intros Hrun.
    destruct (property H E object name (VObject (length h)) _) as [[r|e'|] h1] eqn:Hp;
      try discriminate.
    injection Hrun as <- <-. apply property_Throw in Hp as [-> ->]. auto.
Qed.

Lemma defineProperty_throw_keeps_objects_witness :
  exists h',
    defineProperty Examples.legacy (Examples.env_of Examples.legacy)
      (VNumber 0) "k" (VNumber 5) (Examples.heap_of Examples.legacy)
    = (Throw TypeError, h')
    /\ h' = Examples.heap_of Examples.legacy
            ++ [ordinary (Some 0) [("value", data (VNumber 5))]].
Proof.
  eexists. split; [reflexivity|].
  destruct (defineProperty_throw_keeps_objects Examples.legacy
              (Examples.env_of Examples.legacy) (VNumber 0) "k" (VNumber 5)
              (Examples.heap_of Examples.legacy) _ TypeError eq_refl)
    as (_ & [Hsame|Hgrown]); [|exact Hgrown].
  apply (f_equal length) in Hsame. vm_compute in Hsame. discriminate.
Defined.

(** X5. What [defineProperty] does with its third argument, for every
    value: an object that is not a function and on which one of the six
    keys is found, own or inherited, goes to [property] as it is; [null]
    makes the call throw a TypeError; any other value [v], a function or
    an object without those keys included, is first wrapped as
    [{value: v}]. *)
Theorem defineProperty_passes_or_wraps (H : host) (E : env) (object : value)
    (name : string) (v : value) (h : heap) :
  defineProperty H E object name v h
  = if is_full_descriptor h v then property H E object name v h
    else if bool_decide (v = VNull) then (Throw TypeError, h)
    else (let* d := literal (host_realm H) [("value", v)] in
          property H E object name d) h.
Proof. apply defineProperty_dispatch. Qed.

(** *** defineProperties *)

Lemma is_primitive_not_descriptor v h :
  is_primitive v = true -> is_full_descriptor h v = false.
Proof. by destruct v. Qed.

(** The loop of [defineProperties] on a target that is an object. *)
Lemma defineProperties_each (H : host) (E : env) o D names :
  forall h u h',
    for_each
      (fun name =>
         let* d := getv (host_realm H) D name in
         defineProperty H E (VObject o) name d ;; ret tt)
      names h = (Ret u, h') ->
    o < length h ->
    length h <= length h'
    /\ (forall l, l < length h -> l <> o -> h' !! l = h !! l)
    /\ (forall k, k ∉ names -> own_prop h' o k = own_prop h o k)
    /\ (forall Dl k p,
          D = VObject Dl -> Dl <> o -> Dl < length h -> k ∈ names ->
          defines_own H E k = true ->
          own_prop h Dl k = Some p -> is_primitive (p_value p) = true ->
          exists q, own_prop h' o k = Some q /\ p_value q = p_value p).
Proof.
  induction names as [|name names IH]; intros h u h' Hrun Ho.
  - assert (h' = h) as -> by (by injection Hrun).
    repeat split; try done. intros Dl k p _ _ _ Hin. by apply not_elem_of_nil in Hin.
  - cbn [for_each] in Hrun. apply bind_Ret_inv in Hrun as ([] & h1 & Hbody & Hrest).
    apply bind_Ret_inv in Hbody as (d & h0 & Hd & Hbody).
    pose proof (getv_heap _ _ _ _ _ _ Hd) as ->.
    apply bind_Ret_inv in Hbody as (r & h2 & Hdef & Hret).
    assert (h2 = h1) as -> by (by injection Hret).
    pose proof (defineProperty_frame _ _ _ _ _ _ _ _ Hdef)
      as (_ & l & [= <-] & Hlen & Hoth1 & Hown1).
    destruct (IH h1 u h' Hrest) as (Hlen' & Hoth & Hkeep & Hdefs); [lia|].
    split; [lia|]. split; [|split].
    + intros l Hl Hne. rewrite Hoth by (done || lia). by apply Hoth1.
    + intros k Hk. rewrite Hkeep.
      * apply Hown1; [done|].
        right. intros ->. apply Hk, elem_of_cons. by left.
      * intros Hin. apply Hk, elem_of_cons. by right.
    + intros Dl k p -> HDo HDl Hin Hplain Hp Hprim.
      assert (Hp1 : own_prop h1 Dl k = Some p) by (rewrite Hown1; auto).
      destruct (decide (k ∈ names)) as [Hin'|Hin'].
      * apply (Hdefs Dl k p); (done || lia).
      * apply elem_of_cons in Hin as [->|?]; [|done].
        apply (defineProperty_Ret _ _ _ _ _ _ _ _ Hplain) in Hdef
          as (_ & l & q & [= <-] & _ & Hq & Hshort).
        rewrite (Hkeep _ Hin'). exists q. split; [done|].
        rewrite (getv_own _ _ _ _ _ Hp) in Hd. injection Hd as <-.
        by apply Hshort, is_primitive_not_descriptor.
Qed.

(** X7. When [defineProperties(object, D)] returns for a target that is
    an object, the target is what it returns, no other object has changed,
    and every own enumerable key of [D] that holds a primitive value is an
    own property of the target with that value, where defining that key
    writes an own property: every key on a host with a working
    [Object.defineProperty], every key but [__proto__] elsewhere.  A map
    without keys to visit makes the call return its first argument
    untouched, whatever that argument is. *)
Theorem defineProperties_spec (H : host) (E : env) (o : loc) (D : value)
    (h : heap) :
  (forall r h', o < length h ->
     defineProperties H E (VObject o) D h = (Ret r, h') ->
     r = VObject o
     /\ (forall l, l < length h -> l <> o -> h' !! l = h !! l)
     /\ (forall Dl k p,
           D = VObject Dl -> Dl <> o -> defines_own H E k = true ->
           own_prop h Dl k = Some p -> p_enumerable p = true ->
           is_primitive (p_value p) = true ->
           exists q, own_prop h' o k = Some q /\ p_value q = p_value p
                     /\ get h' o k = p_value p))
  /\ (forall object, for_in_keys (host_realm H) h D = [] ->
        defineProperties H E object D h = (Ret object, h)).
Proof.
  split.
  - intros r h' Ho Hrun. unfold defineProperties in Hrun.
    apply bind_Ret_inv in Hrun as (names & h0 & Hnames & Hrun).
    assert (names = for_in_keys (host_realm H) h D /\ h0 = h) as [-> ->]
      by (by injection Hnames).
    apply bind_Ret_inv in Hrun as (u & h1 & Hloop & Hret).
    assert (r = VObject o /\ h1 = h') as [-> ->] by (by injection Hret).
    apply defineProperties_each in Hloop as (_ & Hoth & _ & Hdefs); [|done].
    split; [done|]. split; [done|].
    intros Dl k p -> HDo Hplain Hp He Hprim.
    destruct (Hdefs Dl k p eq_refl HDo) as (q & Hq & Hv); try done.
    + apply own_prop_lookup in Hp as (oD & HoD & _). by eapply lookup_lt_Some.
    + by apply (for_in_own (host_realm H) _ _ _ _ Hp).
    + exists q. repeat split; [done|done|]. by rewrite (get_own _ _ _ _ Hq).
  - intros object Hkeys. unfold defineProperties, bind, lift. by rewrite Hkeys.
Qed.

Lemma defineProperties_spec_witness :
  let h := MoreExamples.with_map (Examples.heap_of Examples.modern) in
  (exists h',
     defineProperties Examples.modern (Examples.env_of Examples.modern)
       (VObject 11) (VObject 12) h = (Ret (VObject 11), h')
     /\ get h' 11 "a" = VNumber 1
     /\ get h' 11 "b" = VNumber 2)
  /\ defineProperties Examples.modern (Examples.env_of Examples.modern)
       VNull VUndefined h = (Ret VNull, h).
Proof.
  intros h.
  destruct (defineProperties_spec Examples.modern (Examples.env_of Examples.modern)
              11 (VObject 12) h) as (Hdefined & _).
  destruct (defineProperties_spec Examples.modern (Examples.env_of Examples.modern)
              11 VUndefined h) as (_ & Hempty).
  split; [|by apply Hempty].
  exists (defineProperties Examples.modern (Examples.env_of Examples.modern)
            (VObject 11) (VObject 12) h).2.
  split; [reflexivity|].
  destruct (Hdefined (VObject 11)
              (defineProperties Examples.modern (Examples.env_of Examples.modern)
                 (VObject 11) (VObject 12) h).2) as (_ & _ & Hvalues).
  { vm_compute. lia. }
  { reflexivity. }
  split.
  - by destruct (Hvalues 12 "a" (data (VNumber 1)) eq_refl) as (q & _ & _ & Hget).
  - by destruct (Hvalues 12 "b" (data (VNumber 2)) eq_refl) as (q & _ & _ & Hget).
Defined.

(** *** create *)

Lemma create_falsy_descriptors (H : host) (E : env) P D h :
  ToBoolean D = false -> create H E P D h = create_object H E P h.
Proof. intros HD. unfold create. rewrite HD. apply bind_ret_r. Qed.

Lemma create_object_ready (H : host) (E : env) P h ov h1 :
  create_object H E P h = (Ret ov, h1) ->
  intermediate_ready E h -> intermediate_ready E h1.
Proof.
  intros Hrun (q & Hq & Hw).
  assert (HPI : PrototypalIntermediate E < length h).
  { apply own_prop_lookup in Hq as (o & Ho & _). by eapply lookup_lt_Some. }
  unfold create_object in Hrun. destruct (Object_create_defined H).
  - unfold Object_create in Hrun.
    destruct P as [| | | | |p]; try discriminate; injection Hrun as <- <-;
      exists q; by rewrite own_prop_alloc.
  - apply bind_Ret_inv in Hrun as ([] & h0 & Hput & Hnew).
    destruct (set_own_writable (host_realm H) _ _ P _ _ Hq Hw)
      as (hs & Hset & Hwr & p & Hp & _ & Hpw).
    cbn [putv] in Hput. rewrite Hset in Hput. injection Hput as <-.
    pose proof (writes_length _ _ _ _ Hwr) as Hlen.
    unfold construct_empty in Hnew.
    apply bind_Ret_inv in Hnew as (pv & h0' & Hpv & Hnew).
    pose proof (getv_heap _ _ _ _ _ _ Hpv) as ->.
    injection Hnew as <- <-. exists p. split; [|done].
    rewrite own_prop_alloc by lia. done.
Qed.

(** X8. [create] keeps the bridging constructor usable: if
    [PrototypalIntermediate] has a writable own [prototype] before a call
    of [create] that returns, with or without a descriptor map, it has
    one afterwards, so the next call can assign it again. *)
Theorem create_keeps_intermediate_ready (H : host) (E : env) (P D : value)
    (h h' : heap) (r : value) :
  intermediate_ready E h ->
  create H E P D h = (Ret r, h') ->
  intermediate_ready E h'.
Proof.
  intros Hready Hrun.
  destruct (ToBoolean D) eqn:HD.
  - rewrite create_with_descriptors in Hrun by done.
    apply bind_Ret_inv in Hrun as (ov & h1 & Hnew & Hprops).
    pose proof (create_object_ready _ _ _ _ _ _ Hnew Hready) as (q & Hq & Hw).
    apply create_object_Ret in Hnew as (-> & Hlen & _).
    assert (HPI : PrototypalIntermediate E < length h).
    { destruct Hready as (q0 & Hq0 & _).
      apply own_prop_lookup in Hq0 as (o & Ho & _). by eapply lookup_lt_Some. }
    unfold defineProperties in Hprops.
    apply bind_Ret_inv in Hprops as (names & h0 & Hnames & Hprops).
    assert (h0 = h1) as -> by (by injection Hnames).
    apply bind_Ret_inv in Hprops as (u & h2 & Hloop & Hret).
    assert (h2 = h') as -> by (by injection Hret).
    apply defineProperties_each in Hloop as (_ & Hoth & _); [|lia].
    exists q. split; [|done]. unfold own_prop in *.
    rewrite Hoth; [done|lia|lia].
  - rewrite create_falsy_descriptors in Hrun by done.
    by eapply create_object_ready.
Qed.

Lemma create_keeps_intermediate_ready_witness :
  intermediate_ready (Examples.env_of Examples.legacy)
    (create Examples.legacy (Examples.env_of Examples.legacy)
       (VObject 4) (VObject 12)
       (MoreExamples.with_map (Examples.heap_of Examples.legacy))).2.
Proof.
  apply (create_keeps_intermediate_ready Examples.legacy
           (Examples.env_of Examples.legacy) (VObject 4) (VObject 12)
           (MoreExamples.with_map (Examples.heap_of Examples.legacy)) _
           (VObject 13)).
  - eexists. split; reflexivity.
  - reflexivity.
Defined.

(** X9. A prototype that is not an object divides the hosts.  With
    [Object.create], [create(P)] throws a TypeError for every primitive
    [P] but [null], and the heap is untouched.  Without it, [create(P)]
    throws for no primitive [P], [null] and [undefined] included: it
    returns a new object without properties whose prototype is
    [Object.prototype]. *)
Theorem create_primitive_prototype (H : host) (E : env) (P : value) (h : heap) :
  is_primitive P = true ->
  (Object_create_defined H = true -> P <> VNull ->
   create H E P VUndefined h = (Throw TypeError, h))
  /\ (Object_create_defined H = false -> intermediate_ready E h ->
      exists h1,
        create H E P VUndefined h = (Ret (VObject (length h)), h1)
        /\ h1 !! length h
           = Some (ordinary (Some (ObjectPrototype (host_realm H))) [])).
Proof.
  intros HP. rewrite create_without_descriptors. unfold create_object. split.
  - intros -> Hnull. by destruct P.
  - intros -> (q & Hq & Hw).
    destruct (set_own_writable (host_realm H) _ _ P _ _ Hq Hw)
      as (h' & Hset & Hwr & p & Hp & Hv & _).
    pose proof (writes_length _ _ _ _ Hwr) as Hlen.
    exists (h' ++ [ordinary (Some (ObjectPrototype (host_realm H))) []]).
    split.
    + cbn [putv]. rewrite (bind_step _ _ _ _ _ Hset).
      unfold construct_empty, bind. rewrite (getv_own _ _ _ _ _ Hp), Hv.
      unfold alloc. rewrite Hlen. by destruct P.
    + rewrite lookup_app_r by lia. by replace (length h - length h') with 0 by lia.
Qed.

Lemma create_primitive_prototype_witness :
  create Examples.modern (Examples.env_of Examples.modern) (VNumber 5) VUndefined
    (Examples.heap_of Examples.modern)
  = (Throw TypeError, Examples.heap_of Examples.modern)
  /\ exists h1,
       create Examples.legacy (Examples.env_of Examples.legacy) (VNumber 5) VUndefined
         (Examples.heap_of Examples.legacy) = (Ret (VObject 11), h1)
       /\ h1 !! 11 = Some (ordinary (Some 0) []).
Proof.
  split.
  - by apply (create_primitive_prototype Examples.modern
                (Examples.env_of Examples.modern) (VNumber 5)
                (Examples.heap_of Examples.modern) eq_refl).
  - apply (create_primitive_prototype Examples.legacy
             (Examples.env_of Examples.legacy) (VNumber 5)
             (Examples.heap_of Examples.legacy) eq_refl); [reflexivity|].
    eexists. split; reflexivity.
Defined.

(** *** getOwnPropertyDescriptor *)



(** *** getPrototypeOf and setPrototypeOf *)

(** X11. [getPrototypeOf] and [setPrototypeOf] throw a TypeError for
    [null] and for [undefined] on every host, whichever of the three
    functions each of them is, and leave the heap alone; in the last
    function of [setPrototypeOf] the TypeError comes before the free
    identifier is read. *)
Theorem prototype_of_nullish_throws (H : host) (E : env) (P : value) (h : heap) :
  getPrototypeOf H E VNull h = (Throw TypeError, h)
  /\ getPrototypeOf H E VUndefined h = (Throw TypeError, h)
  /\ setPrototypeOf H E VNull P h = (Throw TypeError, h)
  /\ setPrototypeOf H E VUndefined P h = (Throw TypeError, h).
Proof.
  unfold getPrototypeOf, setPrototypeOf.
  destruct (Object_getPrototypeOf_defined H), (Object_setPrototypeOf_defined H),
    (PROTO E); repeat split; reflexivity.
Qed.

(** X12. What [setPrototypeOf] returns depends on the host: the native
    function returns the object, the function that assigns [__proto__]
    returns the prototype. *)
Theorem setPrototypeOf_result (H : host) (E : env) (object prototype : value)
    (h h' : heap) (r : value) :
  Object_setPrototypeOf_defined H = true \/ PROTO E = true ->
  setPrototypeOf H E object prototype h = (Ret r, h') ->
  r = if Object_setPrototypeOf_defined H then object else prototype.
Proof.
  intros Hbranch. unfold setPrototypeOf.
  destruct (Object_setPrototypeOf_defined H).
  - unfold Object_setPrototypeOf. destruct (is_nullish object); [discriminate|].
    destruct prototype; try discriminate; destruct object; try (by intros [= <- _]);
      intros Hrun; by apply bind_Ret_inv in Hrun as (u & h1 & _ & [= <- _]).
  - destruct Hbranch as [?|Hlink]; [discriminate|]. rewrite Hlink. intros Hrun.
    by apply bind_Ret_inv in Hrun as (u & h1 & _ & [= <- _]).
Qed.

Lemma setPrototypeOf_result_witness :
  (setPrototypeOf Examples.modern (Examples.env_of Examples.modern)
     (VObject 5) (VObject 4) (Examples.heap_of Examples.modern)).1
  = Ret (VObject 5)
  /\ (setPrototypeOf Examples.legacy_link (Examples.env_of Examples.legacy_link)
        (VObject 5) (VObject 4) (Examples.heap_of Examples.legacy_link)).1
     = Ret (VObject 4).
Proof.
  split.
  - rewrite (setPrototypeOf_result Examples.modern (Examples.env_of Examples.modern)
               (VObject 5) (VObject 4) (Examples.heap_of Examples.modern)
               (setPrototypeOf Examples.modern (Examples.env_of Examples.modern)
                  (VObject 5) (VObject 4) (Examples.heap_of Examples.modern)).2
               (VObject 5)); [reflexivity|by left|reflexivity].
  - rewrite (setPrototypeOf_result Examples.legacy_link
               (Examples.env_of Examples.legacy_link)
               (VObject 5) (VObject 4) (Examples.heap_of Examples.legacy_link)
               (setPrototypeOf Examples.legacy_link
                  (Examples.env_of Examples.legacy_link)
                  (VObject 5) (VObject 4) (Examples.heap_of Examples.legacy_link)).2
               (VObject 4)); [reflexivity|by right|reflexivity].
Defined.

(** X13. A new prototype that is a primitive other than [null] divides
    the hosts too: the native function throws a TypeError.  The function
    that assigns [__proto__] returns the primitive: where the assignment
    finds the accessor it changes nothing, and where it does not, as on
    an object without prototype, it makes [__proto__] an own property of
    the object that holds the primitive, when that assignment can be
    made. *)
Theorem setPrototypeOf_primitive_prototype (H : host) (E : env) (l : loc)
    (P : value) (h : heap) :
  is_primitive P = true -> P <> VNull ->
  (Object_setPrototypeOf_defined H = true ->
   setPrototypeOf H E (VObject l) P h = (Throw TypeError, h))
  /\ (Object_setPrototypeOf_defined H = false -> PROTO E = true ->
      finds_accessor (host_realm H) h l "__proto__" = true ->
      setPrototypeOf H E (VObject l) P h = (Ret P, h))
  /\ (Object_setPrototypeOf_defined H = false -> PROTO E = true ->
      finds_accessor (host_realm H) h l "__proto__" = false ->
      l < length h -> assignable h l "__proto__" = true ->
      exists h' p,
        setPrototypeOf H E (VObject l) P h = (Ret P, h')
        /\ own_prop h' l "__proto__" = Some p /\ p_value p = P).
Proof.
  intros HP Hnull. unfold setPrototypeOf. split; [|split].
  - intros ->. by destruct P.
  - intros -> -> Hfinds. unfold bind. cbn [putv].
    rewrite (set_own_link _ _ _ _ _ Hfinds), set_link_primitive by done. done.
  - intros -> -> Hfinds Hl Hassign. unfold bind. cbn [putv].
    rewrite (set_own_plain _ _ _ _ _ Hfinds).
    pose proof (assignable_set_data l "__proto__" P h Hl) as Hset.
    rewrite Hassign in Hset. destruct Hset as (h' & Hset). rewrite Hset.
    apply set_data_Ret in Hset as (_ & p & Hp & Hv & _). by exists h', p.
Qed.

Lemma setPrototypeOf_primitive_prototype_witness :
  setPrototypeOf Examples.modern (Examples.env_of Examples.modern)
    (VObject 5) (VNumber 7) (Examples.heap_of Examples.modern)
  = (Throw TypeError, Examples.heap_of Examples.modern)
  /\ setPrototypeOf Examples.legacy_link (Examples.env_of Examples.legacy_link)
       (VObject 5) (VNumber 7) (Examples.heap_of Examples.legacy_link)
     = (Ret (VNumber 7), Examples.heap_of Examples.legacy_link)
  /\ exists h' p,
       setPrototypeOf Examples.legacy_link (Examples.env_of Examples.legacy_link)
         (VObject 11) (VNumber 7)
         (MoreExamples.with_bare (Examples.heap_of Examples.legacy_link))
       = (Ret (VNumber 7), h')
       /\ own_prop h' 11 "__proto__" = Some p /\ p_value p = VNumber 7.
Proof.
  split; [|split].
  - by apply (setPrototypeOf_primitive_prototype Examples.modern
                (Examples.env_of Examples.modern) 5 (VNumber 7)).
  - by apply (setPrototypeOf_primitive_prototype Examples.legacy_link
                (Examples.env_of Examples.legacy_link) 5 (VNumber 7)).
  - apply (setPrototypeOf_primitive_prototype Examples.legacy_link
             (Examples.env_of Examples.legacy_link) 11 (VNumber 7));
      try done. vm_compute. lia.
Defined.

(** *** getOwnPropertyNames *)

Lemma assoc_key_Some {A} k (l : list (string * A)) : k ∈ l.*1 -> is_Some (assoc k l).
Proof.
  induction l as [|[k0 a0] l IH]; simpl.
  - intros Hin. by apply not_elem_of_nil in Hin.
  - case_bool_decide; [eauto|]. intros [?|?]%elem_of_cons; [congruence|auto].
Qed.

Lemma enumerable_new_NoDup props visited : NoDup (enumerable_new props visited).
Proof.
  revert visited. induction props as [|[k p] rest IH]; intros visited; simpl.
  - constructor.
  - destruct (p_enumerable p && bool_decide (k ∉ visited)); simpl; [|apply IH].
    constructor; [|apply IH].
    intros Hin. apply enumerable_new_spec in Hin as [Hv _].
    apply Hv, elem_of_cons. by left.
Qed.

Lemma getOwnPropertyNames_Ret (H : host) (E : env) (K : Rest.keys_support) l h ks h' :
  Rest.getOwnPropertyNames H E K (VObject l) h = (Ret ks, h') ->
  h' = h
  /\ NoDup ks
  /\ (forall k, k ∈ ks <->
        exists p, own_prop h l k = Some p
                  /\ (native_names E K = true \/ p_enumerable p = true)).
Proof.
  unfold Rest.getOwnPropertyNames. fold (native_names E K).
  destruct (native_names E K).
  - unfold Rest.Object_getOwnPropertyNames, Rest.keys_of, bind, own_prop. simpl.
    destruct (h !! l) as [o|]; [|discriminate]. intros [= <- <-].
    split; [done|]. split; [apply NoDup_remove_dups|].
    intros k. unfold Rest.own_keys. rewrite elem_of_remove_dups. split.
    + intros [p Hp]%assoc_key_Some. eauto.
    + intros (p & Hp & _). by eapply assoc_Some_key.
  - unfold Rest.getOwnPropertyNames_fallback.
    destruct (Rest.Object_keys_defined K); [|discriminate].
    unfold Rest.Object_keys, Rest.keys_of, bind, own_prop. simpl.
    destruct (h !! l) as [o|]; [|discriminate]. intros [= <- <-].
    split; [done|]. split; [apply enumerable_new_NoDup|].
    intros k. unfold Rest.own_enumerable_keys. rewrite enumerable_new_spec. split.
    + intros (_ & p & Hp & He). eauto.
    + intros (p & Hp & [?|He]); [discriminate|].
      split; [apply not_elem_of_nil|eauto].
Qed.



Lemma property_fallback_new (H : host) (E : env) l name d h r h' :
  defines_own H E name = true ->
  native_property H E = false ->
  own_prop h l name = None ->
  property H E (VObject l) name d h = (Ret r, h') ->
  exists p, own_prop h' l name = Some p /\ p_enumerable p = true.
Proof.
  unfold defines_own, native_property, property. intros Hplain Hfb Hnew.
  rewrite Hfb in *. simpl in Hplain. intros Hrun.
  apply property_fallback_Ret in Hrun as (_ & l' & v & [= <-] & _ & _ & Hset).
  apply set_own_Ret in Hset as (_ & p & Hp & _ & _ & Hattrs); [|by left].
  rewrite Hnew in Hattrs. subst p. eauto.
Qed.

(** X17. A property that [defineProperty] has just defined is listed by
    [getOwnPropertyNames] where the native function lists the names, and
    also where both functions are the ones written in the module and the
    property is new: there it was created by a plain assignment, so it is
    enumerable and [Object.keys] has it.  The name is one whose definition
    writes an own property: any name on a host with a working
    [Object.defineProperty], any name but [__proto__] elsewhere. *)
Theorem defined_property_is_named (H : host) (E : env) (K : Rest.keys_support)
    (l : loc) (name : string) (v : value) (h h1 h2 : heap) (r : value)
    (ks : list string) :
  l < length h ->
  defines_own H E name = true ->
  native_names E K = true
  \/ (native_property H E = false /\ own_prop h l name = None) ->
  defineProperty H E (VObject l) name v h = (Ret r, h1) ->
  Rest.getOwnPropertyNames H E K (VObject l) h1 = (Ret ks, h2) ->
  name ∈ ks.
Proof.
  intros Hl Hplain Hcase Hdef Hnames.
  apply getOwnPropertyNames_Ret in Hnames as (_ & _ & Hks). apply Hks.
  destruct Hcase as [Hnative|[Hfallback Hnew]].
  - apply defineProperty_Ret in Hdef as (_ & l' & p & [= <-] & _ & Hp & _);
      [eauto|done].
  - rewrite defineProperty_dispatch in Hdef.
    destruct (is_full_descriptor h v).
    + destruct (property_fallback_new _ _ _ _ _ _ _ _ Hplain Hfallback Hnew Hdef)
        as (p & Hp & He). eauto.
    + case_bool_decide; [discriminate|].
      unfold bind in Hdef. rewrite literal_run in Hdef.
      apply property_fallback_new in Hdef as (p & Hp & He);
        [eauto|done|done|by rewrite own_prop_alloc].
Qed.

Lemma defined_property_is_named_witness :
  (forall ks h2,
     Rest.getOwnPropertyNames Examples.legacy (Examples.env_of Examples.legacy)
       MoreExamples.keys_only (VObject 4)
       (defineProperty Examples.legacy (Examples.env_of Examples.legacy)
          (VObject 4) "k" (VNumber 5) (Examples.heap_of Examples.legacy)).2
     = (Ret ks, h2) -> "k" ∈ ks)
  /\ (Rest.getOwnPropertyNames Examples.legacy (Examples.env_of Examples.legacy)
        MoreExamples.keys_only (VObject 4)
        (defineProperty Examples.legacy (Examples.env_of Examples.legacy)
           (VObject 4) "k" (VNumber 5) (Examples.heap_of Examples.legacy)).2).1
     = Ret ["k"].
Proof.
  split; [|reflexivity]. intros ks h2.
  apply (defined_property_is_named Examples.legacy (Examples.env_of Examples.legacy)
           MoreExamples.keys_only 4 "k" (VNumber 5)
           (Examples.heap_of Examples.legacy) _ h2 (VObject 4)).
  - vm_compute. lia.
  - reflexivity.
  - right. split; reflexivity.
  - reflexivity.
Defined.

(** *** prop *)

(** X18. [prop] with exactly three arguments defines the property and
    returns the target; called again with two arguments it returns a
    descriptor of that property, whose [value] is the third argument when
    that was not a full descriptor (where the read is the module's own
    function, [target.hasOwnProperty] is assumed to be still the
    built-in; the name is one whose definition writes an own property:
    any name on a host with a working [Object.defineProperty], any name
    but [__proto__] elsewhere).  With four arguments or more it defines
    nothing: it is the read. *)
Theorem prop_roundtrip (H : host) (E : env) (object : value) (name : string)
    (v : value) (h : heap) :
  (forall r h1,
     defines_own H E name = true ->
     Rest.prop H E object name [v] h = (Ret r, h1) ->
     (native_descriptor_read H E = false ->
      forall l, object = VObject l -> calls_builtin_hasOwnProperty h1 l) ->
     r = object
     /\ exists d h2,
          Rest.prop H E object name [] h1 = (Ret (VObject d), h2)
          /\ (is_full_descriptor h v = false -> get h2 d "value" = v))
  /\ (forall w rest,
        Rest.prop H E object name (v :: w :: rest) h
        = getOwnPropertyDescriptor H E object name h).
Proof.
  split; [|reflexivity].
  intros r h1 Hown Hrun Hbuiltin. unfold Rest.prop in Hrun. simpl in Hrun.
  apply bind_Ret_inv in Hrun as (r0 & h0 & Hdef & Hret).
  assert (r = object /\ h0 = h1) as [-> ->] by (by injection Hret).
  split; [done|].
  apply (defineProperty_Ret _ _ _ _ _ _ _ _ Hown) in Hdef
    as (_ & l & p & -> & _ & Hp & Hshort).
  unfold Rest.prop. simpl. unfold getOwnPropertyDescriptor.
  fold (native_descriptor_read H E).
  destruct (native_descriptor_read H E) eqn:Hnative.
  - eexists _, _. split; [by apply native_descriptor_of_own|].
    intros Hplain. rewrite <- (Hshort Hplain). by apply get_alloc_new.
  - eexists _, _. split; [apply fallback_descriptor_of_own; [by apply Hbuiltin|done]|].
    intros Hplain. rewrite <- (Hshort Hplain). by apply get_alloc_new.
Qed.

Lemma prop_roundtrip_witness :
  exists h1 d h2,
    Rest.prop Examples.modern (Examples.env_of Examples.modern)
      (VObject 4) "k" [VUndefined] (Examples.heap_of Examples.modern)
    = (Ret (VObject 4), h1)
    /\ Rest.prop Examples.modern (Examples.env_of Examples.modern)
         (VObject 4) "k" [] h1 = (Ret (VObject d), h2)
    /\ has_own h1 (VObject 4) "k" = true
    /\ get h2 d "value" = VUndefined.
Proof.
  destruct (prop_roundtrip Examples.modern (Examples.env_of Examples.modern)
              (VObject 4) "k" VUndefined (Examples.heap_of Examples.modern))
    as (Hround & _).
  destruct (Hround (VObject 4)
              (Rest.prop Examples.modern (Examples.env_of Examples.modern)
                 (VObject 4) "k" [VUndefined] (Examples.heap_of Examples.modern)).2
              eq_refl eq_refl) as (_ & d & h2 & Hread & Hvalue).
  { intros Hn. vm_compute in Hn. discriminate. }
  eexists _, d, h2. split; [reflexivity|]. split; [exact Hread|].
  split; [reflexivity|]. by apply Hvalue.
Defined.

(** *** assign on a primitive target *)

Lemma preserves_grows {A} (h0 : heap) (m : M A) :
  (forall h r h', m h = (r, h') -> h `prefix_of` h') ->
  preserves (fun h => h0 `prefix_of` h) m.
Proof. intros Hm h r h' Hrun Hpre. etrans; [exact Hpre|]. by eapply Hm. Qed.

Lemma Object_call_grows R v h r h' :
  Object_call R v h = (r, h') -> h `prefix_of` h'.
Proof.
  destruct v; cbv [Object_call ToObject bind alloc ret throw];
    intros [= _ <-]; (reflexivity || by apply prefix_app_r).
Qed.

Lemma call_hasOwnProperty_heap R v k h r h' :
  call_hasOwnProperty R v k h = (r, h') -> h' = h.
Proof.
  unfold call_hasOwnProperty, bind.
  destruct (getv R v "hasOwnProperty" h) as [[f|e|] h1] eqn:Hf;
    pose proof (getv_heap _ _ _ _ _ _ Hf) as ->;
    [|by intros [= _ <-]..].
  case_matches; by intros [= _ <-].
Qed.

Lemma find_prop_from_grows fuel n h extra start k p :
  find_prop_from fuel h start k = Some p ->
  find_prop_from (fuel + n) (h ++ extra) start k = Some p.
Proof.
  revert start. induction fuel as [|f IH]; intros start; simpl; [done|].
  destruct start as [l|]; [|done].
  destruct (h !! l) as [o|] eqn:Hl; [|done].
  rewrite (lookup_app_l_Some _ _ _ _ Hl).
  destruct (assoc k (o_props o)); [done|]. apply IH.
Qed.

Lemma calls_builtin_hasOwnProperty_grows h extra l :
  calls_builtin_hasOwnProperty h l -> calls_builtin_hasOwnProperty (h ++ extra) l.
Proof.
  intros (fl & fo & Hget & Hfl & Hcall). exists fl, fo.
  split; [|split; [by apply lookup_app_l_Some|done]].
  revert Hget. unfold get, find_prop, chain_fuel. rewrite length_app.
  destruct (find_prop_from (length h) h (Some l) "hasOwnProperty") as [p|] eqn:Hp;
    [|done].
  by rewrite (find_prop_from_grows _ _ _ _ _ _ _ Hp).
Qed.

Lemma for_in_keys_own_first R h l k p :
  own_prop h l k = Some p -> p_enumerable p = true ->
  exists k0 ks p0, for_in_keys R h (VObject l) = k0 :: ks /\ own_prop h l k0 = Some p0.
Proof.
  intros Hown He. destruct (own_prop_lookup _ _ _ _ Hown) as (o & Hl & Hk).
  assert (Hin : k ∈ enumerable_new (o_props o) []).
  { apply enumerable_new_spec. split; [apply not_elem_of_nil|eauto]. }
  unfold for_in_keys, chain_fuel. destruct h as [|o0 h']; [done|].
  simpl length. simpl for_in_from. rewrite Hl.
  destruct (enumerable_new (o_props o) []) as [|k0 ks] eqn:Hkeys;
    [by apply not_elem_of_nil in Hin|].
  assert (Hk0 : k0 ∈ enumerable_new (o_props o) [])
    by (rewrite Hkeys; apply elem_of_cons; by left).
  apply enumerable_new_spec in Hk0 as (_ & p0 & Hp0 & _).
  exists k0, (ks ++ for_in_from (length h') (o0 :: h') (o_proto o) ((o_props o).*1 ++ [])), p0.
  split; [done|]. unfold own_prop. by rewrite Hl.
Qed.

(** X19. The function written in the module assigns to [object], not to
    the wrapper [Object(object)] it returns.  On a target that is not an
    object it therefore copies nothing: whatever the call does, the
    objects of the heap are as they were, and when it returns, the result
    is the wrapper as [Object(object)] allocated it.  Where the first
    source is an object with the built-in [hasOwnProperty] and an own
    enumerable property, the first assignment throws a TypeError, unless
    that source has a property [__proto__] of its own on a host with the
    accessor, whose setter ignores a receiver that is not an object. *)
Theorem assign_shim_primitive_target (H : host) (object : value)
    (sources : list value) (h : heap) :
  Object_assign_defined H = false ->
  is_primitive object = true ->
  (forall r h', assign H object sources h = (r, h') ->
     h `prefix_of` h'
     /\ forall v, r = Ret v ->
          exists h1, Object_call (host_realm H) object h = (Ret v, h1)
                     /\ h1 `prefix_of` h')
  /\ (is_nullish object = false ->
      forall s rest k p,
        sources = VObject s :: rest ->
        calls_builtin_hasOwnProperty h s ->
        own_prop h s k = Some p -> p_enumerable p = true ->
        proto_accessor (host_realm H) = false \/ own_prop h s "__proto__" = None ->
        exists w, assign H object sources h = (Throw TypeError, h ++ [w])).
Proof.
  intros Hshim Hprim. unfold assign. rewrite Hshim. unfold assign_shim.
  set (loop := for_each _ sources).
  assert (Hloop : forall h0, preserves (fun h => h0 `prefix_of` h) loop).
  { intros h0. apply preserves_for_each. intros argument.
    apply preserves_bind; [apply preserves_grows, Object_call_grows|].
    intros source. apply preserves_bind; [apply preserves_pure; by intros ? ? ? [= _ <-]|].
    intros keys. apply preserves_for_each. intros property.
    apply preserves_bind; [apply preserves_pure, call_hasOwnProperty_heap|].
    intros own. destruct (ToBoolean own);
      [|apply preserves_pure; by intros ? ? ? [= _ <-]].
    apply preserves_bind; [apply preserves_pure, getv_heap|].
    intros v. apply preserves_pure. intros h1 r1 h1'.
    destruct object; try discriminate; try (by intros [= _ <-]);
      intros Hput; by apply put_primitive_run in Hput as (-> & _). }
  split.
  - intros r h'. destruct (is_nullish object); [by intros [= <- <-]|].
    unfold bind at 1.
    destruct (Object_call (host_realm H) object h) as [[output|e|] h1] eqn:Hout;
      [|intros [= <- <-]; split; [by eapply Object_call_grows|done]..].
    pose proof (Object_call_grows _ _ _ _ _ Hout) as Hpre.
    unfold bind.
    destruct (loop h1) as [[u|e|] h2] eqn:Hrun; intros [= <- <-];
      pose proof (Hloop h1 _ _ _ Hrun (reflexivity h1)) as Hpre2;
      (split; [by etrans|]); [|done..].
    intros v [= <-]. eauto.
  - intros Hnn s rest k p -> Hbuiltin Hown He Hkey. rewrite Hnn.
    assert (Hwrap : exists w, Object_call (host_realm H) object h
                              = (Ret (VObject (length h)), h ++ [w])).
    { destruct object; try discriminate; eexists; reflexivity. }
    destruct Hwrap as [w Hwrap]. exists w.
    rewrite (bind_step _ _ _ _ _ Hwrap).
    assert (Hs : s < length h).
    { unfold own_prop in Hown. destruct (h !! s) eqn:Hl; [|done].
      by eapply lookup_lt_Some. }
    rewrite <- (own_prop_alloc h w s k Hs) in Hown.
    destruct (for_in_keys_own_first (host_realm H) _ _ _ _ Hown He)
      as (k0 & ks & p0 & Hkeys & Hp0).
    pose proof (calls_builtin_hasOwnProperty_grows h [w] s Hbuiltin) as Hb.
    unfold loop. cbn [for_each]. unfold bind at 1. unfold bind at 1.
    unfold bind at 1. cbn [Object_call ToObject]. unfold bind at 1. cbn [ret].
    unfold bind at 1. unfold lift at 1. rewrite Hkeys. cbn [for_each].
    unfold bind at 1. unfold bind at 1.
    rewrite (call_hasOwnProperty_builtin _ _ _ k0 Hb).
    rewrite bool_decide_true by eauto. cbn [ToBoolean].
    unfold bind at 1. rewrite (getv_own _ _ _ _ _ Hp0).
    assert (Hk0 : ordinary_key (host_realm H) k0 = true).
    { unfold ordinary_key. destruct Hkey as [->|Hnone]; [by rewrite andb_false_r|].
      rewrite bool_decide_false; [done|]. intros ->.
      rewrite own_prop_alloc in Hp0 by done. congruence. }
    assert (Hput : putv (host_realm H) object k0 (p_value p0) (h ++ [w])
                   = (Throw TypeError, h ++ [w])).
    { destruct object; try discriminate; cbn [putv];
        match goal with
        | |- put_primitive ?R ?start ?k ?h0 = _ =>
            destruct (put_primitive R start k h0) as [r0 h0'] eqn:Hrun;
            apply put_primitive_run in Hrun as (-> & _ & Hthrow);
            by rewrite (Hthrow Hk0)
        end. }
    by rewrite Hput.
Qed.

Lemma assign_shim_primitive_target_witness :
  (exists w,
     assign Examples.legacy (VNumber 5) [VObject 12]
       (MoreExamples.with_map (Examples.heap_of Examples.legacy))
     = (Throw TypeError,
        MoreExamples.with_map (Examples.heap_of Examples.legacy) ++ [w]))
  /\ (exists h',
        assign Examples.modern (VNumber 5) [VObject 12]
          (MoreExamples.with_map (Examples.heap_of Examples.modern))
        = (Ret (VObject 13), h')
        /\ get h' 13 "a" = VNumber 1).
Proof.
  split; [|eexists; split; reflexivity].
  destruct (assign_shim_primitive_target Examples.legacy (VNumber 5) [VObject 12]
              (MoreExamples.with_map (Examples.heap_of Examples.legacy))
              eq_refl eq_refl) as [_ Hthrow].
  apply (Hthrow eq_refl 12 [] "a" (data (VNumber 1)) eq_refl);
    [|reflexivity|reflexivity|by left].
  exists 2, (MkObject (Some 1) true (Some Builtin_hasOwnProperty) []).
  split; [reflexivity|]. split; reflexivity.
Defined.
